(** * pygritbx: static equilibrium of a gear train and AGMA tooth checks

    A shallow embedding of [pygritbx/component.py], [pygritbx/gear.py] and
    [makima2dInterpolator.py].

    Numbers.  Python floats and numpy [float64] values are read as real
    numbers, so rounding, infinities and NaN are outside the model.  What
    is kept is the difference between the two division operators the code
    uses: [/] on Python floats raises [ZeroDivisionError] on a zero
    divisor ([pydiv]), whereas [/] on numpy values never raises
    (plain [Rdiv]); and what [**] does on Python numbers at a base that
    is zero or negative ([pypow]).

    Objects.  Attributes that [__init__] always assigns are record
    fields.  Attributes that only some method assigns later
    ([Y_theta], [Z_I], ...) live in a per-object attribute dictionary,
    and reading one that was never assigned raises [AttributeError]. *)

From Stdlib Require Import Reals Lra List String ZArith Bool Lia.
Import ListNotations.
Open Scope R_scope.

(** ** Exceptions and the two monads *)

Inductive pyerror : Type :=
| ValueError (msg : string)
| ZeroDivisionError
| AttributeError (attr : string)
| IndexError
(** not an exception of Python: the value at hand is a complex number,
    which the real-valued attributes of this model cannot hold; the model
    stops where Python would go on with it *)
| ComplexValue.

Inductive result (A : Type) : Type :=
| Ok (a : A)
| Err (e : pyerror).
Arguments Ok {A} a.
Arguments Err {A} e.

Definition rbind {A B} (r : result A) (k : A -> result B) : result B :=
  match r with
  | Ok a => k a
  | Err e => Err e
  end.

Declare Scope res_scope.
Delimit Scope res_scope with res.
Notation "'let?' x ':=' r 'in' k" := (rbind r (fun x => k))
  (at level 10, x name, r at level 100, k at level 200) : res_scope.

(** A method that mutates [self]: the object as the call leaves it, and
    either a return value or the exception that escaped.  The mutations
    made before a [raise] stay. *)
Definition M (S A : Type) : Type := S -> S * result A.

Definition ret {S A} (a : A) : M S A := fun s => (s, Ok a).
Definition raise {S A} (e : pyerror) : M S A := fun s => (s, Err e).
Definition bind {S A B} (m : M S A) (k : A -> M S B) : M S B :=
  fun s => match m s with
           | (s', Ok a) => k a s'
           | (s', Err e) => (s', Err e)
           end.
Definition get {S} : M S S := fun s => (s, Ok s).
Definition modify {S} (f : S -> S) : M S unit := fun s => (f s, Ok tt).
Definition lift {S A} (r : result A) : M S A := fun s => (s, r).

Declare Scope py_scope.
Delimit Scope py_scope with py.
Notation "x <- m ;; k" := (bind m (fun x => k))
  (at level 61, m at next level, right associativity) : py_scope.
Notation "m ;; k" := (bind m (fun _ => k))
  (at level 61, right associativity) : py_scope.

(** ** Numbers *)

Definition float_eq (a b : R) : bool := if Req_dec_T a b then true else false.
Definition float_le (a b : R) : bool := if Rle_dec a b then true else false.
Definition float_lt (a b : R) : bool := if Rlt_dec a b then true else false.

(** [a / b] on Python floats. *)
Definition pydiv (a b : R) : result R :=
  if float_eq b 0 then Err ZeroDivisionError else Ok (a / b).

(** [math.ceil]. *)
Definition ceil (x : R) : Z := (- Int_part (- x))%Z.

(** [np.sign]. *)
Definition np_sign (x : R) : R :=
  if float_lt x 0 then -1 else if float_eq x 0 then 0 else 1.

(** ** numpy arrays of shape (3,) *)

Record vec : Type := mkvec { vx : R; vy : R; vz : R }.

Definition zeros : vec := mkvec 0 0 0.
Definition ones : vec := mkvec 1 1 1.
Definition vadd (a b : vec) : vec := mkvec (vx a + vx b) (vy a + vy b) (vz a + vz b).
Definition vsub (a b : vec) : vec := mkvec (vx a - vx b) (vy a - vy b) (vz a - vz b).
Definition vneg (a : vec) : vec := mkvec (- vx a) (- vy a) (- vz a).
Definition vscale (k : R) (a : vec) : vec := mkvec (k * vx a) (k * vy a) (k * vz a).
Definition vmul (a b : vec) : vec := mkvec (vx a * vx b) (vy a * vy b) (vz a * vz b).
Definition vabs (a : vec) : vec := mkvec (Rabs (vx a)) (Rabs (vy a)) (Rabs (vz a)).
Definition vsum (a : vec) : R := vx a + vy a + vz a.
Definition cross (a b : vec) : vec :=
  mkvec (vy a * vz b - vz a * vy b)
        (vz a * vx b - vx a * vz b)
        (vx a * vy b - vy a * vx b).
(** [all(a <= b)] and [all(a == b)]. *)
Definition all_le (a b : vec) : bool :=
  float_le (vx a) (vx b) && float_le (vy a) (vy b) && float_le (vz a) (vz b).
Definition all_eq (a b : vec) : bool :=
  float_eq (vx a) (vx b) && float_eq (vy a) (vy b) && float_eq (vz a) (vz b).

(** ** Force, Torque, Material *)

Module Force.
Record t : Type := mk { force : vec; loc : vec }.

(** Modelled from the spec: [Force.moment] belongs to
    [pygritbx/force.py], which is not among the sources.  It is the
    cross product of the force with the lever arm (millimetres turned
    into metres), kept along the rotation axis by an element-wise
    product with [|axis|]; [Gear.checkTorqueEquilibrium] carries the
    same expression in a comment. *)
Definition moment (f : t) (location axis : vec) : vec :=
  vmul (cross (force f) (vscale 1e-3 (vsub (loc f) location))) (vabs axis).
End Force.

Module Torque.
Record t : Type := mk { torque : vec; loc : vec }.
End Torque.

Module Material.
Record t : Type := mk { name : string; HB : R }.
End Material.

(** [x in arr] on a numpy object array is [(arr == x).any()]: every stored
    element is compared with [x] by its own [__eq__].  The [Force] and
    [Torque] classes the package imports are not among the sources, so
    their equality is left open. *)
Class Membership : Type := {
  force_eq : Force.t -> Force.t -> bool;
  torque_eq : Torque.t -> Torque.t -> bool
}.

Definition contains {A} (eqb : A -> A -> bool) (arr : list A) (x : A) : bool :=
  existsb (fun y => eqb y x) arr.

(** The loop shared by [updateEFs] and [updateETs]:
    [for e in new: if e not in arr: arr = np.append(arr, e)]. *)
Definition append_missing {A} (eqb : A -> A -> bool) (arr new : list A) : list A :=
  fold_left (fun acc e => if contains eqb acc e then acc else acc ++ [e]) new arr.

(** ** Component *)

Module Component.
Record t : Type := mk {
  name : string;
  material : option Material.t;
  axis : vec;
  loc : vec;
  EFs : list Force.t;
  ETs : list Torque.t;
  omega : vec;
  (** not assigned by [__init__]: present once the component has been
      placed on a shaft *)
  abs_loc : option vec
}.

Definition set_EFs (c : t) (l : list Force.t) : t :=
  mk (name c) (material c) (axis c) (loc c) l (ETs c) (omega c) (abs_loc c).
Definition set_ETs (c : t) (l : list Torque.t) : t :=
  mk (name c) (material c) (axis c) (loc c) (EFs c) l (omega c) (abs_loc c).

(** [__init__] with its defaults [EFs=np.array([])], [ETs=np.array([])],
    [omega=np.zeros(3)]. *)
Definition init (name : string) (material : option Material.t) (axis loc : vec) : t :=
  mk name material axis loc [] [] zeros None.

(** The running sum [eq] of [checkForceEquilibrium]. *)
Definition force_sum (c : t) : vec :=
  fold_left (fun eq EF => vadd eq (Force.force EF)) (EFs c) zeros.

(** [true] when the method prints "maintains a force equilibrium",
    [false] when it prints "does not maintain a force equilibrium". *)
Definition checkForceEquilibrium (c : t) : bool :=
  all_le (force_sum c) (vscale 1e-3 ones).

Section Update.
Context `{Membership}.

Definition updateEFs (c : t) (new : list Force.t) : t :=
  set_EFs c (append_missing force_eq (EFs c) new).

Definition updateETs (c : t) (new : list Torque.t) : t :=
  set_ETs c (append_missing torque_eq (ETs c) new).
End Update.
End Component.

(** Equality by value, one possible [__eq__]. *)
Definition force_eq_by_value (a b : Force.t) : bool :=
  all_eq (Force.force a) (Force.force b) && all_eq (Force.loc a) (Force.loc b).
Definition torque_eq_by_value (a b : Torque.t) : bool :=
  all_eq (Torque.torque a) (Torque.torque b) && all_eq (Torque.loc a) (Torque.loc b).
Definition by_value : Membership :=
  {| force_eq := force_eq_by_value; torque_eq := torque_eq_by_value |}.

(** ** Gear: the object and its constructor *)

(** The instance dictionary for attributes assigned after construction. *)
Definition attr_dict : Type := list (string * R).

Fixpoint lookup (k : string) (d : attr_dict) : option R :=
  match d with
  | [] => None
  | (k', v) :: rest => if String.eqb k k' then Some v else lookup k rest
  end.

Module Gear.
Record t : Type := mk {
  (** the inherited [Component] part *)
  comp : Component.t;
  m_n : R; z : R; psi : R; phi_n : R; Q_v : R; FW : R;
  p_n : R; p_t : R; p_x : R; m_t : R; d : R; phi_t : R; z_p : Z;
  phi_b : R; h_a : R; h_f : R; h : R; d_a : R; d_f : R;
  (** everything assigned later: [K_0], [Y_theta], [Z_I], ... and, on
      bevel gears, [d_av] and [gamma] *)
  attrs : attr_dict
}.

Definition set_comp (g : t) (c : Component.t) : t :=
  mk c (m_n g) (z g) (psi g) (phi_n g) (Q_v g) (FW g) (p_n g) (p_t g) (p_x g)
     (m_t g) (d g) (phi_t g) (z_p g) (phi_b g) (h_a g) (h_f g) (h g) (d_a g)
     (d_f g) (attrs g).
Definition set_attrs (g : t) (a : attr_dict) : t :=
  mk (comp g) (m_n g) (z g) (psi g) (phi_n g) (Q_v g) (FW g) (p_n g) (p_t g)
     (p_x g) (m_t g) (d g) (phi_t g) (z_p g) (phi_b g) (h_a g) (h_f g) (h g)
     (d_a g) (d_f g) a.

Definition name (g : t) : string := Component.name (comp g).
Definition EFs (g : t) : list Force.t := Component.EFs (comp g).
Definition ETs (g : t) : list Torque.t := Component.ETs (comp g).

(** [Gear.__init__]; [psi] and [phi_n] arrive in degrees.  The guard on
    the axial pitch tests the argument [psi], not the converted angle. *)
Definition init (name : string) (axis loc : vec) (m_n z psi phi_n Q_v FW : R)
    (material : option Material.t) : result t :=
  (let c := Component.init name material axis loc in
   let psi_r := psi * PI / 180 in
   let phi_n_r := phi_n * PI / 180 in
   let p_n := m_n * PI in
   let? p_t := pydiv p_n (cos psi_r) in
   let? p_x := (if negb (float_eq psi 0) then pydiv p_t (tan psi_r) else Ok 0) in
   let? m_t := pydiv m_n (cos psi_r) in
   let d := m_t * z in
   let? q := pydiv (tan phi_n_r) (cos psi_r) in
   let phi_t := atan q in
   let? zq := pydiv z (cos psi_r ^ 3) in
   let z_p := ceil zq in
   let phi_b := atan (tan psi_r * cos phi_n_r) in
   let h_a := m_n in
   let h_f := 1.25 * m_n in
   let h := h_a + h_f in
   let d_a := d + 2 * h_a in
   let d_f := d - 2 * h_f in
   Ok (mk c m_n z psi_r phi_n_r Q_v FW p_n p_t p_x m_t d phi_t z_p phi_b
          h_a h_f h d_a d_f []))%res.
End Gear.

Definition getattr (k : string) : M Gear.t R :=
  fun g => match lookup k (Gear.attrs g) with
           | Some v => (g, Ok v)
           | None => (g, Err (AttributeError k))
           end.
Definition setattr (k : string) (v : R) : M Gear.t unit :=
  modify (fun g => Gear.set_attrs g ((k, v) :: Gear.attrs g)).

(** ** Mesh and the gear with its neighbours *)

Module Mesh.
(** [drivingGear] and [drivenGear] are the two gears as a method of one
    of them reads them: name, material and geometry, none of which the
    methods below change. *)
Record t : Type := mk {
  name : string;
  drivingGear : Gear.t;
  drivenGear : Gear.t;
  F_t : Force.t; F_r : Force.t; F_a : Force.t; F : Force.t;
  radiality : list vec;
  loc : vec;
  type : string;
  m_G : R
}.

(** [mesh.F_t.force = v] and its three siblings: the [Force] objects stay,
    their [force] attribute is rebound. *)
Definition set_F_t (m : t) (v : vec) : t :=
  mk (name m) (drivingGear m) (drivenGear m) (Force.mk v (Force.loc (F_t m)))
     (F_r m) (F_a m) (F m) (radiality m) (loc m) (type m) (m_G m).
Definition set_F_r (m : t) (v : vec) : t :=
  mk (name m) (drivingGear m) (drivenGear m) (F_t m)
     (Force.mk v (Force.loc (F_r m))) (F_a m) (F m) (radiality m) (loc m)
     (type m) (m_G m).
Definition set_F_a (m : t) (v : vec) : t :=
  mk (name m) (drivingGear m) (drivenGear m) (F_t m) (F_r m)
     (Force.mk v (Force.loc (F_a m))) (F m) (radiality m) (loc m) (type m)
     (m_G m).
Definition set_F (m : t) (v : vec) : t :=
  mk (name m) (drivingGear m) (drivenGear m) (F_t m) (F_r m) (F_a m)
     (Force.mk v (Force.loc (F m))) (radiality m) (loc m) (type m) (m_G m).
End Mesh.

(** What [solve] can reach from [self]: the gear, the mesh objects of
    [self.meshes] (shared with the gears on their other side) and the
    shaft [self.onShaft], an attribute that exists once the gear has been
    mounted.  A mesh is named by its position in [meshes]. *)
Record Assembly : Type := mkAssembly {
  self : Gear.t;
  meshes : list Mesh.t;
  onShaft : option Component.t
}.

Definition set_self (a : Assembly) (g : Gear.t) : Assembly :=
  mkAssembly g (meshes a) (onShaft a).
Definition set_onShaft (a : Assembly) (c : Component.t) : Assembly :=
  mkAssembly (self a) (meshes a) (Some c).

Fixpoint update_nth {A} (i : nat) (f : A -> A) (l : list A) : list A :=
  match l, i with
  | [], _ => []
  | x :: rest, O => f x :: rest
  | x :: rest, S i' => x :: update_nth i' f rest
  end.

Definition update_mesh (i : nat) (f : Mesh.t -> Mesh.t) : M Assembly unit :=
  modify (fun a => mkAssembly (self a) (update_nth i f (meshes a)) (onShaft a)).

(** Run a method of the gear inside the assembly. *)
Definition on_self {A} (m : M Gear.t A) : M Assembly A :=
  fun a => let (g, r) := m (self a) in (set_self a g, r).

(** What [solve] tells on the console, by branch. *)
Inductive outcome : Type :=
| Unconfigured                      (* "No meshes on gear ... to solve." *)
| NothingToSolve                    (* "Nothing to be solved for ..." *)
| NotSolvable                       (* "...'s equilibrium cannot be solved." *)
| TorqueSolved (balanced : bool)    (* "Solving torque equilibrium for ..." *)
| ForcesSolved (balanced : bool)    (* "Solving forces on ... due to mesh ..." *)
| NothingSolved (balanced : bool).  (* unbalanced, yet no unknown was counted *)

(** ** Gear: the equilibrium solver *)

(** [l[i]] with Python's negative indices. *)
Definition getitem {A} (l : list A) (i : Z) : result A :=
  let n := Z.of_nat (List.length l) in
  let j := (if i <? 0 then i + n else i)%Z in
  if ((j <? 0) || (n <=? j))%Z then Err IndexError
  else match nth_error l (Z.to_nat j) with
       | Some v => Ok v
       | None => Err IndexError
       end.

(** [all(np.abs(eq) <= 1e-3 * np.ones(3))]. *)
Definition within_tolerance (eq : vec) : bool :=
  all_le (vabs eq) (vscale 1e-3 ones).

Definition self_abs_loc (g : Gear.t) : result vec :=
  match Component.abs_loc (Gear.comp g) with
  | Some v => Ok v
  | None => Err (AttributeError "abs_loc")
  end.

(** [for EF in self.EFs: acc = step(acc, EF.moment(self.abs_loc, self.axis))];
    [self.abs_loc] is only read when the loop body runs. *)
Definition over_moments (step : vec -> vec -> vec) (g : Gear.t) (acc : vec)
    : result vec :=
  match Gear.EFs g with
  | [] => Ok acc
  | efs =>
      (let? a := self_abs_loc g in
       Ok (fold_left
             (fun acc EF =>
                step acc (Force.moment EF a (Component.axis (Gear.comp g))))
             efs acc))%res
  end.

Definition checkTorqueEquilibrium (g : Gear.t) : result bool :=
  match Gear.EFs g, Gear.ETs g with
  | [], [] => Ok false
  | _, _ =>
      (let eq := fold_left (fun eq ET => vadd eq (Torque.torque ET))
                           (Gear.ETs g) zeros in
       let? eq := over_moments vadd g eq in
       Ok (within_tolerance eq))%res
  end.

Definition shaft_of (a : Assembly) : result Component.t :=
  match onShaft a with
  | Some c => Ok c
  | None => Err (AttributeError "onShaft")
  end.

(** [ET = self.ETs[0].torque; ET -= ...] works on the array held by the
    first torque, so that torque object itself changes.  Another holder
    of the same object, such as the shaft's [ETs], is not followed. *)
Definition set_first_torque (v : vec) (g : Gear.t) : Gear.t :=
  Gear.set_comp g
    (Component.set_ETs (Gear.comp g)
       (update_nth 0 (fun T => Torque.mk v (Torque.loc T)) (Gear.ETs g))).

Section Solver.
Context `{Membership}.

Definition Gear_updateEFs (g : Gear.t) (new : list Force.t) : Gear.t :=
  Gear.set_comp g (Component.updateEFs (Gear.comp g) new).
Definition Gear_updateETs (g : Gear.t) (new : list Torque.t) : Gear.t :=
  Gear.set_comp g (Component.updateETs (Gear.comp g) new).

Definition calculateTorque : M Gear.t unit :=
  fun g =>
    match self_abs_loc g with
    | Err e => (g, Err e)
    | Ok a =>
        let ET := fold_left
                    (fun et EF =>
                       vsub et (Force.moment EF a (Component.axis (Gear.comp g))))
                    (Gear.EFs g) zeros in
        (Gear_updateETs g [Torque.mk ET a], Ok tt)
    end.

(** [-1] for the driving gear of the mesh, [1] otherwise. *)
Definition mesh_sign (g : Gear.t) (mesh : Mesh.t) : R :=
  if String.eqb (Gear.name g) (Gear.name (Mesh.drivingGear mesh)) then -1 else 1.

(** [calculateForces(mesh)]; [mesh] is a position in [self.meshes], or
    [None] as the default argument has it. *)
Definition calculateForces (mesh : option nat) : M Assembly unit :=
  (a <- get ;;
   let g := self a in
   ET0 <- lift (getitem (Gear.ETs g) 0) ;;
   ET <- lift (over_moments vsub g (Torque.torque ET0)) ;;
   on_self (modify (set_first_torque ET)) ;;
   i <- lift (match mesh with
              | Some i => Ok i
              | None => Err (AttributeError "drivingGear")
              end) ;;
   m <- lift (getitem (meshes a) (Z.of_nat i)) ;;
   let sign := mesh_sign g m in
   match Mesh.radiality m with
   | [radiality] =>
       k <- lift (pydiv 2 (Gear.d g)) ;;
       let F_t := vscale 1e3 (cross ET (vscale k radiality)) in
       update_mesh i (fun m => Mesh.set_F_t m (vscale sign F_t)) ;;
       let magF_t := sqrt (vsum (vmul F_t F_t)) in
       c <- lift (pydiv (sign * magF_t * tan (Gear.phi_n g)) (cos (Gear.psi g))) ;;
       let F_r := vscale c radiality in
       update_mesh i (fun m => Mesh.set_F_r m (vscale sign F_r)) ;;
       shaft <- lift (shaft_of a) ;;
       let F_a :=
         vscale (np_sign (vsum (Component.axis shaft)) * np_sign (Gear.psi g))
                (vabs (cross radiality (vscale (tan (Rabs (Gear.psi g))) F_t))) in
       update_mesh i (fun m => Mesh.set_F_a m (vneg F_a)) ;;
       on_self (modify (fun g =>
         Gear_updateEFs g [Force.mk (vadd (vadd F_t F_r) F_a) (Mesh.loc m)])) ;;
       update_mesh i (fun m =>
         Mesh.set_F m (vadd (vadd (Force.force (Mesh.F_t m))
                                  (Force.force (Mesh.F_r m)))
                            (Force.force (Mesh.F_a m))))
   | rads =>
       radiality <- lift (getitem rads (if float_eq sign 1 then 1 else 0)%Z) ;;
       d_av <- on_self (getattr "d_av") ;;
       k <- lift (pydiv 2 d_av) ;;
       let F_t := vscale 1e3 (cross ET (vscale k radiality)) in
       update_mesh i (fun m => Mesh.set_F_t m (vscale sign F_t)) ;;
       let magF_t := sqrt (vsum (vmul F_t F_t)) in
       gamma <- on_self (getattr "gamma") ;;
       let F_r := vscale (sign * magF_t * tan (Gear.phi_n g) * cos gamma)
                         radiality in
       update_mesh i (fun m => Mesh.set_F_r m (vscale sign F_r)) ;;
       let F_a :=
         vscale sign
           (cross radiality
              (vscale (sin gamma) (vscale (tan (Rabs (Gear.phi_n g))) F_t))) in
       update_mesh i (fun m => Mesh.set_F_a m (vneg F_a)) ;;
       on_self (modify (fun g =>
         Gear_updateEFs g [Force.mk (vadd (vadd F_t F_r) F_a) (Mesh.loc m)])) ;;
       update_mesh i (fun m =>
         Mesh.set_F m (vadd (vadd (Force.force (Mesh.F_t m))
                                  (Force.force (Mesh.F_r m)))
                            (Force.force (Mesh.F_a m))))
   end)%py.

(** [all(mesh.F.force == np.zeros(3))]: the mesh force is still unknown. *)
Definition unresolved (mesh : Mesh.t) : bool :=
  all_eq (Force.force (Mesh.F mesh)) zeros.

(** The force a resolved mesh contributes to the gear in [solve]. *)
Definition known_force (g : Gear.t) (mesh : Mesh.t) : Force.t :=
  Force.mk (vscale (mesh_sign g mesh) (Force.force (Mesh.F mesh)))
           (Force.loc (Mesh.F mesh)).

(** The loop [for mesh in self.meshes] of [solve]; [i] is the position of
    the head of [ms] in [self.meshes]. *)
Fixpoint classify (g : Gear.t) (ms : list Mesh.t) (i : nat)
    (unknown_Fs : nat) (unknown_mesh : option nat)
    : Gear.t * nat * option nat :=
  match ms with
  | [] => (g, unknown_Fs, unknown_mesh)
  | mesh :: rest =>
      if unresolved mesh
      then classify g rest (S i) (S unknown_Fs) (Some i)
      else classify (Gear_updateEFs g [known_force g mesh]) rest (S i)
                    unknown_Fs unknown_mesh
  end.

(** [unknown_Ts] as [solve] sets it: one when [self.ETs] is empty. *)
Definition torque_unknowns (g : Gear.t) : nat :=
  match Gear.ETs g with [] => 1 | _ => 0 end.

Definition solve : M Assembly outcome :=
  (a <- get ;;
   match meshes a with
   | [] => ret Unconfigured
   | _ :: _ =>
       balanced <- lift (checkTorqueEquilibrium (self a)) ;;
       if negb balanced then
         let unknown_Ts := torque_unknowns (self a) in
         let '(g, unknown_Fs, unknown_mesh) :=
           classify (self a) (meshes a) 0 0 None in
         modify (fun a => set_self a g) ;;
         if (1 <? unknown_Fs + unknown_Ts)%nat then ret NotSolvable
         else
           said <-
             (if (unknown_Ts =? 1)%nat then
                on_self calculateTorque ;;
                a1 <- get ;;
                shaft <- lift (shaft_of a1) ;;
                modify (fun a =>
                  set_onShaft a (Component.updateETs shaft (Gear.ETs (self a1)))) ;;
                ret TorqueSolved
              else if (unknown_Fs =? 1)%nat then
                calculateForces unknown_mesh ;;
                a1 <- get ;;
                shaft <- lift (shaft_of a1) ;;
                modify (fun a =>
                  set_onShaft a (Component.updateEFs shaft (Gear.EFs (self a1)))) ;;
                ret ForcesSolved
              else ret NothingSolved) ;;
           a2 <- get ;;
           b <- lift (checkTorqueEquilibrium (self a2)) ;;
           ret (said b)
       else ret NothingToSolve
   end)%py.

(** For statements: how many meshes the loop of [solve] counts as unknown,
    and the forces it hands to [updateEFs] on the way, in order. *)
Definition force_unknowns (ms : list Mesh.t) : nat :=
  List.length (filter unresolved ms).

Definition known_forces (g : Gear.t) (ms : list Mesh.t) : list Force.t :=
  map (known_force g) (filter (fun mesh => negb (unresolved mesh)) ms).
End Solver.

(** ** Gear: bending safety factor *)

(** What numpy hands back: a scalar ([np.float64]) or a 1-D array.  Only
    the array can be indexed. *)
Inductive ndvalue : Type :=
| Scalar (v : R)
| Array (l : list R).

(** [v[0]]. *)
Definition getitem0 (v : ndvalue) : result R :=
  match v with
  | Scalar _ => Err IndexError
  | Array l => getitem l 0
  end.

(** Number of leading elements that satisfy [p]. *)
Fixpoint leading {A} (p : A -> bool) (l : list A) : nat :=
  match l with
  | [] => 0
  | a :: rest => if p a then S (leading p rest) else 0
  end.

(** [np.interp(x, xp, fp)] at a scalar [x], the way numpy evaluates it on
    a table of at most eight points: the two out-of-range tests come
    first ([x > xp[-1]] gives [fp[-1]], [x < xp[0]] gives [fp[0]]), then
    a scan [for (i = 1; i < len && x >= xp[i]; ++i)] picks the segment
    [j = i - 1].  numpy does not check that [xp] increases. *)
Definition np_interp (x : R) (xp fp : list R) : R :=
  let len := List.length xp in
  if float_lt (nth (len - 1) xp 0) x then nth (len - 1) fp 0
  else if float_lt x (nth 0 xp 0) then nth 0 fp 0
  else
    let j := leading (fun a => float_le a x) (tl xp) in
    if (j =? len - 1)%nat then nth j fp 0
    else if float_eq (nth j xp 0) x then nth j fp 0
    else
      let slope := (nth (S j) fp 0 - nth j fp 0) / (nth (S j) xp 0 - nth j xp 0) in
      slope * (x - nth j xp 0) + nth j fp 0.

(** [ys[np.where(xs == x)]]. *)
Definition where_eq (x : R) (xs ys : list R) : list R :=
  map snd (filter (fun p => float_eq (fst p) x) (combine xs ys)).

Definition rel_ref : list R := [0.9999; 0.999; 0.99; 0.9; 0.5].
Definition YZ_ref : list R := [1.5; 1.25; 1; 0.85; 0.7].

(** [N ** e] on Python numbers, read in the reals.  A positive base is
    raised to any exponent; [x ** 0] is [1] for every [x]; a zero base
    gives [0] for a positive exponent and raises [ZeroDivisionError] for a
    negative one; a negative base is raised to a whole exponent as a real
    number, and to any other exponent Python 3 answers with a complex
    number ([ComplexValue]).  Overflow is outside the model, as rounding
    is. *)
Definition pypow (N e : R) : result R :=
  if float_lt 0 N then Ok (Rpower N e)
  else if float_eq e 0 then Ok 1
  else if float_eq N 0
       then (if float_lt e 0 then Err ZeroDivisionError else Ok 0)
       else if float_eq e (IZR (Int_part e))
            then Ok (powerRZ N (Int_part e))
            else Err ComplexValue.

(** [calculateBendingSF]; [rel] is a number, as the default [rel=0] is.
    The closing quotient divides by [sigma_max_fatigue], a numpy value, so
    none of its divisions raises. *)
Definition calculateBendingSF (sigma_FP b_YN e_YN N temp rel : R)
    : M Gear.t unit :=
  (setattr "sigma_FP" sigma_FP ;;
   p <- lift (pypow N e_YN) ;;
   setattr "Y_N" (b_YN * p) ;;
   (if float_le temp 120 then setattr "Y_theta" 1 else ret tt) ;;
   Y_Z <- lift (if contains float_eq rel_ref rel
                then getitem0 (Array (where_eq rel rel_ref YZ_ref))
                else getitem0 (Scalar (np_interp rel rel_ref YZ_ref))) ;;
   setattr "Y_Z" Y_Z ;;
   sigma_FP <- getattr "sigma_FP" ;;
   Y_N <- getattr "Y_N" ;;
   sigma_max_fatigue <- getattr "sigma_max_fatigue" ;;
   Y_theta <- getattr "Y_theta" ;;
   Y_Z <- getattr "Y_Z" ;;
   setattr "bendingSF" (sigma_FP * Y_N / sigma_max_fatigue / Y_theta / Y_Z))%py.

(** ** Gear: maximum contact stress *)

Definition ZE_ref : list (list R) :=
  [[191; 181; 179; 174; 162; 158];
   [181; 174; 172; 168; 158; 154];
   [179; 172; 170; 166; 156; 152];
   [174; 168; 166; 163; 154; 149];
   [162; 158; 156; 154; 145; 141];
   [158; 154; 152; 149; 141; 137]].

(** [gear.material.name]; the constructor's default material is [None]. *)
Definition material_name (g : Gear.t) : result string :=
  match Component.material (Gear.comp g) with
  | Some m => Ok (Material.name m)
  | None => Err (AttributeError "name")
  end.

(** The [if]/[elif] chain over the six material names, one-based. *)
Definition material_index (name : string) : option nat :=
  if String.eqb name "Steel" then Some 1%nat
  else if String.eqb name "Malleable iron" then Some 2%nat
  else if String.eqb name "Nodular iron" then Some 3%nat
  else if String.eqb name "Cast iron" then Some 4%nat
  else if String.eqb name "Aluminum bronze" then Some 5%nat
  else if String.eqb name "Tin bronze" then Some 6%nat
  else None.

Definition index_or (msg : string) (name : string) : result nat :=
  match material_index name with
  | Some i => Ok i
  | None => Err (ValueError msg)
  end.

(** [calculateSigmaMaxPitting].  The quotients for [m_N] and [Z_I] are
    between Python floats; the closing one is under [np.sum] and
    [np.sqrt]. *)
Definition calculateSigmaMaxPitting (mesh : Mesh.t) (Z_R : R) : M Gear.t unit :=
  (pname <- lift (material_name (Mesh.drivingGear mesh)) ;;
   i <- lift (index_or "Wrong input for pinion material." pname) ;;
   gname <- lift (material_name (Mesh.drivenGear mesh)) ;;
   j <- lift (index_or "Wrong input for gear material." gname) ;;
   setattr "Z_E" (nth (j - 1) (nth (i - 1) ZE_ref []) 0) ;;
   g <- get ;;
   let pG := Mesh.drivingGear mesh in
   let gG := Mesh.drivenGear mesh in
   let f1_ZA := sqrt ((Gear.d pG / 2) ^ 2 + Gear.h_a pG ^ 2) in
   let f2_Z := (Gear.d pG + Gear.d gG) * sin (Gear.phi_t g) / 2 in
   let Z_A := Rmin f1_ZA f2_Z in
   let f1_ZB := sqrt ((Gear.d gG / 2) ^ 2 + Gear.h_a gG ^ 2) in
   let Z_B := Rmin f1_ZB f2_Z in
   let Z := Z_A + Z_B - f2_Z in
   m_N <- lift (pydiv (Gear.p_n g * cos (Gear.phi_n g) / 0.95) Z) ;;
   setattr "m_N" m_N ;;
   (if String.eqb (Mesh.type mesh) "External" then
      m_N <- getattr "m_N" ;;
      q <- lift (pydiv (cos (Gear.phi_t g) * sin (Gear.phi_t g) * Mesh.m_G mesh / 2)
                       m_N) ;;
      Z_I <- lift (pydiv q (Mesh.m_G mesh + 1)) ;;
      setattr "Z_I" Z_I
    else if String.eqb (Mesh.type mesh) "Internal" then
      m_N <- getattr "m_N" ;;
      q <- lift (pydiv (cos (Gear.phi_t g) * sin (Gear.phi_t g) * Mesh.m_G mesh / 2)
                       m_N) ;;
      Z_I <- lift (pydiv q (Mesh.m_G mesh - 1)) ;;
      setattr "Z_I" Z_I
    else raise (ValueError "Gear mesh type invalid.")) ;;
   Z_E <- getattr "Z_E" ;;
   K_0 <- getattr "K_0" ;;
   K_v <- getattr "K_v" ;;
   K_S <- getattr "K_S" ;;
   K_H <- getattr "K_H" ;;
   Z_I <- getattr "Z_I" ;;
   setattr "sigma_max_pitting"
     (Z_E * sqrt (vsum (vabs (Force.force (Mesh.F_t mesh)))
                  * K_0 * K_v * K_S * K_H * Z_R / Gear.FW g / Gear.d g / Z_I)))%py.

(** The expressions [Z] and [self.m_N] of [calculateSigmaMaxPitting], for
    reference in statements. *)
Definition contact_length (g : Gear.t) (mesh : Mesh.t) : R :=
  let pG := Mesh.drivingGear mesh in
  let gG := Mesh.drivenGear mesh in
  let f2_Z := (Gear.d pG + Gear.d gG) * sin (Gear.phi_t g) / 2 in
  Rmin (sqrt ((Gear.d pG / 2) ^ 2 + Gear.h_a pG ^ 2)) f2_Z
  + Rmin (sqrt ((Gear.d gG / 2) ^ 2 + Gear.h_a gG ^ 2)) f2_Z
  - f2_Z.

Definition load_sharing_ratio (g : Gear.t) (mesh : Mesh.t) : R :=
  Gear.p_n g * cos (Gear.phi_n g) / 0.95 / contact_length g mesh.

(** The gear carries a material whose name is one of the six. *)
Definition listed_material (g : Gear.t) : Prop :=
  exists m i,
    Component.material (Gear.comp g) = Some m
    /\ material_index (Material.name m) = Some i.

(** ** The two-pass interpolator *)

Fixpoint map_result {A B} (f : A -> result B) (l : list A) : result (list B) :=
  match l with
  | [] => Ok []
  | a :: rest =>
      (let? b := f a in
       let? bs := map_result f rest in
       Ok (b :: bs))%res
  end.

Module Makima2DInterpolator.
Record t : Type := mk { x : list R; y : list R; z : list (list R) }.

(** [__init__]: the table must have one row per [y] sample and one column
    per [x] sample. *)
Definition init (x y : list R) (z : list (list R)) : result t :=
  if ((List.length z =? List.length y)
      && forallb (fun row => List.length row =? List.length x) z)%nat
  then Ok (mk x y z)
  else Err (ValueError "Z shape must be (len(y), len(x))").

(** The closure [extrap] that [_akima_with_extrapolation] returns, given
    the interpolant [akima] it was built around.  [x] and [y_vals] are
    numpy arrays, so the slopes are numpy quotients. *)
Definition extrap (x y_vals : list R) (akima : R -> R) (xq : R) : result R :=
  (let result := akima xq in
   let? x0 := getitem x 0 in
   let? result :=
     (if float_lt xq x0 then
        let? y1 := getitem y_vals 1 in
        let? y0 := getitem y_vals 0 in
        let? x1 := getitem x 1 in
        let slope := (y1 - y0) / (x1 - x0) in
        Ok (y0 + slope * (xq - x0))
      else Ok result) in
   let? xl := getitem x (-1) in
   if float_lt xl xq then
     let? yl := getitem y_vals (-1) in
     let? yl' := getitem y_vals (-2) in
     let? xl' := getitem x (-2) in
     let slope := (yl - yl') / (xl - xl') in
     Ok (yl + slope * (xq - xl))
   else Ok result)%res.

Section WithAkima.
(** [scipy.interpolate.Akima1DInterpolator(x, y)]: the constructor may
    reject its arguments; the interpolant it returns is a function of
    the query. *)
Variable Akima1DInterpolator : list R -> list R -> result (R -> R).

Definition akima_with_extrapolation (x y_vals : list R)
    : result (R -> result R) :=
  (let? akima := Akima1DInterpolator x y_vals in
   Ok (extrap x y_vals akima))%res.

(** [__call__]: along [x] for every row, then along [y]. *)
Definition call (s : t) (xq yq : R) : result R :=
  (let? intermediate :=
     map_result (fun row =>
                   let? interp := akima_with_extrapolation (x s) row in
                   interp xq)
                (z s) in
   let? interp_final := akima_with_extrapolation (y s) intermediate in
   interp_final yq)%res.
End WithAkima.
End Makima2DInterpolator.

(** ** Gear: wear safety factor and the pitting analysis *)

(** [gear.material.HB]. *)
Definition material_HB (g : Gear.t) : result R :=
  match Component.material (Gear.comp g) with
  | Some m => Ok (Material.HB m)
  | None => Err (AttributeError "HB")
  end.

(** The local [A_p] of [calculateWearSF]. *)
Definition hardness_coefficient (HB_ratio : R) : R :=
  if float_lt HB_ratio 1.2 then 0
  else if float_le 1.2 HB_ratio && float_le HB_ratio 1.7
       then (8.98 * HB_ratio - 8.29) * 1e-3
       else 0.00698.

(** [calculateWearSF].  The hardness ratio is a quotient of two Python
    numbers; the closing quotient divides by [sigma_max_pitting], a numpy
    value. *)
Definition calculateWearSF (sigma_HP b_ZN e_ZN N : R) (mesh : Mesh.t)
    : M Gear.t unit :=
  (setattr "sigma_HP" sigma_HP ;;
   p <- lift (pypow N e_ZN) ;;
   setattr "Z_N" (b_ZN * p) ;;
   HB_p <- lift (material_HB (Mesh.drivingGear mesh)) ;;
   HB_g <- lift (material_HB (Mesh.drivenGear mesh)) ;;
   HB_ratio <- lift (pydiv HB_p HB_g) ;;
   let A_p := hardness_coefficient HB_ratio in
   setattr "Z_W" (1 + A_p * (Mesh.m_G mesh - 1)) ;;
   sigma_HP <- getattr "sigma_HP" ;;
   Z_N <- getattr "Z_N" ;;
   Z_W <- getattr "Z_W" ;;
   sigma_max_pitting <- getattr "sigma_max_pitting" ;;
   Y_theta <- getattr "Y_theta" ;;
   Y_Z <- getattr "Y_Z" ;;
   setattr "wearSF" (sigma_HP * Z_N * Z_W / sigma_max_pitting / Y_theta / Y_Z))%py.

(** [analyseGearToothPitting]: the stress, then the safety factor; the
    two attributes it prints are read after the method that assigns
    them. *)
Definition analyseGearToothPitting (mesh : Mesh.t)
    (Z_R sigma_HP b_ZN e_ZN N : R) : M Gear.t unit :=
  (calculateSigmaMaxPitting mesh Z_R ;;
   _ <- getattr "sigma_max_pitting" ;;
   calculateWearSF sigma_HP b_ZN e_ZN N mesh ;;
   _ <- getattr "wearSF" ;;
   ret tt)%py.

(** ** Gear: maximum bending stress and the bending analysis *)

(** [math.log] and [math.sqrt] refuse what lies outside their domain. *)
Definition pylog (x : R) : result R :=
  if float_le x 0 then Err (ValueError "math domain error") else Ok (ln x).
Definition pysqrt (x : R) : result R :=
  if float_lt x 0 then Err (ValueError "math domain error") else Ok (sqrt x).

Definition K0_ref : list (list R) :=
  [[1; 1.25; 1.75]; [1.25; 1.5; 2]; [1.5; 1.75; 2.25]].

(** [np.concatenate((np.arange(12, 23, 1), np.arange(24, 31, 2), ...))]. *)
Definition z_ref : list R :=
  [12; 13; 14; 15; 16; 17; 18; 19; 20; 21; 22; 24; 26; 28; 30;
   34; 38; 43; 50; 60; 75; 100; 150; 300; 400].

Definition Y_ref : list R :=
  [0.245; 0.261; 0.277; 0.29; 0.296; 0.303; 0.309; 0.314; 0.322; 0.328;
   0.331; 0.337; 0.346; 0.353; 0.359; 0.371; 0.384; 0.397; 0.409; 0.422;
   0.435; 0.447; 0.46; 0.472; 0.48].

(** [np.arange(5, 35, 1)]. *)
Definition psi_Jp_ref : list R :=
  [5; 6; 7; 8; 9; 10; 11; 12; 13; 14; 15; 16; 17; 18; 19; 20; 21; 22; 23; 24;
   25; 26; 27; 28; 29; 30; 31; 32; 33; 34].
Definition z_Jp_ref : list R := [20; 30; 60; 150; 500].

Definition Jp_ref : list (list R) :=
  [[0.465; 0.475; 0.48; 0.487; 0.492; 0.495; 0.497; 0.5; 0.502; 0.505;
    0.506; 0.507; 0.508; 0.507; 0.506; 0.505; 0.502; 0.5; 0.497; 0.494;
    0.49; 0.486; 0.48; 0.476; 0.471; 0.465; 0.458; 0.452; 0.445; 0.439];
   [0.525; 0.53; 0.535; 0.54; 0.542; 0.547; 0.55; 0.552; 0.553; 0.554;
    0.555; 0.556; 0.555; 0.554; 0.552; 0.551; 0.549; 0.545; 0.54; 0.537;
    0.532; 0.527; 0.52; 0.515; 0.507; 0.5; 0.492; 0.484; 0.476; 0.47];
   [0.58; 0.585; 0.595; 0.6; 0.602; 0.605; 0.61; 0.612; 0.614; 0.615;
    0.615; 0.615; 0.614; 0.611; 0.608; 0.605; 0.6; 0.595; 0.59; 0.582;
    0.577; 0.571; 0.56; 0.555; 0.545; 0.537; 0.527; 0.517; 0.507; 0.495];
   [0.62; 0.63; 0.635; 0.64; 0.645; 0.647; 0.652; 0.655; 0.657; 0.657;
    0.656; 0.655; 0.654; 0.65; 0.645; 0.64; 0.635; 0.63; 0.622; 0.617;
    0.61; 0.6; 0.592; 0.582; 0.575; 0.56; 0.552; 0.541; 0.53; 0.518];
   [0.65; 0.655; 0.66; 0.665; 0.67; 0.675; 0.677; 0.68; 0.681; 0.681;
    0.681; 0.681; 0.679; 0.676; 0.673; 0.667; 0.66; 0.655; 0.647; 0.64;
    0.631; 0.62; 0.613; 0.602; 0.592; 0.58; 0.57; 0.557; 0.545; 0.532]].

(** [np.arange(5, 36, 5)]. *)
Definition psi_Jpp_ref : list R := [5; 10; 15; 20; 25; 30; 35].
Definition z_Jpp_ref : list R := [20; 30; 50; 75; 150; 500].

Definition Jpp_ref : list (list R) :=
  [[0.927; 0.929; 0.93; 0.932; 0.938; 0.943; 0.953];
   [0.952; 0.954; 0.957; 0.959; 0.961; 0.965; 0.973];
   [0.98; 0.981; 0.981; 0.982; 0.983; 0.987; 0.992];
   [1; 1; 1; 1; 1; 1; 1];
   [1.02; 1.02; 1.02; 1.019; 1.017; 1.013; 1.01];
   [1.038; 1.037; 1.035; 1.032; 1.03; 1.026; 1.02]].

(** The two [if]/[elif] chains in front of the overload factor,
    one-based. *)
Definition power_source_index (s : string) : option nat :=
  if String.eqb s "Uniform" then Some 1%nat
  else if String.eqb s "Light shock" then Some 2%nat
  else if String.eqb s "Medium shock" then Some 3%nat
  else None.

Definition driven_machine_index (s : string) : option nat :=
  if String.eqb s "Uniform" then Some 1%nat
  else if String.eqb s "Moderate shock" then Some 2%nat
  else if String.eqb s "Heavy shock" then Some 3%nat
  else None.

Definition category (msg : string) (i : option nat) : result nat :=
  match i with
  | Some i => Ok i
  | None => Err (ValueError msg)
  end.

(** The coefficients [A], [B], [C] chosen by the use condition. *)
Definition enclosure (useCond : string) : option (R * R * R) :=
  if String.eqb useCond "Open gearing"
  then Some (0.247, 0.0167, -0.765 * 1e-4)
  else if String.eqb useCond "Commercial, enclosed units"
  then Some (0.127, 0.0158, -0.93 * 1e-4)
  else if String.eqb useCond "Precision, enclosed units"
  then Some (0.0675, 0.0128, -0.926 * 1e-4)
  else if String.eqb useCond "Extraprecision enclosed gear units"
  then Some (0.0036, 0.0102, -0.822 * 1e-4)
  else None.

Section Bending.
(** [scipy.interpolate.Akima1DInterpolator], as for the interpolator. *)
Variable Akima1DInterpolator : list R -> list R -> result (R -> R).

(** [Makima2DInterpolator(x, y, z)(xq, yq)]. *)
Definition chart (x y : list R) (z : list (list R)) (xq yq : R) : result R :=
  (let? interp := Makima2DInterpolator.init x y z in
   Makima2DInterpolator.call Akima1DInterpolator interp xq yq)%res.

(** [calculateSigmaMaxFatigue].  [rel_loc] stands for the attribute
    [self.rel_loc], which no code among the sources assigns: [None] when
    the gear does not have it.  Quotients of Python floats are [pydiv].
    [S1], the closing stress and the interpolated values are numpy's:
    [S1 / lShaft] does not raise, and with [lShaft == 0] it is [inf] or
    [nan], for which the test [< 0.175] is false.  The three powers
    are between Python floats ([pypow]); on the increasing table [z_ref]
    numpy bisects to the segment that the scan of [np_interp] finds. *)
Definition calculateSigmaMaxFatigue (mesh : Mesh.t)
    (powerSource drivenMachine : string) (dShaft Ce : R) (teethCond : string)
    (lShaft : R) (useCond : string) (rel_loc : option vec) : M Gear.t unit :=
  (let fw_min :=
     Rmin (Gear.FW (Mesh.drivingGear mesh)) (Gear.FW (Mesh.drivenGear mesh)) in
   i <- lift (category "Wrong input for power source"
                       (power_source_index powerSource)) ;;
   j <- lift (category "Wrong input for driven machine"
                       (driven_machine_index drivenMachine)) ;;
   setattr "K_0" (nth (j - 1) (nth (i - 1) K0_ref []) 0) ;;
   g <- get ;;
   let t_R := (Gear.d_f g - dShaft) / 2 in
   setattr "t_R" t_R ;;
   m_B <- lift (pydiv t_R (Gear.h g)) ;;
   setattr "m_B" m_B ;;
   (if float_lt m_B 1.2 then
      q <- lift (pydiv 2.242 m_B) ;;
      l <- lift (pylog q) ;;
      setattr "K_B" (1.6 * l)
    else setattr "K_B" 1) ;;
   let v := vsum (vabs (Component.omega (Gear.comp g))) * Gear.d g * 1e-3 in
   p <- lift (pypow (12 - Gear.Q_v g) (2 / 3)) ;;
   let B := 0.25 * p in
   let A := 50 + 56 * (1 - B) in
   root <- lift (pysqrt (200 * v)) ;;
   q <- lift (pydiv (A + root) A) ;;
   K_v <- lift (pypow q B) ;;
   setattr "K_v" K_v ;;
   setattr "C_e" Ce ;;
   (if String.eqb teethCond "uncrowned teeth" then setattr "C_mc" 1
    else if String.eqb teethCond "crowned teeth" then setattr "C_mc" 0.8
    else raise (ValueError "Invalid input for teeth condition.")) ;;
   across <- lift (pydiv (fw_min / 10) (Gear.d g)) ;;
   setattr "C_pf"
     (if float_le (fw_min / 25.4) 1 then across - 0.025
      else if float_lt 1 (fw_min / 25.4) && float_le (fw_min / 25.4) 17
           then across - 0.0375 + 0.0125 * fw_min / 25.4
           else across - 0.1109 + 0.0207 * fw_min / 25.4
                - 0.000228 * (fw_min / 25.4) ^ 2) ;;
   rel_loc <- lift (match rel_loc with
                    | Some v => Ok v
                    | None => Err (AttributeError "rel_loc")
                    end) ;;
   let S1 := Rabs (lShaft / 2 - vsum (vabs rel_loc)) in
   setattr "C_pm"
     (if negb (float_eq lShaft 0) && float_lt (S1 / lShaft) 0.175
      then 1 else 1.1) ;;
   abc <- lift (match enclosure useCond with
                | Some abc => Ok abc
                | None => Err (ValueError "wrong input for use.")
                end) ;;
   let '(A, B, C) := abc in
   setattr "C_ma" (A + B * fw_min / 25.4 + C * (fw_min / 25.4) ^ 2) ;;
   C_mc <- getattr "C_mc" ;;
   C_pf <- getattr "C_pf" ;;
   C_pm <- getattr "C_pm" ;;
   C_ma <- getattr "C_ma" ;;
   C_e <- getattr "C_e" ;;
   setattr "K_H" (1 + C_mc * (C_pf * C_pm + C_ma * C_e)) ;;
   let Y := np_interp (IZR (Gear.z_p g)) z_ref Y_ref in
   setattr "Y" Y ;;
   rootY <- lift (pysqrt Y) ;;
   p <- lift (pypow (fw_min * Gear.m_t g * rootY) 0.0535) ;;
   setattr "K_S" (0.843 * p) ;;
   J_p <- lift (chart psi_Jp_ref z_Jp_ref Jp_ref
                      (Rabs (Gear.psi g * 180 / PI)) (Gear.z g)) ;;
   setattr "J_p" J_p ;;
   J_pp <- lift (chart psi_Jpp_ref z_Jpp_ref Jpp_ref
                       (Rabs (Gear.psi g * 180 / PI)) (Gear.z g)) ;;
   setattr "J_pp" J_pp ;;
   setattr "Y_J" (J_p * J_pp) ;;
   K_0 <- getattr "K_0" ;;
   K_B <- getattr "K_B" ;;
   K_v <- getattr "K_v" ;;
   K_H <- getattr "K_H" ;;
   K_S <- getattr "K_S" ;;
   Y_J <- getattr "Y_J" ;;
   setattr "sigma_max_fatigue"
     (vsum (vabs (Force.force (Mesh.F_t mesh))) * K_0 * K_B * K_v * K_H * K_S
      / fw_min / Gear.m_t g / Y_J))%py.

(** [analyseGearToothBending]: the stress, then the safety factor; the
    two attributes it prints are read after the method that assigns
    them. *)
Definition analyseGearToothBending (mesh : Mesh.t)
    (powerSource drivenMachine : string) (dShaft Ce : R) (teethCond : string)
    (lShaft : R) (useCond : string) (rel_loc : option vec)
    (sigma_FP b_YN e_YN N temp rel : R) : M Gear.t unit :=
  (calculateSigmaMaxFatigue mesh powerSource drivenMachine dShaft Ce teethCond
                            lShaft useCond rel_loc ;;
   _ <- getattr "sigma_max_fatigue" ;;
   calculateBendingSF sigma_FP b_YN e_YN N temp rel ;;
   _ <- getattr "bendingSF" ;;
   ret tt)%py.
End Bending.

(** ** InputMotor *)

Module InputMotor.
(** The fields of the old top-level [Component] that [InputMotor]
    keeps, and its own. *)
Record t : Type := mk {
  name : string;
  axis : vec;
  loc : vec;
  power : R;
  n : R;
  omega : vec;
  T_tot : Torque.t;
  F_tot : Force.t
}.

(** [0 if o == 0 else self.power / o]. *)
Definition torque_about (power o : R) : R :=
  if float_eq o 0 then 0 else power / o.

(** [InputMotor.__init__]; [axis] is a numpy array, so [omega] is one
    too and the quotient is numpy's. *)
Definition init (name : string) (power n : R) (axis loc : vec) : t :=
  let omega := vscale (n * PI / 30) axis in
  mk name axis loc power n omega
     (Torque.mk (mkvec (torque_about power (vx omega))
                       (torque_about power (vy omega))
                       (torque_about power (vz omega))) loc)
     (Force.mk zeros loc).
End InputMotor.

(** ** Notions used in statements *)

(** No element of the array is found, by the membership test, among the
    elements stored before it. *)
Definition distinct {A} (eqb : A -> A -> bool) (arr : list A) : Prop :=
  forall before e after,
    arr = before ++ e :: after -> contains eqb before e = false.

Definition dot (a b : vec) : R := vx a * vx b + vy a * vy b + vz a * vz b.

(** The mesh seen from the other side: the two gears exchanged. *)
Definition swapped (mesh : Mesh.t) : Mesh.t :=
  Mesh.mk (Mesh.name mesh) (Mesh.drivenGear mesh) (Mesh.drivingGear mesh)
          (Mesh.F_t mesh) (Mesh.F_r mesh) (Mesh.F_a mesh) (Mesh.F mesh)
          (Mesh.radiality mesh) (Mesh.loc mesh) (Mesh.type mesh)
          (Mesh.m_G mesh).

(** A method keeps [P]: from a state in [P] it ends, with or without an
    exception, in a state in [P]. *)
Definition preserves {S A} (P : S -> Prop) (m : M S A) : Prop :=
  forall s, P s -> P (fst (m s)).

(** A method never returns from a state in [P]: it ends in an exception,
    and still in [P]. *)
Definition never_returns {S A} (P : S -> Prop) (m : M S A) : Prop :=
  forall s, P s -> P (fst (m s)) /\ exists e, snd (m s) = Err e.




(** A method that returns has reached [Q]. *)
Definition returns_in {S A} (Q : S -> Prop) (m : M S A) : Prop :=
  forall s x, snd (m s) = Ok x -> Q (fst (m s)).

(** Two views of one gear that differ at most in the attributes assigned
    after construction. *)
Definition same_gear_but_attrs (g g' : Gear.t) : Prop :=
  g' = Gear.set_attrs g (Gear.attrs g').

(** Every attribute of [g] is still an attribute of [g']. *)
Definition keeps_attrs (g g' : Gear.t) : Prop :=
  forall key, lookup key (Gear.attrs g) <> None ->
              lookup key (Gear.attrs g') <> None.

(** ** Sample objects *)

(** A force of 5 N along [-x], applied at the origin. *)
Definition pull_back : Force.t := Force.mk (mkvec (-5) 0 0) zeros.

Definition pulled_component : Component.t :=
  Component.set_EFs (Component.init "shaft" None (mkvec 0 0 1) zeros) [pull_back].

(** A spur gear as [Gear.__init__] leaves it for [m_n = 2], [z = 20],
    [psi = 0], [phi_n = 0], on the [z] axis. *)
Definition spur_gear (name : string) : Gear.t :=
  Gear.mk (Component.init name None (mkvec 0 0 1) zeros)
          2 20 0 0 6 10 (2 * PI) (2 * PI) 0 2 40 0 20%Z 0 2 2.5 4.5 44 35 [].

Definition lone_gear : Assembly := mkAssembly (spur_gear "G1") [] None.

(** A gear without torque between two meshes: the first still
    unresolved, the second carrying 1 N along [x] and driven by another
    gear. *)
Definition resolved_mesh : Mesh.t :=
  Mesh.mk "M2" (spur_gear "G2") (spur_gear "G1")
          (Force.mk zeros zeros) (Force.mk zeros zeros) (Force.mk zeros zeros)
          (Force.mk (mkvec 1 0 0) zeros) [mkvec 0 1 0] zeros "External" 1.

Definition open_mesh : Mesh.t :=
  Mesh.mk "M1" (spur_gear "G1") (spur_gear "G3")
          (Force.mk zeros zeros) (Force.mk zeros zeros) (Force.mk zeros zeros)
          (Force.mk zeros zeros) [mkvec 0 1 0] zeros "External" 1.

Definition idle_between : Assembly :=
  mkAssembly (spur_gear "G1") [open_mesh; resolved_mesh] None.

(** The same gear between two unresolved meshes. *)
Definition idle_between_open : Assembly :=
  mkAssembly (spur_gear "G1") [open_mesh; open_mesh] None.

(** The gear "G1" carrying 1 Nm about [z], mounted on a shaft along [z],
    and driving the unresolved mesh "M1". *)
Definition z_shaft : Component.t :=
  Component.init "S1" None (mkvec 0 0 1) zeros.

Definition driving_pinion : Assembly :=
  mkAssembly
    (Gear.set_comp (spur_gear "G1")
       (Component.set_ETs (Gear.comp (spur_gear "G1"))
          [Torque.mk (mkvec 0 0 1) zeros]))
    [open_mesh] (Some z_shaft).

(** The same gear once a bending stress of 100 MPa has been stored. *)
Definition stressed_gear : Gear.t :=
  Gear.set_attrs (spur_gear "G1") [("sigma_max_fatigue"%string, 100)].

(** A steel pinion of 20 teeth and a steel wheel of 60 teeth, module 2,
    pressure angle 30 degrees, no helix, and the mesh between them. *)
Definition steel : Material.t := Material.mk "Steel" 200.

Definition steel_gear (name : string) (z : R) (z_p : Z) : Gear.t :=
  Gear.mk (Component.mk name (Some steel) (mkvec 0 0 1) zeros [] [] zeros None)
          2 z 0 (PI / 6) 6 10 (2 * PI) (2 * PI) 0 2 (2 * z) (PI / 6) z_p 0
          2 2.5 4.5 (2 * z + 4) (2 * z - 5) [].

Definition pinion : Gear.t := steel_gear "pinion" 20 20.
Definition wheel : Gear.t := steel_gear "wheel" 60 60.

Definition pair (type : string) : Mesh.t :=
  Mesh.mk "M1" pinion wheel
          (Force.mk zeros zeros) (Force.mk zeros zeros) (Force.mk zeros zeros)
          (Force.mk zeros zeros) [mkvec 0 1 0] zeros type 3.

(** A stand-in for the cubic interpolant. *)
Definition flat_interpolant (x y_vals : list R) : result (R -> R) :=
  Ok (fun _ => 0).

(** The gear "G1" under a single torque that is zero, next to the
    unresolved mesh "M1". *)
Definition resting : Assembly :=
  mkAssembly
    (Gear.set_comp (spur_gear "G1")
       (Component.set_ETs (Gear.comp (spur_gear "G1"))
          [Torque.mk zeros zeros]))
    [open_mesh] None.

(** The gear "G1" mounted at the origin of the shaft "S1", without torque,
    next to the resolved mesh "M2". *)
Definition mounted_gear : Gear.t :=
  Gear.set_comp (spur_gear "G1")
    (Component.mk "G1" None (mkvec 0 0 1) zeros [] [] zeros (Some zeros)).

Definition loaded_idler : Assembly :=
  mkAssembly mounted_gear [resolved_mesh] (Some z_shaft).



(** The pair with a pinion of a material that is not on the list. *)
Definition brass_pinion : Gear.t :=
  Gear.set_comp pinion
    (Component.mk "pinion" (Some (Material.mk "Brass" 120)) (mkvec 0 0 1)
                  zeros [] [] zeros None).

Definition brass_pair : Mesh.t :=
  Mesh.mk "M1" brass_pinion wheel
          (Force.mk zeros zeros) (Force.mk zeros zeros) (Force.mk zeros zeros)
          (Force.mk zeros zeros) [mkvec 0 1 0] zeros "External" 3.

(** The pinion once a contact stress of 500 MPa has been stored, and
    once, besides, the bending pass has left its [Y_theta] and [Y_Z]. *)
Definition pitted_pinion : Gear.t :=
  Gear.set_attrs pinion [("sigma_max_pitting"%string, 500)].


(** The pinion with the six factors a bending analysis leaves behind, all
    set to 1. *)
Definition ready_pinion : Gear.t :=
  Gear.set_attrs pinion
    [("K_0"%string, 1); ("K_v"%string, 1); ("K_S"%string, 1);
     ("K_H"%string, 1); ("Y_theta"%string, 1); ("Y_Z"%string, 1)].

(** The external pair under a tangential force of 100 N. *)
Definition loaded_pair : Mesh.t :=
  Mesh.mk "M1" pinion wheel
          (Force.mk (mkvec 100 0 0) zeros) (Force.mk zeros zeros)
          (Force.mk zeros zeros) (Force.mk zeros zeros)
          [mkvec 0 1 0] zeros "External" 3.

(** * Properties *)

(** ** Reading the boolean tests *)

Lemma float_le_true (a b : R) : float_le a b = true <-> a <= b.
Proof. unfold float_le. destruct (Rle_dec a b); split; intros; try discriminate; auto; lra. Qed.

Lemma float_lt_true (a b : R) : float_lt a b = true <-> a < b.
Proof. unfold float_lt. destruct (Rlt_dec a b); split; intros; try discriminate; auto; lra. Qed.

Lemma float_eq_true (a b : R) : float_eq a b = true <-> a = b.
Proof. unfold float_eq. destruct (Req_dec_T a b); split; intros; try discriminate; auto; lra. Qed.

Lemma float_le_false (a b : R) : float_le a b = false <-> b < a.
Proof. unfold float_le. destruct (Rle_dec a b); split; intros; try discriminate; auto; lra. Qed.

Lemma float_lt_false (a b : R) : float_lt a b = false <-> b <= a.
Proof. unfold float_lt. destruct (Rlt_dec a b); split; intros; try discriminate; auto; lra. Qed.

Lemma float_eq_false (a b : R) : float_eq a b = false <-> a <> b.
Proof. unfold float_eq. destruct (Req_dec_T a b); split; intros; try discriminate; auto; lra. Qed.

(** Decide a comparison between two numerals. *)
Ltac float_step :=
  match goal with
  | |- context [float_le ?a ?b] =>
      first [ replace (float_le a b) with true
                by (symmetry; apply float_le_true; lra)
            | replace (float_le a b) with false
                by (symmetry; apply float_le_false; lra) ]
  | |- context [float_lt ?a ?b] =>
      first [ replace (float_lt a b) with true
                by (symmetry; apply float_lt_true; lra)
            | replace (float_lt a b) with false
                by (symmetry; apply float_lt_false; lra) ]
  | |- context [float_eq ?a ?b] =>
      first [ replace (float_eq a b) with true
                by (symmetry; apply float_eq_true; lra)
            | replace (float_eq a b) with false
                by (symmetry; apply float_eq_false; lra) ]
  end.
Ltac float_decide := repeat (float_step; cbn [andb orb negb]).

Lemma all_le_true (a b : vec) :
  all_le a b = true <-> vx a <= vx b /\ vy a <= vy b /\ vz a <= vz b.
Proof.
  unfold all_le. rewrite !andb_true_iff, !float_le_true. tauto.
Qed.

(** ** Dedup-append *)

Section AppendMissing.
Context {A : Type} (eqb : A -> A -> bool).

Lemma contains_app (l1 l2 : list A) (x : A) :
  contains eqb (l1 ++ l2) x = contains eqb l1 x || contains eqb l2 x.
Proof. unfold contains. apply existsb_app. Qed.

Lemma append_missing_cons (arr new : list A) (e : A) :
  append_missing eqb arr (e :: new)
  = append_missing eqb (if contains eqb arr e then arr else arr ++ [e]) new.
Proof. reflexivity. Qed.

(** The array only grows at its end, and whatever is appended was absent
    from everything before it at that moment. *)
Lemma append_missing_grows (new arr : list A) :
  exists added,
    append_missing eqb arr new = arr ++ added
    /\ forall before e after,
         added = before ++ e :: after ->
         In e new /\ contains eqb (arr ++ before) e = false.
Proof.
  revert arr. induction new as [|e new IH]; intro arr.
  - exists []. split; [symmetry; apply app_nil_r|].
    intros [|? ?] ? ? Hsplit; discriminate Hsplit.
  - rewrite append_missing_cons. destruct (contains eqb arr e) eqn:He.
    + destruct (IH arr) as (added & Heq & Hin).
      exists added. split; [exact Heq|].
      intros before x after Hsplit.
      destruct (Hin _ _ _ Hsplit). split; [now right | assumption].
    + destruct (IH (arr ++ [e])) as (added & Heq & Hin).
      exists (e :: added). split.
      * rewrite Heq, <- app_assoc. reflexivity.
      * intros [|b before] x after Hsplit; injection Hsplit as -> Hrest.
        -- split; [now left | now rewrite app_nil_r].
        -- destruct (Hin _ _ _ Hrest) as [Hn Hc]. split; [now right|].
           rewrite <- app_assoc in Hc. exact Hc.
Qed.

Lemma append_missing_present (arr : list A) (e : A) :
  contains eqb arr e = true -> append_missing eqb arr [e] = arr.
Proof. intro He. unfold append_missing. simpl. now rewrite He. Qed.

Lemma append_missing_app (arr new1 new2 : list A) :
  append_missing eqb arr (new1 ++ new2)
  = append_missing eqb (append_missing eqb arr new1) new2.
Proof. unfold append_missing. apply fold_left_app. Qed.
End AppendMissing.

(** C9: [updateEFs] and [updateETs] keep every element already stored, in
    its place, and only add at the end; an element is added only if the
    membership test did not find it among the elements stored before it,
    so nothing that is already present is appended again.  Neither method
    touches the other collection. *)
Theorem C9_update_keeps_and_dedups `{Membership} (c : Component.t)
    (efs : list Force.t) (ets : list Torque.t) :
  (exists added,
     Component.EFs (Component.updateEFs c efs) = Component.EFs c ++ added
     /\ Component.ETs (Component.updateEFs c efs) = Component.ETs c
     /\ forall before e after,
          added = before ++ e :: after ->
          In e efs /\ contains force_eq (Component.EFs c ++ before) e = false)
  /\ (exists added,
        Component.ETs (Component.updateETs c ets) = Component.ETs c ++ added
        /\ Component.EFs (Component.updateETs c ets) = Component.EFs c
        /\ forall before e after,
             added = before ++ e :: after ->
             In e ets /\ contains torque_eq (Component.ETs c ++ before) e = false).
Proof.
  split.
  - destruct (append_missing_grows force_eq efs (Component.EFs c))
      as (added & Heq & Hin).
    exists added. simpl. auto.
  - destruct (append_missing_grows torque_eq ets (Component.ETs c))
      as (added & Heq & Hin).
    exists added. simpl. auto.
Qed.

(** ** Force equilibrium *)

(** The test is one-sided: each coordinate of the sum is compared with the
    tolerance from above only. *)
Lemma checkForceEquilibrium_one_sided (c : Component.t) :
  Component.checkForceEquilibrium c = true
  <-> vx (Component.force_sum c) <= 1e-3
      /\ vy (Component.force_sum c) <= 1e-3
      /\ vz (Component.force_sum c) <= 1e-3.
Proof.
  unfold Component.checkForceEquilibrium. rewrite all_le_true. simpl.
  rewrite !Rmult_1_r. tauto.
Qed.

(** C4, on the code: a component whose only external force is 5 N along
    [-x] has a force sum of [-5] on [x], far below [-1e-3], and is still
    reported as being in force equilibrium. *)
Theorem C4_negative_sum_reported_balanced :
  Component.force_sum pulled_component = mkvec (-5) 0 0
  /\ vx (Component.force_sum pulled_component) < - 1e-3
  /\ Component.checkForceEquilibrium pulled_component = true.
Proof.
  assert (Hsum : Component.force_sum pulled_component = mkvec (-5) 0 0).
  { unfold Component.force_sum. simpl. unfold vadd. simpl. f_equal; lra. }
  split; [exact Hsum|]. split.
  - rewrite Hsum. simpl. lra.
  - apply checkForceEquilibrium_one_sided. rewrite Hsum. simpl. lra.
Qed.

(** ** solve *)

(** C6: on a gear with no mesh, [solve] says "unconfigured" and returns at
    once: no exception, and the gear, its meshes and its shaft are what
    they were. *)
Theorem C6_solve_without_meshes `{Membership} (a : Assembly) :
  meshes a = [] -> solve a = (a, Ok Unconfigured).
Proof.
  intro Hm. unfold solve, bind, get. rewrite Hm. reflexivity.
Qed.

Lemma C6_solve_without_meshes_witness :
  solve (H := by_value) lone_gear = (lone_gear, Ok Unconfigured).
Proof. apply C6_solve_without_meshes. reflexivity. Defined.

(** ** Gear construction *)

Lemma pydiv_ok (a b : R) : b <> 0 -> pydiv a b = Ok (a / b).
Proof.
  intro Hb. unfold pydiv.
  replace (float_eq b 0) with false by (symmetry; now apply float_eq_false).
  reflexivity.
Qed.

Lemma pydiv_zero (a : R) : pydiv a 0 = Err ZeroDivisionError.
Proof.
  unfold pydiv.
  replace (float_eq 0 0) with true by (symmetry; now apply float_eq_true).
  reflexivity.
Qed.

Lemma pypow_pos (N e : R) : 0 < N -> pypow N e = Ok (Rpower N e).
Proof.
  intro HN. unfold pypow.
  replace (float_lt 0 N) with true by (symmetry; now apply float_lt_true).
  reflexivity.
Qed.

Lemma pypow_zero_neg (e : R) : e < 0 -> pypow 0 e = Err ZeroDivisionError.
Proof.
  intro He. unfold pypow.
  replace (float_lt 0 0) with false by (symmetry; apply float_lt_false; lra).
  replace (float_eq e 0) with false by (symmetry; apply float_eq_false; lra).
  replace (float_eq 0 0) with true by (symmetry; now apply float_eq_true).
  replace (float_lt e 0) with true by (symmetry; now apply float_lt_true).
  reflexivity.
Qed.


(** C8: with [psi = 0] the constructor returns a gear, no quotient having
    had a zero divisor; its normal and transverse pitches are [m_n pi]
    and its axial pitch is [0].  With [psi <> 0], and the cosine and
    tangent of the helix angle not zero, it returns a gear whose
    transverse pitch is [m_n pi / cos(psi)] and whose axial pitch is the
    quotient [p_t / tan(psi)], that is [m_n pi / cos(psi) / tan(psi)],
    [psi] being the helix angle in radians. *)
Theorem C8_axial_pitch (name : string) (axis loc : vec)
    (m_n z psi phi_n Q_v FW : R) (material : option Material.t) :
  (psi = 0 ->
   exists g,
     Gear.init name axis loc m_n z psi phi_n Q_v FW material = Ok g
     /\ Gear.psi g = 0
     /\ Gear.p_n g = m_n * PI
     /\ Gear.p_t g = m_n * PI
     /\ Gear.p_x g = 0)
  /\ (psi <> 0 ->
      cos (psi * PI / 180) <> 0 ->
      tan (psi * PI / 180) <> 0 ->
      exists g,
        Gear.init name axis loc m_n z psi phi_n Q_v FW material = Ok g
        /\ Gear.psi g = psi * PI / 180
        /\ Gear.p_n g = m_n * PI
        /\ Gear.p_t g = m_n * PI / cos (psi * PI / 180)
        /\ Gear.p_x g = Gear.p_t g / tan (Gear.psi g)
        /\ Gear.p_x g
           = m_n * PI / cos (psi * PI / 180) / tan (psi * PI / 180)).
Proof.
  split.
  - intros ->. unfold Gear.init.
    replace (0 * PI / 180) with 0 by lra. rewrite cos_0.
    replace (float_eq 0 0) with true by (symmetry; now apply float_eq_true).
    assert (H1 : 1 <> 0) by lra.
    assert (H3 : 1 ^ 3 <> 0) by (simpl; lra).
    repeat (first [rewrite (pydiv_ok _ 1 H1) | rewrite (pydiv_ok _ (1 ^ 3) H3)];
            cbn [rbind negb]).
    eexists. split; [reflexivity|].
    cbn [Gear.psi Gear.p_n Gear.p_t Gear.p_x].
    repeat split; lra.
  - intros Hpsi Hcos Htan. unfold Gear.init.
    replace (float_eq psi 0) with false by (symmetry; now apply float_eq_false).
    assert (H3 : cos (psi * PI / 180) ^ 3 <> 0) by now apply pow_nonzero.
    repeat (first [rewrite (pydiv_ok _ _ Hcos) | rewrite (pydiv_ok _ _ Htan)
                  | rewrite (pydiv_ok _ _ H3)];
            cbn [rbind negb]).
    eexists. split; [reflexivity|]. repeat split; reflexivity.
Qed.

Lemma quarter_turn : 45 * PI / 180 = PI / 4.
Proof. lra. Qed.

Lemma C8_axial_pitch_witness :
  (exists g,
     Gear.init "spur" (mkvec 0 0 1) zeros 2 20 0 20 6 10 None = Ok g
     /\ Gear.psi g = 0
     /\ Gear.p_n g = 2 * PI
     /\ Gear.p_t g = 2 * PI
     /\ Gear.p_x g = 0)
  /\ (exists g,
        Gear.init "helical" (mkvec 0 0 1) zeros 2 20 45 20 6 10 None = Ok g
        /\ Gear.psi g = 45 * PI / 180
        /\ Gear.p_n g = 2 * PI
        /\ Gear.p_t g = 2 * PI / cos (45 * PI / 180)
        /\ Gear.p_x g = Gear.p_t g / tan (Gear.psi g)
        /\ Gear.p_x g = 2 * PI / cos (45 * PI / 180) / tan (45 * PI / 180)).
Proof.
  split.
  - apply (C8_axial_pitch "spur" (mkvec 0 0 1) zeros 2 20 0 20 6 10 None).
    reflexivity.
  - apply (C8_axial_pitch "helical" (mkvec 0 0 1) zeros 2 20 45 20 6 10 None).
    + lra.
    + rewrite quarter_turn, cos_PI4.
      assert (0 < sqrt 2) by (apply sqrt_lt_R0; lra).
      apply Rgt_not_eq. apply Rdiv_lt_0_compat; lra.
    + rewrite quarter_turn, tan_PI4. lra.
Defined.

(** ** Extrapolation *)

Section Extrapolation.
Variable Akima1DInterpolator : list R -> list R -> result (R -> R).

(** C7: in a 1-D pass built on samples [x] and values [y_vals], a query
    below the first (smallest) sample gets
    [y_vals[0] + slope * (xq - x[0])] with the secant slope of the first
    segment, and a query above the last sample gets
    [y_vals[-1] + slope * (xq - x[-1])] with the secant slope of the last
    segment; the cubic interpolant has no part in either value. *)
Theorem C7_extrapolation_is_linear (x y_vals : list R) (akima : R -> R)
    (x0 x1 y0 y1 xl xl' yl yl' : R) :
  Akima1DInterpolator x y_vals = Ok akima ->
  getitem x 0 = Ok x0 -> getitem x 1 = Ok x1 ->
  getitem y_vals 0 = Ok y0 -> getitem y_vals 1 = Ok y1 ->
  getitem x (-1) = Ok xl -> getitem x (-2) = Ok xl' ->
  getitem y_vals (-1) = Ok yl -> getitem y_vals (-2) = Ok yl' ->
  exists interp,
    Makima2DInterpolator.akima_with_extrapolation Akima1DInterpolator x y_vals
    = Ok interp
    /\ (forall xq, xq < x0 -> xq <= xl ->
          interp xq = Ok (y0 + (y1 - y0) / (x1 - x0) * (xq - x0)))
    /\ (forall xq, xl < xq ->
          interp xq = Ok (yl + (yl - yl') / (xl - xl') * (xq - xl))).
Proof.
  intros Hak Hx0 Hx1 Hy0 Hy1 Hxl Hxl' Hyl Hyl'.
  unfold Makima2DInterpolator.akima_with_extrapolation. rewrite Hak. simpl.
  eexists. split; [reflexivity|]. split; intros xq.
  - intros Hlo Hhi. unfold Makima2DInterpolator.extrap.
    rewrite Hx0. simpl.
    replace (float_lt xq x0) with true by (symmetry; now apply float_lt_true).
    rewrite Hy1, Hy0, Hx1. simpl. rewrite Hxl. simpl.
    replace (float_lt xl xq) with false by (symmetry; now apply float_lt_false).
    reflexivity.
  - intros Hhi. unfold Makima2DInterpolator.extrap.
    rewrite Hx0. simpl.
    destruct (float_lt xq x0).
    + rewrite Hy1, Hy0, Hx1. simpl. rewrite Hxl. simpl.
      replace (float_lt xl xq) with true by (symmetry; now apply float_lt_true).
      rewrite Hyl, Hyl', Hxl'. reflexivity.
    + simpl. rewrite Hxl. simpl.
      replace (float_lt xl xq) with true by (symmetry; now apply float_lt_true).
      rewrite Hyl, Hyl', Hxl'. reflexivity.
Qed.
End Extrapolation.

Lemma C7_extrapolation_is_linear_witness :
  exists interp,
    Makima2DInterpolator.akima_with_extrapolation flat_interpolant
      [0; 1; 2] [1; 3; 4] = Ok interp
    /\ (forall xq, xq < 0 -> xq <= 2 ->
          interp xq = Ok (1 + (3 - 1) / (1 - 0) * (xq - 0)))
    /\ (forall xq, 2 < xq ->
          interp xq = Ok (4 + (4 - 3) / (2 - 1) * (xq - 2))).
Proof.
  apply (C7_extrapolation_is_linear flat_interpolant [0; 1; 2] [1; 3; 4]
           (fun _ => 0)); reflexivity.
Defined.

(** ** Reliability and temperature factors *)

Lemma bind_getattr {A} (k : string) (f : R -> M Gear.t A) (g : Gear.t) :
  bind (getattr k) f g
  = match lookup k (Gear.attrs g) with
    | Some v => f v g
    | None => (g, Err (AttributeError k))
    end.
Proof. unfold bind, getattr. destruct (lookup k (Gear.attrs g)); reflexivity. Qed.

Lemma bind_bind {S A B C} (m : M S A) (f : A -> M S B) (k : B -> M S C) (s : S) :
  bind (bind m f) k s = bind m (fun a => bind (f a) k) s.
Proof. unfold bind. destruct (m s) as [s' [a|e]]; reflexivity. Qed.

(** Run a method of the gear as far as the known attributes allow. *)
Ltac run :=
  repeat first
    [ rewrite bind_bind
    | rewrite bind_getattr
    | progress cbn [bind ret lift raise get modify setattr fst snd
                    Gear.attrs Gear.set_attrs Gear.phi_t Gear.phi_n Gear.p_n
                    Gear.FW Gear.d lookup String.eqb Ascii.eqb Bool.eqb] ].

Lemma table_hit (r y : R) :
  In (r, y) (combine rel_ref YZ_ref) ->
  contains float_eq rel_ref r = true
  /\ getitem0 (Array (where_eq r rel_ref YZ_ref)) = Ok y.
Proof.
  unfold rel_ref, YZ_ref, contains, where_eq. cbn [combine In].
  intros [E|[E|[E|[E|[E|[]]]]]]; injection E as <- <-;
    cbn [existsb filter fst snd]; float_decide; cbn [map snd]; split; reflexivity.
Qed.


(** The first half of C3 holds: a reliability found in the table gets the
    value paired with it, [0.99] gets [1]. *)
Lemma table_entry_gives_paired_value (g : Gear.t)
    (sigma_FP b_YN e_YN N temp r y p : R) :
  pypow N e_YN = Ok p ->
  In (r, y) (combine rel_ref YZ_ref) ->
  lookup "Y_Z" (Gear.attrs (fst (calculateBendingSF sigma_FP b_YN e_YN N temp r g)))
  = Some y.
Proof.
  intros Hp Hin. destruct (table_hit r y Hin) as [Hc Hy].
  unfold calculateBendingSF. run. rewrite Hp. run. rewrite Hc, Hy.
  destruct (float_le temp 120); run;
    destruct (lookup "sigma_max_fatigue" (Gear.attrs g)); run;
    try destruct (lookup "Y_theta" (Gear.attrs g)); run; reflexivity.
Qed.

Lemma reliability_099 (g : Gear.t) (sigma_FP b_YN e_YN N temp p : R) :
  pypow N e_YN = Ok p ->
  lookup "Y_Z"
    (Gear.attrs (fst (calculateBendingSF sigma_FP b_YN e_YN N temp 0.99 g)))
  = Some 1.
Proof.
  intro Hp. apply (table_entry_gives_paired_value g _ _ _ _ _ _ _ p Hp).
  unfold rel_ref, YZ_ref. cbn [combine In]. auto.
Qed.

Lemma rel_075_off_table : contains float_eq rel_ref 0.75 = false.
Proof. unfold contains, rel_ref. cbn [existsb]. float_decide. reflexivity. Qed.

(** A power that raises ends the method before anything but [sigma_FP]
    is assigned. *)
Lemma power_raises (g : Gear.t) (sigma_FP b_YN e_YN N temp rel : R)
    (err : pyerror) :
  pypow N e_YN = Err err ->
  let (g', r) := calculateBendingSF sigma_FP b_YN e_YN N temp rel g in
  r = Err err
  /\ lookup "Y_theta" (Gear.attrs g') = lookup "Y_theta" (Gear.attrs g)
  /\ lookup "Y_Z" (Gear.attrs g') = lookup "Y_Z" (Gear.attrs g)
  /\ lookup "bendingSF" (Gear.attrs g') = lookup "bendingSF" (Gear.attrs g).
Proof.
  intro Hp. unfold calculateBendingSF. run. rewrite Hp. run. auto.
Qed.

(** Off the table, the method stops at the index applied to the scalar
    that [np.interp] returns; [Y_Z] and [bendingSF] are not assigned. *)
Lemma off_table_raises (g : Gear.t) (sigma_FP b_YN e_YN N temp rel p : R) :
  pypow N e_YN = Ok p ->
  contains float_eq rel_ref rel = false ->
  let (g', r) := calculateBendingSF sigma_FP b_YN e_YN N temp rel g in
  r = Err IndexError
  /\ lookup "Y_Z" (Gear.attrs g') = lookup "Y_Z" (Gear.attrs g)
  /\ lookup "bendingSF" (Gear.attrs g') = lookup "bendingSF" (Gear.attrs g).
Proof.
  intros Hp Hc. unfold calculateBendingSF. run. rewrite Hp. run.
  rewrite Hc. cbn [getitem0].
  destruct (float_le temp 120); run; auto.
Qed.

(** C3, on the code: at [rel = 0.75], which lies between the table entries
    [0.9] and [0.5], the method never returns and assigns no [Y_Z]:
    whenever the power [N ** e_YN] of the line before has a value, it
    raises [IndexError].  The number [np.interp] computed before that is
    [0.7], the value at the end of the table, because the table runs
    downwards; the value half-way up the segment from [(0.5, 0.7)] to
    [(0.9, 0.85)] would be [0.79375]. *)
Theorem C3_interpolation_branch_fails (g : Gear.t)
    (sigma_FP b_YN e_YN N temp : R) :
  (forall p, pypow N e_YN = Ok p ->
     snd (calculateBendingSF sigma_FP b_YN e_YN N temp 0.75 g)
     = Err IndexError)
  /\ (exists err,
        snd (calculateBendingSF sigma_FP b_YN e_YN N temp 0.75 g) = Err err)
  /\ lookup "Y_Z"
       (Gear.attrs (fst (calculateBendingSF sigma_FP b_YN e_YN N temp 0.75 g)))
     = lookup "Y_Z" (Gear.attrs g)
  /\ np_interp 0.75 rel_ref YZ_ref = 0.7
  /\ 0.7 + (0.85 - 0.7) / (0.9 - 0.5) * (0.75 - 0.5) = 0.79375.
Proof.
  assert (Hcases :
            (forall p, pypow N e_YN = Ok p ->
               snd (calculateBendingSF sigma_FP b_YN e_YN N temp 0.75 g)
               = Err IndexError)
            /\ (exists err,
                  snd (calculateBendingSF sigma_FP b_YN e_YN N temp 0.75 g)
                  = Err err)
            /\ lookup "Y_Z"
                 (Gear.attrs
                    (fst (calculateBendingSF sigma_FP b_YN e_YN N temp 0.75 g)))
               = lookup "Y_Z" (Gear.attrs g)).
  { destruct (pypow N e_YN) as [p|err] eqn:Hp.
    - pose proof (off_table_raises g sigma_FP b_YN e_YN N temp 0.75 p Hp
                    rel_075_off_table) as Hoff.
      destruct (calculateBendingSF sigma_FP b_YN e_YN N temp 0.75 g) as [g' r].
      destruct Hoff as (Hr & HY & _). cbn [fst snd].
      split; [intros; exact Hr|]. split; [now exists IndexError | exact HY].
    - pose proof (power_raises g sigma_FP b_YN e_YN N temp 0.75 err Hp) as Hpow.
      destruct (calculateBendingSF sigma_FP b_YN e_YN N temp 0.75 g) as [g' r].
      destruct Hpow as (Hr & _ & HY & _). cbn [fst snd].
      split; [intros p Hp'; discriminate Hp'|].
      split; [now exists err | exact HY]. }
  destruct Hcases as (Hindex & Hnever & HY).
  repeat split; try assumption.
  - unfold np_interp, rel_ref, YZ_ref. cbn [List.length Nat.sub nth].
    float_decide. reflexivity.
  - lra.
Qed.

Lemma C3_interpolation_branch_fails_witness :
  snd (calculateBendingSF 200 1 0 1 20 0.75 stressed_gear) = Err IndexError.
Proof.
  apply (proj1 (C3_interpolation_branch_fails stressed_gear 200 1 0 1 20)
           (Rpower 1 0)).
  apply pypow_pos. lra.
Defined.








(** ** Surface-strength geometry *)

Lemma bind_lift_ok {S A B} (a : A) (f : A -> M S B) (s : S) :
  bind (lift (Ok a)) f s = f a s.
Proof. reflexivity. Qed.

Lemma material_found (g : Gear.t) (msg : string) :
  listed_material g ->
  exists i,
    rbind (material_name g) (index_or msg) = Ok i.
Proof.
  intros (m & i & Hm & Hi). exists i.
  unfold material_name, index_or. rewrite Hm. cbn [rbind]. now rewrite Hi.
Qed.

Ltac forget_attrs g :=
  repeat match goal with
         | |- context [lookup ?k (Gear.attrs g)] =>
             destruct (lookup k (Gear.attrs g)); run
         end.

Section SurfaceGeometry.
Variables (g : Gear.t) (mesh : Mesh.t) (Z_R : R).
Hypothesis Hpinion : listed_material (Mesh.drivingGear mesh).
Hypothesis Hwheel : listed_material (Mesh.drivenGear mesh).
Hypothesis HZ : contact_length g mesh <> 0.

Let m_N := load_sharing_ratio g mesh.
Let m_G := Mesh.m_G mesh.
Let phi_t := Gear.phi_t g.

(** Run the method up to the test on the mesh type. *)
Ltac up_to_mesh_type :=
  destruct Hpinion as (pm & i & Hpm & Hi);
  destruct Hwheel as (gm & j & Hgm & Hj);
  unfold calculateSigmaMaxPitting, material_name, index_or;
  rewrite Hpm; run; rewrite Hi; run; rewrite Hgm; run; rewrite Hj; run;
  fold (contact_length g mesh); rewrite (pydiv_ok _ _ HZ); run;
  fold (load_sharing_ratio g mesh); fold m_N; fold m_G; fold phi_t.

Lemma external_geometry :
  Mesh.type mesh = "External"%string -> m_N <> 0 -> m_G + 1 <> 0 ->
  let g' := fst (calculateSigmaMaxPitting mesh Z_R g) in
  lookup "m_N" (Gear.attrs g') = Some m_N
  /\ lookup "Z_I" (Gear.attrs g')
     = Some (cos phi_t * sin phi_t * m_G / (2 * m_N * (m_G + 1))).
Proof.
  intros Htype HmN HmG. up_to_mesh_type. rewrite Htype. run.
  rewrite (pydiv_ok _ _ HmN). run. rewrite (pydiv_ok _ _ HmG). run.
  forget_attrs g; (split; [reflexivity|]); f_equal; field; auto.
Qed.

Lemma internal_geometry :
  Mesh.type mesh = "Internal"%string -> m_N <> 0 -> m_G - 1 <> 0 ->
  let g' := fst (calculateSigmaMaxPitting mesh Z_R g) in
  lookup "m_N" (Gear.attrs g') = Some m_N
  /\ lookup "Z_I" (Gear.attrs g')
     = Some (cos phi_t * sin phi_t * m_G / (2 * m_N * (m_G - 1))).
Proof.
  intros Htype HmN HmG. up_to_mesh_type. rewrite Htype. run.
  rewrite (pydiv_ok _ _ HmN). run. rewrite (pydiv_ok _ _ HmG). run.
  forget_attrs g; (split; [reflexivity|]); f_equal; field; auto.
Qed.

Lemma other_mesh_type_raises :
  Mesh.type mesh <> "External"%string ->
  Mesh.type mesh <> "Internal"%string ->
  snd (calculateSigmaMaxPitting mesh Z_R g)
  = Err (ValueError "Gear mesh type invalid.")
  /\ lookup "Z_I" (Gear.attrs (fst (calculateSigmaMaxPitting mesh Z_R g)))
     = lookup "Z_I" (Gear.attrs g).
Proof.
  intros Hext Hint. apply String.eqb_neq in Hext, Hint.
  up_to_mesh_type. rewrite Hext, Hint. run. split; reflexivity.
Qed.
End SurfaceGeometry.

(** C5: with both materials on the list and no zero divisor on the way,
    [Z_I] is assigned [cos(phi_t) sin(phi_t) m_G / (2 m_N (m_G + 1))] for an
    "External" mesh and the same with [m_G - 1] for an "Internal" one;
    for any other mesh type the call raises the [ValueError] on the mesh
    type and [Z_I] is left as it was. *)
Theorem C5_surface_geometry_by_mesh_type (g : Gear.t) (mesh : Mesh.t) (Z_R : R) :
  listed_material (Mesh.drivingGear mesh) ->
  listed_material (Mesh.drivenGear mesh) ->
  contact_length g mesh <> 0 ->
  let m_N := load_sharing_ratio g mesh in
  let m_G := Mesh.m_G mesh in
  let phi_t := Gear.phi_t g in
  let (g', r) := calculateSigmaMaxPitting mesh Z_R g in
  (Mesh.type mesh = "External"%string -> m_N <> 0 -> m_G + 1 <> 0 ->
   lookup "m_N" (Gear.attrs g') = Some m_N
   /\ lookup "Z_I" (Gear.attrs g')
      = Some (cos phi_t * sin phi_t * m_G / (2 * m_N * (m_G + 1))))
  /\ (Mesh.type mesh = "Internal"%string -> m_N <> 0 -> m_G - 1 <> 0 ->
      lookup "m_N" (Gear.attrs g') = Some m_N
      /\ lookup "Z_I" (Gear.attrs g')
         = Some (cos phi_t * sin phi_t * m_G / (2 * m_N * (m_G - 1))))
  /\ (Mesh.type mesh <> "External"%string ->
      Mesh.type mesh <> "Internal"%string ->
      r = Err (ValueError "Gear mesh type invalid.")
      /\ lookup "Z_I" (Gear.attrs g') = lookup "Z_I" (Gear.attrs g)).
Proof.
  intros Hp Hg HZ m_N m_G phi_t.
  pose proof (external_geometry g mesh Z_R Hp Hg HZ) as Hext.
  pose proof (internal_geometry g mesh Z_R Hp Hg HZ) as Hint.
  pose proof (other_mesh_type_raises g mesh Z_R Hp Hg HZ) as Hother.
  destruct (calculateSigmaMaxPitting mesh Z_R g) as [g' r].
  cbn [fst snd] in Hext, Hint, Hother. auto.
Qed.

(** The sample pair: the line of action is 40 mm long, the pinion tip
    circle cuts it before its end and the wheel tip circle does not. *)
Lemma pair_contact_length (type : string) :
  contact_length pinion (pair type) = sqrt 404.
Proof.
  unfold contact_length, pair, pinion, wheel, steel_gear.
  cbn [Mesh.drivingGear Mesh.drivenGear Gear.d Gear.h_a Gear.phi_t].
  rewrite sin_PI6.
  replace ((2 * 20 + 2 * 60) * (1 / 2) / 2) with 40 by lra.
  replace ((2 * 20 / 2) ^ 2 + 2 ^ 2) with 404 by (simpl; lra).
  replace ((2 * 60 / 2) ^ 2 + 2 ^ 2) with 3604 by (simpl; lra).
  assert (H40 : sqrt (40 * 40) = 40) by (apply sqrt_square; lra).
  rewrite Rmin_left, Rmin_right; [lra| |].
  - rewrite <- H40. apply sqrt_le_1_alt. lra.
  - rewrite <- H40 at 1. apply sqrt_le_1_alt. lra.
Qed.

Lemma pair_contact_length_positive (type : string) :
  0 < contact_length pinion (pair type).
Proof. rewrite pair_contact_length. apply sqrt_lt_R0. lra. Qed.

Lemma pair_load_sharing_positive (type : string) :
  0 < load_sharing_ratio pinion (pair type).
Proof.
  unfold load_sharing_ratio.
  pose proof (pair_contact_length_positive type) as HZ.
  change (Gear.p_n pinion) with (2 * PI).
  change (Gear.phi_n pinion) with (PI / 6).
  rewrite cos_PI6.
  assert (0 < sqrt 3) by (apply sqrt_lt_R0; lra).
  pose proof PI_RGT_0.
  apply Rdiv_lt_0_compat; [|assumption].
  apply Rdiv_lt_0_compat; [|lra].
  apply Rmult_lt_0_compat; lra.
Qed.

Lemma pair_listed : listed_material pinion /\ listed_material wheel.
Proof. split; exists steel, 1%nat; split; reflexivity. Qed.

Lemma C5_surface_geometry_by_mesh_type_witness :
  lookup "Z_I"
    (Gear.attrs (fst (calculateSigmaMaxPitting (pair "External") 1 pinion)))
  = Some (cos (PI / 6) * sin (PI / 6) * 3
          / (2 * load_sharing_ratio pinion (pair "External") * (3 + 1)))
  /\ snd (calculateSigmaMaxPitting (pair "Rack") 1 pinion)
     = Err (ValueError "Gear mesh type invalid.").
Proof.
  split.
  - pose proof (C5_surface_geometry_by_mesh_type pinion (pair "External") 1
                  (proj1 pair_listed) (proj2 pair_listed)
                  (Rgt_not_eq _ _ (pair_contact_length_positive "External")))
      as Hc5.
    destruct (calculateSigmaMaxPitting (pair "External") 1 pinion) as [g' r].
    destruct Hc5 as [Hext _].
    destruct Hext as [_ HZI].
    + reflexivity.
    + apply Rgt_not_eq, pair_load_sharing_positive.
    + cbn [pair Mesh.m_G]. lra.
    + exact HZI.
  - pose proof (C5_surface_geometry_by_mesh_type pinion (pair "Rack") 1
                  (proj1 pair_listed) (proj2 pair_listed)
                  (Rgt_not_eq _ _ (pair_contact_length_positive "Rack")))
      as Hc5.
    destruct (calculateSigmaMaxPitting (pair "Rack") 1 pinion) as [g' r].
    destruct Hc5 as (_ & _ & Hother).
    destruct Hother as [Hr _]; [discriminate | discriminate | exact Hr].
Defined.

(** ** The classification pass of solve *)

Section Classification.
Context `{Membership}.

Lemma Gear_updateEFs_nil (g : Gear.t) : Gear_updateEFs g [] = g.
Proof. destruct g as [c]. destruct c. reflexivity. Qed.

Lemma Gear_updateEFs_app (g : Gear.t) (l1 l2 : list Force.t) :
  Gear_updateEFs (Gear_updateEFs g l1) l2 = Gear_updateEFs g (l1 ++ l2).
Proof.
  unfold Gear_updateEFs, Component.updateEFs. cbn.
  now rewrite append_missing_app.
Qed.

Lemma known_force_updateEFs (g : Gear.t) (l : list Force.t) (mesh : Mesh.t) :
  known_force (Gear_updateEFs g l) mesh = known_force g mesh.
Proof. reflexivity. Qed.

Lemma known_forces_updateEFs (g : Gear.t) (l : list Force.t) (ms : list Mesh.t) :
  known_forces (Gear_updateEFs g l) ms = known_forces g ms.
Proof. reflexivity. Qed.

(** The loop leaves the gear with the known mesh forces merged into its
    [EFs], and has counted the unresolved meshes. *)
Lemma classify_spec (ms : list Mesh.t) (g : Gear.t) (i n : nat)
    (um : option nat) :
  exists um',
    classify g ms i n um
    = (Gear_updateEFs g (known_forces g ms), (n + force_unknowns ms)%nat, um').
Proof.
  revert g i n um. induction ms as [|mesh rest IH]; intros g i n um.
  - exists um. cbn. rewrite Gear_updateEFs_nil, Nat.add_0_r. reflexivity.
  - cbn [classify]. unfold known_forces, force_unknowns. cbn [filter].
    destruct (unresolved mesh); cbn [negb map List.length].
    + destruct (IH g (S i) (S n) (Some i)) as [um' ->]. exists um'.
      unfold known_forces, force_unknowns. f_equal. f_equal. lia.
    + destruct (IH (Gear_updateEFs g [known_force g mesh]) (S i) n um)
        as [um' ->].
      exists um'. rewrite known_forces_updateEFs, Gear_updateEFs_app.
      reflexivity.
Qed.

(** What a run of [solve] that ends in "cannot be solved" leaves behind. *)
Lemma not_solvable_run (a : Assembly) :
  meshes a <> [] ->
  checkTorqueEquilibrium (self a) = Ok false ->
  (1 < force_unknowns (meshes a) + torque_unknowns (self a))%nat ->
  solve a
  = (set_self a (Gear_updateEFs (self a) (known_forces (self a) (meshes a))),
     Ok NotSolvable).
Proof.
  intros Hm Heq Hmany. unfold solve, bind, get.
  destruct (meshes a) as [|m0 rest] eqn:Hms; [contradiction|].
  unfold lift. rewrite Heq. cbn [negb].
  destruct (classify_spec (m0 :: rest) (self a) 0 0 None) as [um Hcl].
  rewrite Hcl. cbn [modify Nat.add].
  replace (1 <? force_unknowns (m0 :: rest) + torque_unknowns (self a))%nat
    with true by (symmetry; apply Nat.ltb_lt; exact Hmany).
  unfold ret. reflexivity.
Qed.
End Classification.

Lemma all_unresolved_no_known_force (g : Gear.t) (ms : list Mesh.t) :
  forallb unresolved ms = true -> known_forces g ms = [].
Proof.
  unfold known_forces. induction ms as [|mesh rest IH]; [reflexivity|].
  cbn [forallb filter]. intro Hall. apply andb_true_iff in Hall as [Hm Hrest].
  rewrite Hm. cbn [negb]. auto.
Qed.

Lemma open_mesh_unresolved : unresolved open_mesh = true.
Proof.
  unfold unresolved, open_mesh, all_eq, zeros. cbn [Mesh.F Force.force vx vy vz].
  float_decide. reflexivity.
Qed.

Lemma resolved_mesh_known : unresolved resolved_mesh = false.
Proof.
  unfold unresolved, resolved_mesh, all_eq, zeros.
  cbn [Mesh.F Force.force vx vy vz]. float_decide. reflexivity.
Qed.

Lemma idle_between_unknowns :
  (force_unknowns (meshes idle_between) + torque_unknowns (self idle_between)
   = 2)%nat.
Proof.
  unfold force_unknowns, idle_between. cbn [meshes self filter].
  rewrite open_mesh_unresolved, resolved_mesh_known. reflexivity.
Qed.

Lemma idle_between_open_unknowns :
  (force_unknowns (meshes idle_between_open)
   + torque_unknowns (self idle_between_open) = 3)%nat.
Proof.
  unfold force_unknowns, idle_between_open. cbn [meshes self filter].
  rewrite open_mesh_unresolved. reflexivity.
Qed.

(** C1 as amended: when the classification pass counts more than one
    unknown, [solve] says "cannot be solved" and returns without an
    exception; the meshes, the shaft and the gear's [ETs] are untouched,
    and the only change is that the forces of the meshes already resolved
    (sign-flipped where the gear drives the mesh) have been merged into
    the gear's [EFs] by [updateEFs].  When every mesh is still unresolved
    nothing at all has changed. *)
Theorem C1_not_solvable_merges_known_forces_only `{Membership} (a : Assembly) :
  meshes a <> [] ->
  checkTorqueEquilibrium (self a) = Ok false ->
  (1 < force_unknowns (meshes a) + torque_unknowns (self a))%nat ->
  solve a
  = (mkAssembly
       (Gear.set_comp (self a)
          (Component.set_EFs (Gear.comp (self a))
             (append_missing force_eq (Gear.EFs (self a))
                (known_forces (self a) (meshes a)))))
       (meshes a) (onShaft a),
     Ok NotSolvable)
  /\ (forallb unresolved (meshes a) = true -> solve a = (a, Ok NotSolvable)).
Proof.
  intros Hm Heq Hmany.
  rewrite (not_solvable_run a Hm Heq Hmany). split; [reflexivity|].
  intro Hall. rewrite (all_unresolved_no_known_force _ _ Hall).
  rewrite Gear_updateEFs_nil. destruct a. reflexivity.
Qed.

Lemma C1_not_solvable_merges_known_forces_only_witness :
  solve (H := by_value) idle_between_open = (idle_between_open, Ok NotSolvable).
Proof.
  apply (C1_not_solvable_merges_known_forces_only (H := by_value)
           idle_between_open).
  - discriminate.
  - reflexivity.
  - rewrite idle_between_open_unknowns. lia.
  - unfold idle_between_open. cbn [meshes forallb].
    rewrite open_mesh_unresolved. reflexivity.
Defined.

(** C1 as stated fails: the gear of [idle_between] has no torque, one
    unresolved mesh and one resolved mesh, so two unknowns are counted and
    [solve] says "cannot be solved"; yet its [EFs], empty before the
    call, hold the force of the resolved mesh after it. *)
Lemma C1_counterexample :
  meshes idle_between <> []
  /\ checkTorqueEquilibrium (self idle_between) = Ok false
  /\ (1 < force_unknowns (meshes idle_between)
          + torque_unknowns (self idle_between))%nat
  /\ snd (solve (H := by_value) idle_between) = Ok NotSolvable
  /\ Gear.EFs (self idle_between) = []
  /\ Gear.EFs (self (fst (solve (H := by_value) idle_between)))
     = [Force.mk (vscale 1 (mkvec 1 0 0)) zeros]
  /\ fst (solve (H := by_value) idle_between) <> idle_between.
Proof.
  assert (Hm : meshes idle_between <> []) by discriminate.
  assert (Heq : checkTorqueEquilibrium (self idle_between) = Ok false)
    by reflexivity.
  assert (Hmany : (1 < force_unknowns (meshes idle_between)
                       + torque_unknowns (self idle_between))%nat)
    by (rewrite idle_between_unknowns; lia).
  assert (Hefs : Gear.EFs (self (fst (solve (H := by_value) idle_between)))
                 = [Force.mk (vscale 1 (mkvec 1 0 0)) zeros]).
  { rewrite (not_solvable_run (H := by_value) idle_between Hm Heq Hmany).
    unfold known_forces, idle_between. cbn [meshes self filter fst].
    rewrite open_mesh_unresolved, resolved_mesh_known. reflexivity. }
  repeat split; try assumption.
  - now rewrite (not_solvable_run (H := by_value) idle_between Hm Heq Hmany).
  - intro Hsame. rewrite Hsame in Hefs. discriminate Hefs.
Qed.

(** ** calculateForces on a single radiality *)

Lemma bind_get {S B} (k : S -> M S B) (s : S) : bind get k s = k s s.
Proof. reflexivity. Qed.

Lemma bind_modify {S B} (f : S -> S) (k : unit -> M S B) (s : S) :
  bind (modify f) k s = k tt (f s).
Proof. reflexivity. Qed.

Lemma bind_on_self_modify {B} (f : Gear.t -> Gear.t)
    (k : unit -> M Assembly B) (a : Assembly) :
  bind (on_self (modify f)) k a = k tt (set_self a (f (self a))).
Proof. reflexivity. Qed.

Lemma bind_update_mesh {B} (i : nat) (f : Mesh.t -> Mesh.t)
    (k : unit -> M Assembly B) (a : Assembly) :
  bind (update_mesh i f) k a
  = k tt (mkAssembly (self a) (update_nth i f (meshes a)) (onShaft a)).
Proof. reflexivity. Qed.

(** One statement of a method of the assembly. *)
Ltac step :=
  repeat first [ rewrite bind_get | rewrite bind_modify
               | rewrite bind_on_self_modify | rewrite bind_update_mesh
               | rewrite bind_lift_ok ].

Lemma update_nth_twice {A} (i : nat) (f h : A -> A) (l : list A) :
  update_nth i f (update_nth i h l) = update_nth i (fun x => f (h x)) l.
Proof.
  revert i. induction l as [|x l IH]; intros [|i]; cbn; try reflexivity.
  now rewrite IH.
Qed.

Lemma update_nth_length {A} (i : nat) (f : A -> A) (l : list A) :
  List.length (update_nth i f l) = List.length l.
Proof.
  revert i. induction l as [|x l IH]; intros [|i]; cbn; try reflexivity.
  now rewrite IH.
Qed.

Lemma nth_error_update_nth {A} (i : nat) (f : A -> A) (l : list A) :
  nth_error (update_nth i f l) i = option_map f (nth_error l i).
Proof.
  revert i. induction l as [|x l IH]; intros [|i]; cbn; try reflexivity.
  apply IH.
Qed.

Lemma getitem_update_nth {A} (i : nat) (f : A -> A) (l : list A) (x : A) :
  getitem l (Z.of_nat i) = Ok x ->
  getitem (update_nth i f l) (Z.of_nat i) = Ok (f x).
Proof.
  unfold getitem. rewrite update_nth_length.
  destruct (Z.of_nat i <? 0)%Z eqn:Hneg; [apply Z.ltb_lt in Hneg; lia|].
  rewrite Hneg. cbn [orb].
  destruct (Z.of_nat (List.length l) <=? Z.of_nat i)%Z; [discriminate|].
  rewrite Nat2Z.id, nth_error_update_nth.
  destruct (nth_error l i); [|discriminate].
  intro E. injection E as ->. reflexivity.
Qed.

Lemma mesh_sign_cases (g : Gear.t) (mesh : Mesh.t) :
  (Gear.name g = Gear.name (Mesh.drivingGear mesh) /\ mesh_sign g mesh = -1)
  \/ (Gear.name g <> Gear.name (Mesh.drivingGear mesh) /\ mesh_sign g mesh = 1).
Proof.
  unfold mesh_sign.
  destruct (String.eqb (Gear.name g) (Gear.name (Mesh.drivingGear mesh))) eqn:E.
  - left. split; [now apply String.eqb_eq | reflexivity].
  - right. split; [now apply String.eqb_neq | reflexivity].
Qed.

Lemma np_sign_0 : np_sign 0 = 0.
Proof. unfold np_sign. float_decide. reflexivity. Qed.

Section SingleRadiality.
Context `{Membership}.
Variables (a : Assembly) (i : nat) (m : Mesh.t) (r : vec).
Variables (ET0 : Torque.t) (ET : vec) (shaft : Component.t).
Hypothesis Htorque : getitem (Gear.ETs (self a)) 0 = Ok ET0.
Hypothesis Hnet : over_moments vsub (self a) (Torque.torque ET0) = Ok ET.
Hypothesis Hmesh : getitem (meshes a) (Z.of_nat i) = Ok m.
Hypothesis Hsingle : Mesh.radiality m = [r].
Hypothesis Hd : Gear.d (self a) <> 0.
Hypothesis Hcos : cos (Gear.psi (self a)) <> 0.
Hypothesis Hshaft : onShaft a = Some shaft.

(** The run, written with the three local vectors [F_t], [F_r], [F_a] of
    the method. *)
Lemma single_radiality_run :
  let g := self a in
  let sign := mesh_sign g m in
  let F_t := vscale 1e3 (cross ET (vscale (2 / Gear.d g) r)) in
  let F_r :=
    vscale (sign * sqrt (vsum (vmul F_t F_t)) * tan (Gear.phi_n g)
            / cos (Gear.psi g)) r in
  let F_a :=
    vscale (np_sign (vsum (Component.axis shaft)) * np_sign (Gear.psi g))
           (vabs (cross r (vscale (tan (Rabs (Gear.psi g))) F_t))) in
  calculateForces (Some i) a
  = (mkAssembly
       (Gear_updateEFs (set_first_torque ET g)
          [Force.mk (vadd (vadd F_t F_r) F_a) (Mesh.loc m)])
       (update_nth i
          (fun m0 =>
             Mesh.set_F
               (Mesh.set_F_a
                  (Mesh.set_F_r (Mesh.set_F_t m0 (vscale sign F_t))
                                (vscale sign F_r))
                  (vneg F_a))
               (vadd (vadd (vscale sign F_t) (vscale sign F_r)) (vneg F_a)))
          (meshes a))
       (onShaft a),
     Ok tt).
Proof.
  cbn zeta.
  unfold calculateForces. step. rewrite Htorque. step. rewrite Hnet. step.
  rewrite Hmesh. step. rewrite Hsingle. rewrite (pydiv_ok _ _ Hd). step.
  rewrite (pydiv_ok _ _ Hcos). step. unfold shaft_of. rewrite Hshaft. step.
  unfold update_mesh, modify. cbn [meshes self onShaft set_self].
  rewrite !update_nth_twice, Hshaft. reflexivity.
Qed.
End SingleRadiality.

(** C2 as amended: after [calculateForces] has resolved a mesh on the
    single-radiality path, the mesh stores [sign F_t], [sign F_r] and
    [- F_a], where [F_t], [F_r], [F_a] are the method's local vectors and
    [sign] is [-1] when the gear drives the mesh and [1] otherwise; the
    mesh resultant is the sum of the three stored components.  The force
    handed to [updateEFs], located at the mesh, is [F_t + F_r + F_a]: in
    terms of what the mesh stores, [sign F_t' + sign F_r' - F_a'].  It is
    the opposite of the mesh resultant when the gear drives the mesh;
    when the gear is the driven one it is the mesh resultant less twice
    the stored axial component, hence the mesh resultant itself when the
    gear has no helix angle. *)
Theorem C2_resultant_and_registered_force `{Membership} (a : Assembly)
    (i : nat) (m : Mesh.t) (r : vec) (ET0 : Torque.t) (ET : vec)
    (shaft : Component.t) :
  getitem (Gear.ETs (self a)) 0 = Ok ET0 ->
  over_moments vsub (self a) (Torque.torque ET0) = Ok ET ->
  getitem (meshes a) (Z.of_nat i) = Ok m ->
  Mesh.radiality m = [r] ->
  Gear.d (self a) <> 0 ->
  cos (Gear.psi (self a)) <> 0 ->
  onShaft a = Some shaft ->
  exists a' m',
    let g := self a in
    let sign := mesh_sign g m in
    let F_t := vscale 1e3 (cross ET (vscale (2 / Gear.d g) r)) in
    let F_r :=
      vscale (sign * sqrt (vsum (vmul F_t F_t)) * tan (Gear.phi_n g)
              / cos (Gear.psi g)) r in
    let F_a :=
      vscale (np_sign (vsum (Component.axis shaft)) * np_sign (Gear.psi g))
             (vabs (cross r (vscale (tan (Rabs (Gear.psi g))) F_t))) in
    let v := vadd (vadd F_t F_r) F_a in
    calculateForces (Some i) a = (a', Ok tt)
    /\ getitem (meshes a') (Z.of_nat i) = Ok m'
    /\ Force.force (Mesh.F_t m') = vscale sign F_t
    /\ Force.force (Mesh.F_r m') = vscale sign F_r
    /\ Force.force (Mesh.F_a m') = vneg F_a
    /\ Force.force (Mesh.F m')
       = vadd (vadd (Force.force (Mesh.F_t m')) (Force.force (Mesh.F_r m')))
              (Force.force (Mesh.F_a m'))
    /\ Gear.EFs (self a')
       = append_missing force_eq (Gear.EFs (self a)) [Force.mk v (Mesh.loc m)]
    /\ v = vadd (vadd (vscale sign (Force.force (Mesh.F_t m')))
                      (vscale sign (Force.force (Mesh.F_r m'))))
                (vneg (Force.force (Mesh.F_a m')))
    /\ (Gear.name (self a) = Gear.name (Mesh.drivingGear m) ->
        v = vneg (Force.force (Mesh.F m')))
    /\ (Gear.name (self a) <> Gear.name (Mesh.drivingGear m) ->
        v = vsub (Force.force (Mesh.F m'))
                 (vscale 2 (Force.force (Mesh.F_a m'))))
    /\ (Gear.name (self a) <> Gear.name (Mesh.drivingGear m) ->
        Gear.psi (self a) = 0 ->
        v = Force.force (Mesh.F m')).
Proof.
  intros Htorque Hnet Hmesh Hsingle Hd Hcos Hshaft.
  pose proof (single_radiality_run a i m r ET0 ET shaft
                Htorque Hnet Hmesh Hsingle Hd Hcos Hshaft) as Hrun.
  cbn zeta in Hrun. rewrite Hrun. clear Hrun.
  eexists _, _. cbn zeta. split; [reflexivity|]. cbn [meshes self].
  split; [apply getitem_update_nth; exact Hmesh|].
  cbn [Mesh.set_F Mesh.set_F_a Mesh.set_F_r Mesh.set_F_t
       Mesh.F Mesh.F_t Mesh.F_r Mesh.F_a Force.force].
  split; [reflexivity|]. split; [reflexivity|]. split; [reflexivity|].
  split; [reflexivity|]. split; [reflexivity|].
  destruct (mesh_sign_cases (self a) m) as [[Hname ->]|[Hname ->]].
  - split; [unfold vneg, vadd, vscale; cbn [vx vy vz]; f_equal; ring|].
    split; [intros _; unfold vneg, vadd, vscale; cbn [vx vy vz];
            f_equal; ring|].
    split; intro Hother; contradiction.
  - split; [unfold vneg, vadd, vscale; cbn [vx vy vz]; f_equal; ring|].
    split; [intro Hsame; contradiction|].
    split.
    + intros _. unfold vneg, vadd, vsub, vscale. cbn [vx vy vz].
      f_equal; ring.
    + intros _ ->. rewrite np_sign_0.
      unfold vneg, vadd, vscale. cbn [vx vy vz]. f_equal; ring.
Qed.

Lemma driving_pinion_divisors :
  Gear.d (self driving_pinion) <> 0 /\ cos (Gear.psi (self driving_pinion)) <> 0.
Proof.
  split.
  - change (Gear.d (self driving_pinion)) with 40. lra.
  - change (Gear.psi (self driving_pinion)) with 0. rewrite cos_0. lra.
Qed.

Lemma C2_resultant_and_registered_force_witness :
  exists a' m',
    let g := self driving_pinion in
    let sign := mesh_sign g open_mesh in
    let F_t := vscale 1e3 (cross (mkvec 0 0 1)
                             (vscale (2 / Gear.d g) (mkvec 0 1 0))) in
    let F_r :=
      vscale (sign * sqrt (vsum (vmul F_t F_t)) * tan (Gear.phi_n g)
              / cos (Gear.psi g)) (mkvec 0 1 0) in
    let F_a :=
      vscale (np_sign (vsum (Component.axis z_shaft)) * np_sign (Gear.psi g))
             (vabs (cross (mkvec 0 1 0)
                      (vscale (tan (Rabs (Gear.psi g))) F_t))) in
    let v := vadd (vadd F_t F_r) F_a in
    calculateForces (H := by_value) (Some 0%nat) driving_pinion = (a', Ok tt)
    /\ getitem (meshes a') 0 = Ok m'
    /\ Force.force (Mesh.F_t m') = vscale sign F_t
    /\ Force.force (Mesh.F_r m') = vscale sign F_r
    /\ Force.force (Mesh.F_a m') = vneg F_a
    /\ Force.force (Mesh.F m')
       = vadd (vadd (Force.force (Mesh.F_t m')) (Force.force (Mesh.F_r m')))
              (Force.force (Mesh.F_a m'))
    /\ Gear.EFs (self a')
       = append_missing force_eq_by_value (Gear.EFs (self driving_pinion))
           [Force.mk v (Mesh.loc open_mesh)]
    /\ v = vadd (vadd (vscale sign (Force.force (Mesh.F_t m')))
                      (vscale sign (Force.force (Mesh.F_r m'))))
                (vneg (Force.force (Mesh.F_a m')))
    /\ (Gear.name (self driving_pinion) = Gear.name (Mesh.drivingGear open_mesh) ->
        v = vneg (Force.force (Mesh.F m')))
    /\ (Gear.name (self driving_pinion) <> Gear.name (Mesh.drivingGear open_mesh) ->
        v = vsub (Force.force (Mesh.F m'))
                 (vscale 2 (Force.force (Mesh.F_a m'))))
    /\ (Gear.name (self driving_pinion) <> Gear.name (Mesh.drivingGear open_mesh) ->
        Gear.psi (self driving_pinion) = 0 ->
        v = Force.force (Mesh.F m')).
Proof.
  apply (C2_resultant_and_registered_force (H := by_value) driving_pinion 0
           open_mesh (mkvec 0 1 0) (Torque.mk (mkvec 0 0 1) zeros)
           (mkvec 0 0 1) z_shaft);
    try reflexivity; apply driving_pinion_divisors.
Defined.

Lemma registered_on_empty `{Membership} (g : Gear.t) (ET : vec) (f : Force.t) :
  Gear.EFs g = [] ->
  Gear.EFs (Gear_updateEFs (set_first_torque ET g) [f]) = [f].
Proof.
  intro Hempty. unfold Gear.EFs in *. cbn. rewrite Hempty. reflexivity.
Qed.

(** C2 as stated fails: the gear "G1" of [driving_pinion] drives the mesh;
    the force it registers in its [EFs] has [-50] on [x], while the
    resultant stored on the mesh has [+50]. *)
Lemma C2_counterexample :
  snd (calculateForces (H := by_value) (Some 0%nat) driving_pinion) = Ok tt
  /\ map (fun f => vx (Force.force f))
         (Gear.EFs (self (fst (calculateForces (H := by_value) (Some 0%nat)
                                 driving_pinion))))
     = [-50]
  /\ map (fun mesh => vx (Force.force (Mesh.F mesh)))
         (meshes (fst (calculateForces (H := by_value) (Some 0%nat)
                         driving_pinion)))
     = [50].
Proof.
  pose proof (single_radiality_run (H := by_value) driving_pinion 0
                open_mesh (mkvec 0 1 0) (Torque.mk (mkvec 0 0 1) zeros)
                (mkvec 0 0 1) z_shaft eq_refl eq_refl eq_refl eq_refl
                (proj1 driving_pinion_divisors)
                (proj2 driving_pinion_divisors) eq_refl) as Hrun.
  cbn zeta in Hrun. rewrite Hrun. clear Hrun.
  change (Gear.d (self driving_pinion)) with 40.
  change (Gear.psi (self driving_pinion)) with 0.
  change (mesh_sign (self driving_pinion) open_mesh) with (-1).
  rewrite np_sign_0.
  split; [reflexivity|]. split.
  - cbn [fst self]. rewrite registered_on_empty by reflexivity.
    cbn [map Force.force]. unfold vadd, vscale, cross. cbn [vx vy vz].
    f_equal. rewrite !Rmult_0_r. lra.
  - cbn [fst meshes]. unfold driving_pinion. cbn [meshes update_nth map].
    cbn [Mesh.set_F Mesh.F Force.force].
    unfold vadd, vscale, vneg, cross. cbn [vx vy vz].
    f_equal. rewrite !Rmult_0_r. lra.
Qed.

(** ** The sample gears are what the constructor builds *)

Lemma ceil_IZR (k : Z) : ceil (IZR k) = k.
Proof.
  unfold ceil, Int_part. rewrite <- opp_IZR.
  rewrite <- (tech_up (IZR (- k)) (- k + 1)).
  - lia.
  - rewrite plus_IZR. lra.
  - rewrite plus_IZR. lra.
Qed.

Lemma spur_gear_built (name : string) :
  Gear.init name (mkvec 0 0 1) zeros 2 20 0 0 6 10 None = Ok (spur_gear name).
Proof.
  unfold Gear.init.
  replace (0 * PI / 180) with 0 by lra. rewrite cos_0, tan_0.
  replace (float_eq 0 0) with true by (symmetry; now apply float_eq_true).
  assert (H1 : 1 <> 0) by lra.
  assert (H3 : 1 ^ 3 <> 0) by (simpl; lra).
  repeat (first [rewrite (pydiv_ok _ 1 H1) | rewrite (pydiv_ok _ (1 ^ 3) H3)];
          cbn [rbind negb]).
  unfold spur_gear. f_equal.
  replace (20 / 1 ^ 3) with 20 by (simpl; lra).
  replace (0 / 1) with 0 by lra. rewrite Rmult_0_l, atan_0.
  pose proof (ceil_IZR 20) as Hc. rewrite Hc.
  f_equal; lra.
Qed.


(** [Gear.__init__] for a spur gear of module 2 and 30 degrees of
    pressure angle, up to the closing record. *)
Ltac run_constructor :=
  unfold Gear.init;
  replace (0 * PI / 180) with 0 by lra; rewrite cos_0, tan_0;
  replace (30 * PI / 180) with (PI / 6) by lra;
  replace (float_eq 0 0) with true by (symmetry; now apply float_eq_true);
  assert (H1 : 1 <> 0) by lra;
  assert (H3 : 1 ^ 3 <> 0) by (simpl; lra);
  repeat (first [rewrite (pydiv_ok _ 1 H1) | rewrite (pydiv_ok _ (1 ^ 3) H3)];
          cbn [rbind negb]);
  rewrite Rmult_0_l, atan_0;
  replace (tan (PI / 6) / 1) with (tan (PI / 6)) by lra;
  rewrite atan_tan by (pose proof PI_RGT_0; lra).

Lemma pinion_built :
  Gear.init "pinion" (mkvec 0 0 1) zeros 2 20 0 30 6 10 (Some steel) = Ok pinion.
Proof.
  run_constructor.
  replace (20 / 1 ^ 3) with 20 by (simpl; lra).
  pose proof (ceil_IZR 20) as Hc. rewrite Hc.
  apply f_equal. unfold pinion, steel_gear, Component.init. f_equal; lra.
Qed.

Lemma wheel_built :
  Gear.init "wheel" (mkvec 0 0 1) zeros 2 60 0 30 6 10 (Some steel) = Ok wheel.
Proof.
  run_constructor.
  replace (60 / 1 ^ 3) with 60 by (simpl; lra).
  pose proof (ceil_IZR 60) as Hc. rewrite Hc.
  apply f_equal. unfold wheel, steel_gear, Component.init. f_equal; lra.
Qed.

(** * Further properties *)

(** ** More on the dedup-append *)

Section MoreAppendMissing.
Context {A : Type} (eqb : A -> A -> bool).

Lemma contains_kept (arr new : list A) (e : A) :
  contains eqb arr e = true ->
  contains eqb (append_missing eqb arr new) e = true.
Proof.
  intro He. destruct (append_missing_grows eqb new arr) as (added & -> & _).
  rewrite contains_app, He. reflexivity.
Qed.

Lemma all_present_no_change (arr new : list A) :
  (forall e, In e new -> contains eqb arr e = true) ->
  append_missing eqb arr new = arr.
Proof.
  induction new as [|e new IH]; intro Hall; [reflexivity|].
  rewrite append_missing_cons, (Hall e (or_introl eq_refl)).
  apply IH. intros x Hx. apply Hall. now right.
Qed.

Lemma incoming_present_afterwards (new arr : list A) :
  (forall x, eqb x x = true) ->
  forall e, In e new -> contains eqb (append_missing eqb arr new) e = true.
Proof.
  intro Hrefl. revert arr. induction new as [|x new IH]; intros arr e Hin.
  - destruct Hin.
  - rewrite append_missing_cons. destruct Hin as [<-|Hin]; [|now apply IH].
    apply contains_kept. destruct (contains eqb arr x) eqn:Hx; [exact Hx|].
    rewrite contains_app, Hx. cbn. now rewrite Hrefl.
Qed.

Lemma append_missing_twice (arr new : list A) :
  (forall x, eqb x x = true) ->
  append_missing eqb (append_missing eqb arr new) new
  = append_missing eqb arr new.
Proof.
  intro Hrefl. apply all_present_no_change.
  intros e He. now apply incoming_present_afterwards.
Qed.

Lemma split_in_app (l1 l2 before after : list A) (e : A) :
  l1 ++ l2 = before ++ e :: after ->
  (exists rest, l1 = before ++ e :: rest)
  \/ (exists front, before = l1 ++ front /\ l2 = front ++ e :: after).
Proof.
  revert before. induction l1 as [|x l1 IH]; intros before Heq.
  - right. exists before. auto.
  - destruct before as [|b before]; cbn in Heq; injection Heq as -> Heq.
    + left. exists l1. reflexivity.
    + destruct (IH _ Heq) as [[rest ->]|(front & -> & ->)].
      * left. exists rest. reflexivity.
      * right. exists front. auto.
Qed.

Lemma append_missing_distinct (arr new : list A) :
  distinct eqb arr -> distinct eqb (append_missing eqb arr new).
Proof.
  intro Hd. destruct (append_missing_grows eqb new arr) as (added & -> & Hadd).
  intros before e after Hsplit.
  destruct (split_in_app _ _ _ _ _ Hsplit) as [[rest Harr]|(front & -> & Hfront)].
  - exact (Hd _ _ _ Harr).
  - exact (proj2 (Hadd _ _ _ Hfront)).
Qed.
End MoreAppendMissing.

Lemma float_eq_refl (a : R) : float_eq a a = true.
Proof. now apply float_eq_true. Qed.

Lemma force_eq_by_value_refl (f : Force.t) : force_eq_by_value f f = true.
Proof.
  unfold force_eq_by_value, all_eq. rewrite !float_eq_refl. reflexivity.
Qed.

(** X1: pushing two lists one after the other is pushing their
    concatenation, for forces and for torques. *)
Theorem X1_updates_compose `{Membership} (c : Component.t)
    (l1 l2 : list Force.t) (t1 t2 : list Torque.t) :
  Component.updateEFs (Component.updateEFs c l1) l2
  = Component.updateEFs c (l1 ++ l2)
  /\ Component.updateETs (Component.updateETs c t1) t2
     = Component.updateETs c (t1 ++ t2).
Proof.
  unfold Component.updateEFs, Component.updateETs. cbn.
  rewrite !append_missing_app. split; reflexivity.
Qed.

(** X2: when a force equals itself under the membership test, pushing
    the same list a second time changes nothing. *)
Theorem X2_update_twice_is_once `{Membership} (c : Component.t)
    (l : list Force.t) :
  (forall f, force_eq f f = true) ->
  Component.updateEFs (Component.updateEFs c l) l = Component.updateEFs c l.
Proof.
  intro Hrefl. unfold Component.updateEFs. cbn.
  now rewrite append_missing_twice.
Qed.

Lemma X2_update_twice_is_once_witness :
  Component.updateEFs (H := by_value)
    (Component.updateEFs (H := by_value) pulled_component [pull_back; pull_back])
    [pull_back; pull_back]
  = Component.updateEFs (H := by_value) pulled_component [pull_back; pull_back].
Proof.
  apply (X2_update_twice_is_once (H := by_value)).
  exact force_eq_by_value_refl.
Defined.

(** X3: if no stored force is found among the forces stored before it,
    that is still so after [updateEFs], whatever is pushed. *)
Theorem X3_update_keeps_forces_distinct `{Membership} (c : Component.t)
    (l : list Force.t) :
  distinct force_eq (Component.EFs c) ->
  distinct force_eq (Component.EFs (Component.updateEFs c l)).
Proof. intro Hd. cbn. now apply append_missing_distinct. Qed.

Lemma nothing_is_distinct {A} (eqb : A -> A -> bool) : distinct eqb [].
Proof. intros [|b before] e after Hsplit; discriminate Hsplit. Qed.

Lemma X3_update_keeps_forces_distinct_witness :
  distinct force_eq_by_value
    (Component.EFs
       (Component.updateEFs (H := by_value) z_shaft [pull_back; pull_back])).
Proof.
  apply (X3_update_keeps_forces_distinct (H := by_value) z_shaft).
  apply nothing_is_distinct.
Defined.

(** ** More on the constructor *)

(** Open the constructor along a run that returned a gear. *)
Ltac constructed H :=
  unfold Gear.init in H;
  repeat match type of H with
         | context [rbind (pydiv ?a ?b) _] =>
             let E := fresh "Hdiv" in
             destruct (pydiv a b) eqn:E; cbn [rbind] in H;
             [|discriminate H]
         | context [rbind (if ?c then _ else _) _] =>
             destruct c; cbn [rbind] in H
         end;
  injection H as <-.

(** X4: every gear the constructor returns has addendum [m_n], dedendum
    [1.25 m_n], tooth height their sum, and its tip and root diameters
    differ by twice the tooth height. *)
Theorem X4_tooth_heights (name : string) (axis loc : vec)
    (m_n z psi phi_n Q_v FW : R) (material : option Material.t) (g : Gear.t) :
  Gear.init name axis loc m_n z psi phi_n Q_v FW material = Ok g ->
  Gear.h_a g = m_n
  /\ Gear.h_f g = 1.25 * m_n
  /\ Gear.h g = Gear.h_a g + Gear.h_f g
  /\ Gear.d_a g - Gear.d_f g = 2 * (Gear.h_a g + Gear.h_f g)
  /\ Gear.d_a g = Gear.d g + 2 * m_n
  /\ Gear.d_f g = Gear.d g - 2.5 * m_n.
Proof.
  intro Hinit. constructed Hinit; cbn [Gear.h_a Gear.h_f Gear.h Gear.d_a
                                        Gear.d_f Gear.d];
    repeat split; lra.
Qed.

Lemma X4_tooth_heights_witness :
  Gear.h_a (spur_gear "G1") = 2
  /\ Gear.h_f (spur_gear "G1") = 1.25 * 2
  /\ Gear.h (spur_gear "G1") = Gear.h_a (spur_gear "G1") + Gear.h_f (spur_gear "G1")
  /\ Gear.d_a (spur_gear "G1") - Gear.d_f (spur_gear "G1")
     = 2 * (Gear.h_a (spur_gear "G1") + Gear.h_f (spur_gear "G1"))
  /\ Gear.d_a (spur_gear "G1") = Gear.d (spur_gear "G1") + 2 * 2
  /\ Gear.d_f (spur_gear "G1") = Gear.d (spur_gear "G1") - 2.5 * 2.
Proof.
  exact (X4_tooth_heights "G1" (mkvec 0 0 1) zeros 2 20 0 0 6 10 None
           (spur_gear "G1") (spur_gear_built "G1")).
Defined.

(** X5: a gear without helix angle comes out with the transverse values
    equal to the normal ones: [p_t = p_n], [m_t = m_n], [d = m_n z],
    [phi_t = phi_n], no axial pitch, no base helix angle, and a virtual
    tooth count that is [z] rounded up. *)
Theorem X5_spur_gear_geometry (name : string) (axis loc : vec)
    (m_n z phi_n Q_v FW : R) (material : option Material.t) :
  - PI / 2 < phi_n * PI / 180 < PI / 2 ->
  exists g,
    Gear.init name axis loc m_n z 0 phi_n Q_v FW material = Ok g
    /\ Gear.psi g = 0
    /\ Gear.p_n g = m_n * PI
    /\ Gear.p_t g = Gear.p_n g
    /\ Gear.p_x g = 0
    /\ Gear.m_t g = m_n
    /\ Gear.d g = m_n * z
    /\ Gear.phi_t g = Gear.phi_n g
    /\ Gear.phi_b g = 0
    /\ Gear.z_p g = ceil z.
Proof.
  intro Hphi. unfold Gear.init.
  replace (0 * PI / 180) with 0 by lra. rewrite cos_0, tan_0.
  rewrite float_eq_refl.
  assert (H1 : 1 <> 0) by lra.
  assert (H3 : 1 ^ 3 <> 0) by (simpl; lra).
  repeat (first [rewrite (pydiv_ok _ 1 H1) | rewrite (pydiv_ok _ (1 ^ 3) H3)];
          cbn [rbind negb]).
  eexists. split; [reflexivity|].
  cbn [Gear.psi Gear.p_n Gear.p_t Gear.p_x Gear.m_t Gear.d Gear.phi_t
       Gear.phi_n Gear.phi_b Gear.z_p].
  replace (z / 1 ^ 3) with z by (simpl; lra).
  replace (tan (phi_n * PI / 180) / 1) with (tan (phi_n * PI / 180)) by lra.
  rewrite atan_tan by lra. rewrite Rmult_0_l, atan_0.
  repeat split; lra.
Qed.

Lemma X5_spur_gear_geometry_witness :
  exists g,
    Gear.init "spur" (mkvec 0 0 1) zeros 2 20 0 30 6 10 None = Ok g
    /\ Gear.psi g = 0
    /\ Gear.p_n g = 2 * PI
    /\ Gear.p_t g = Gear.p_n g
    /\ Gear.p_x g = 0
    /\ Gear.m_t g = 2
    /\ Gear.d g = 2 * 20
    /\ Gear.phi_t g = Gear.phi_n g
    /\ Gear.phi_b g = 0
    /\ Gear.z_p g = ceil 20.
Proof.
  apply (X5_spur_gear_geometry "spur" (mkvec 0 0 1) zeros 2 20 30 6 10 None).
  pose proof PI_RGT_0. lra.
Defined.

Lemma ceil_upper (x : R) : x <= IZR (ceil x).
Proof.
  unfold ceil. rewrite opp_IZR.
  destruct (base_Int_part (- x)) as [Hle _]. lra.
Qed.

(** X6: for a helix angle whose cosine is positive and a tooth count that
    is not negative, the virtual tooth count of a constructed gear is at
    least the tooth count. *)
Theorem X6_virtual_teeth_not_fewer (name : string) (axis loc : vec)
    (m_n z psi phi_n Q_v FW : R) (material : option Material.t) (g : Gear.t) :
  Gear.init name axis loc m_n z psi phi_n Q_v FW material = Ok g ->
  0 < cos (psi * PI / 180) ->
  0 <= z ->
  z <= IZR (Gear.z_p g).
Proof.
  intros Hinit Hcos Hz.
  assert (Hbound : z <= z / cos (psi * PI / 180) ^ 3).
  { pose proof (COS_bound (psi * PI / 180)) as [_ Hle].
    set (c := cos (psi * PI / 180)) in *.
    assert (Hc3 : 0 < c ^ 3 <= 1).
    { simpl. split; [repeat apply Rmult_lt_0_compat; lra|]. nra. }
    apply (Rmult_le_reg_r (c ^ 3)); [lra|].
    unfold Rdiv. rewrite Rmult_assoc, Rinv_l by lra. nra. }
  constructed Hinit; cbn [Gear.z_p];
    match goal with
    | Hd : pydiv z _ = Ok ?q |- _ =>
        rewrite pydiv_ok in Hd by (apply pow_nonzero; lra);
        injection Hd as <-
    end;
    (eapply Rle_trans; [exact Hbound | apply ceil_upper]).
Qed.

Lemma X6_virtual_teeth_not_fewer_witness : 20 <= IZR (Gear.z_p (spur_gear "G1")).
Proof.
  apply (X6_virtual_teeth_not_fewer "G1" (mkvec 0 0 1) zeros 2 20 0 0 6 10 None
           (spur_gear "G1") (spur_gear_built "G1")).
  - replace (0 * PI / 180) with 0 by lra. rewrite cos_0. lra.
  - lra.
Defined.

(** ** Torque balance *)

Lemma vec_equal (a b : vec) :
  vx a = vx b -> vy a = vy b -> vz a = vz b -> a = b.
Proof. destruct a, b. cbn. intros -> -> ->. reflexivity. Qed.

Lemma within_tolerance_true (v : vec) :
  within_tolerance v = true
  <-> Rabs (vx v) <= 1e-3 /\ Rabs (vy v) <= 1e-3 /\ Rabs (vz v) <= 1e-3.
Proof.
  unfold within_tolerance. rewrite all_le_true. cbn. rewrite !Rmult_1_r. tauto.
Qed.

Section Sums.
Context {A : Type} (f : A -> vec).

Lemma sum_from (l : list A) (a : vec) :
  fold_left (fun acc x => vadd acc (f x)) l a
  = vadd a (fold_left (fun acc x => vadd acc (f x)) l zeros).
Proof.
  revert a. induction l as [|x l IH]; intro a; cbn [fold_left].
  - apply vec_equal; cbn; lra.
  - rewrite (IH (vadd a (f x))), (IH (vadd zeros (f x))).
    apply vec_equal; cbn; lra.
Qed.

Lemma difference_from (l : list A) (a : vec) :
  fold_left (fun acc x => vsub acc (f x)) l a
  = vsub a (fold_left (fun acc x => vadd acc (f x)) l zeros).
Proof.
  revert a. induction l as [|x l IH]; intro a; cbn [fold_left].
  - apply vec_equal; cbn; lra.
  - rewrite (IH (vsub a (f x))), (sum_from l (vadd zeros (f x))).
    apply vec_equal; cbn; lra.
Qed.

End Sums.

Lemma bind_on_self {A B} (m : M Gear.t A) (k : A -> M Assembly B)
    (a : Assembly) :
  bind (on_self m) k a
  = match m (self a) with
    | (g, Ok x) => k x (set_self a g)
    | (g, Err e) => (set_self a g, Err e)
    end.
Proof. unfold bind, on_self. destruct (m (self a)) as [g [x|e]]; reflexivity. Qed.

Section TorqueBalance.
Context `{Membership}.

(** The torque [calculateTorque] stores on a gear that has none. *)
Lemma calculateTorque_run (g : Gear.t) (p : vec) :
  Component.abs_loc (Gear.comp g) = Some p ->
  Gear.ETs g = [] ->
  exists T,
    calculateTorque g = (Gear_updateETs g [T], Ok tt)
    /\ Gear.ETs (Gear_updateETs g [T]) = [T]
    /\ Gear.EFs (Gear_updateETs g [T]) = Gear.EFs g
    /\ Torque.loc T = p
    /\ Torque.torque T
       = vneg (fold_left
                 (fun acc EF =>
                    vadd acc
                      (Force.moment EF p (Component.axis (Gear.comp g))))
                 (Gear.EFs g) zeros).
Proof.
  intros Hloc Hnone. unfold calculateTorque, self_abs_loc. rewrite Hloc.
  eexists. split; [reflexivity|].
  split; [unfold Gear.ETs in *; cbn; rewrite Hnone; reflexivity|].
  split; [reflexivity|]. split; [reflexivity|].
  cbn [Torque.torque].
  rewrite (difference_from
             (fun EF => Force.moment EF p (Component.axis (Gear.comp g)))
             (Gear.EFs g) zeros).
  apply vec_equal; cbn; lra.
Qed.

(** With its location known, the check returns. *)
Lemma check_returns (g : Gear.t) (p : vec) :
  Component.abs_loc (Gear.comp g) = Some p ->
  exists b, checkTorqueEquilibrium g = Ok b.
Proof.
  intro Hloc. unfold checkTorqueEquilibrium, over_moments, self_abs_loc.
  rewrite Hloc.
  destruct (Gear.EFs g), (Gear.ETs g); cbn [rbind]; eauto.
Qed.

(** X7: on a mounted gear without torque, [calculateTorque] stores
    exactly one torque, located at the gear, and leaves the forces as
    they are; the torque is the opposite of the sum of the moments of
    the gear's forces about its location, whatever those forces are. *)
Theorem X7_calculateTorque_balances (g : Gear.t) (p : vec) :
  Component.abs_loc (Gear.comp g) = Some p ->
  Gear.ETs g = [] ->
  exists T,
    calculateTorque g = (Gear_updateETs g [T], Ok tt)
    /\ Gear.ETs (Gear_updateETs g [T]) = [T]
    /\ Gear.EFs (Gear_updateETs g [T]) = Gear.EFs g
    /\ Torque.loc T = p
    /\ Torque.torque T
       = vneg (fold_left
                 (fun acc EF =>
                    vadd acc
                      (Force.moment EF p (Component.axis (Gear.comp g))))
                 (Gear.EFs g) zeros).
Proof. exact (calculateTorque_run g p). Qed.
End TorqueBalance.

Lemma X7_calculateTorque_balances_witness :
  exists T,
    calculateTorque (H := by_value) mounted_gear
    = (Gear_updateETs (H := by_value) mounted_gear [T], Ok tt)
    /\ Gear.ETs (Gear_updateETs (H := by_value) mounted_gear [T]) = [T]
    /\ Gear.EFs (Gear_updateETs (H := by_value) mounted_gear [T])
       = Gear.EFs mounted_gear
    /\ Torque.loc T = zeros
    /\ Torque.torque T
       = vneg (fold_left
                 (fun acc EF =>
                    vadd acc
                      (Force.moment EF zeros
                         (Component.axis (Gear.comp mounted_gear))))
                 (Gear.EFs mounted_gear) zeros).
Proof.
  apply (X7_calculateTorque_balances (H := by_value) mounted_gear zeros);
    reflexivity.
Defined.

(** ** More on solve *)

(** Straight-line statements of a method of the assembly. *)
Ltac flow :=
  repeat first [ rewrite bind_bind | rewrite bind_get | rewrite bind_modify
               | rewrite bind_lift_ok
               | match goal with
                 | |- context [bind (ret ?x) ?k ?s] =>
                     change (bind (ret x) k s) with (k x s); cbv beta
                 end ].

Section SolveBranches.
Context `{Membership}.

(** X8: when the gear already passes its torque-equilibrium check,
    [solve] says there is nothing to solve and changes nothing: the gear,
    its meshes and the shaft are returned as they were. *)
Theorem X8_solve_leaves_balanced_gear (a : Assembly) :
  meshes a <> [] ->
  checkTorqueEquilibrium (self a) = Ok true ->
  solve a = (a, Ok NothingToSolve).
Proof.
  intros Hm Hbal. unfold solve, bind, get.
  destruct (meshes a) as [|m0 rest]; [contradiction|].
  unfold lift. rewrite Hbal. reflexivity.
Qed.

(** A check that raises stops [solve] before anything is changed. *)
Lemma solve_check_raises (a : Assembly) (e : pyerror) :
  meshes a <> [] ->
  checkTorqueEquilibrium (self a) = Err e ->
  solve a = (a, Err e).
Proof.
  intros Hm Hbal. unfold solve, bind, get.
  destruct (meshes a) as [|m0 rest]; [contradiction|].
  unfold lift. rewrite Hbal. reflexivity.
Qed.

(** X9: with no torque on the gear and every mesh resolved, [solve]
    merges the mesh forces into the gear's [EFs], stores the one torque
    that is the opposite of the sum of their moments, pushes it to the
    shaft and ends with its closing equilibrium check, whose verdict is
    what it reports; the meshes are untouched and the shaft's forces
    too. *)
Theorem X9_solve_finds_the_torque (a : Assembly) (p : vec)
    (shaft : Component.t) :
  meshes a <> [] ->
  checkTorqueEquilibrium (self a) = Ok false ->
  Gear.ETs (self a) = [] ->
  force_unknowns (meshes a) = 0%nat ->
  Component.abs_loc (Gear.comp (self a)) = Some p ->
  onShaft a = Some shaft ->
  exists T b,
    let g1 := Gear_updateEFs (self a) (known_forces (self a) (meshes a)) in
    solve a
    = (mkAssembly (Gear_updateETs g1 [T]) (meshes a)
         (Some (Component.updateETs shaft [T])),
       Ok (TorqueSolved b))
    /\ checkTorqueEquilibrium (Gear_updateETs g1 [T]) = Ok b
    /\ Gear.ETs (Gear_updateETs g1 [T]) = [T]
    /\ Torque.loc T = p
    /\ Torque.torque T
       = vneg (fold_left
                 (fun acc EF =>
                    vadd acc
                      (Force.moment EF p (Component.axis (Gear.comp g1))))
                 (Gear.EFs g1) zeros).
Proof.
  intros Hm Hbal Hnone Hknown Hloc Hshaft.
  set (g1 := Gear_updateEFs (self a) (known_forces (self a) (meshes a))).
  destruct (calculateTorque_run g1 p Hloc Hnone)
    as (T & Hrun & HETs & _ & HTloc & HT).
  destruct (check_returns (Gear_updateETs g1 [T]) p Hloc) as [b Hcheck].
  exists T, b. cbn zeta. fold g1.
  split; [|repeat split; assumption].
  unfold solve. rewrite bind_get.
  destruct (meshes a) as [|m0 rest] eqn:Hms; [contradiction|].
  unfold bind at 1. unfold lift at 1. rewrite Hbal. cbn [negb].
  destruct (classify_spec (m0 :: rest) (self a) 0 0 None) as [um Hcl].
  rewrite Hcl, Hknown. fold g1.
  assert (Hone : torque_unknowns (self a) = 1%nat)
    by (unfold torque_unknowns; now rewrite Hnone).
  rewrite Hone. cbn [Nat.add Nat.ltb Nat.leb Nat.eqb].
  flow. rewrite bind_on_self. cbn [set_self self]. rewrite Hrun.
  flow. unfold shaft_of at 1. cbn [set_self onShaft]. rewrite Hshaft.
  flow. cbn [set_onShaft set_self self meshes onShaft].
  rewrite Hcheck, HETs. flow. unfold ret.
  unfold set_onShaft, set_self. cbn [self meshes onShaft].
  rewrite Hms. reflexivity.
Qed.
End SolveBranches.

Lemma resting_balanced : checkTorqueEquilibrium (self resting) = Ok true.
Proof.
  unfold checkTorqueEquilibrium, resting, over_moments.
  cbn [self Gear.EFs Gear.ETs Gear.set_comp Gear.comp Component.set_ETs
       Component.EFs Component.ETs spur_gear Component.init fold_left
       Torque.torque rbind].
  f_equal. apply within_tolerance_true. cbn.
  replace (0 + 0) with 0 by lra. rewrite Rabs_R0. lra.
Qed.

Lemma X8_solve_leaves_balanced_gear_witness :
  solve (H := by_value) resting = (resting, Ok NothingToSolve).
Proof.
  apply (X8_solve_leaves_balanced_gear (H := by_value) resting).
  - discriminate.
  - exact resting_balanced.
Defined.

Lemma loaded_idler_known : force_unknowns (meshes loaded_idler) = 0%nat.
Proof.
  unfold force_unknowns, loaded_idler. cbn [meshes filter].
  rewrite resolved_mesh_known. reflexivity.
Qed.

Lemma X9_solve_finds_the_torque_witness :
  exists T b,
    let g1 := Gear_updateEFs (H := by_value) (self loaded_idler)
                (known_forces (self loaded_idler) (meshes loaded_idler)) in
    solve (H := by_value) loaded_idler
    = (mkAssembly (Gear_updateETs (H := by_value) g1 [T]) (meshes loaded_idler)
         (Some (Component.updateETs (H := by_value) z_shaft [T])),
       Ok (TorqueSolved b))
    /\ checkTorqueEquilibrium (Gear_updateETs (H := by_value) g1 [T]) = Ok b
    /\ Gear.ETs (Gear_updateETs (H := by_value) g1 [T]) = [T]
    /\ Torque.loc T = zeros
    /\ Torque.torque T
       = vneg (fold_left
                 (fun acc EF =>
                    vadd acc
                      (Force.moment EF zeros
                         (Component.axis (Gear.comp g1))))
                 (Gear.EFs g1) zeros).
Proof.
  apply (X9_solve_finds_the_torque (H := by_value) loaded_idler zeros z_shaft);
    try reflexivity.
  - discriminate.
  - exact loaded_idler_known.
Defined.

(** ** What calculateForces touches *)

Section Preserving.
Context {S : Type} (P : S -> Prop).

Lemma preserves_ret {A} (x : A) : preserves P (ret x).
Proof. intros s Hs. exact Hs. Qed.

Lemma preserves_raise {A} (e : pyerror) : preserves P (@raise S A e).
Proof. intros s Hs. exact Hs. Qed.

Lemma preserves_lift {A} (r : result A) : preserves P (lift r).
Proof. intros s Hs. exact Hs. Qed.


Lemma preserves_bind {A B} (m : M S A) (k : A -> M S B) :
  preserves P m -> (forall x, preserves P (k x)) -> preserves P (bind m k).
Proof.
  intros Hm Hk s Hs. unfold bind. specialize (Hm s Hs).
  destruct (m s) as [s' [x|e]]; cbn in *; [now apply Hk | exact Hm].
Qed.


Lemma preserves_bind_get {B} (k : S -> M S B) :
  (forall s0, P s0 -> preserves P (k s0)) -> preserves P (bind get k).
Proof. intros Hk s Hs. rewrite bind_get. now apply (Hk s). Qed.
End Preserving.











Section Frame.
Context `{Membership}.




End Frame.

(** ** Directions and edge cases of calculateForces *)



Section ForceDirections.
Context `{Membership}.

(** X11: on the single-radiality path the tangential force stored on the
    mesh is perpendicular to the radiality vector and to the net torque,
    the radial force lies along the radiality vector, and a gear without
    helix angle gets no axial force. *)
Theorem X11_force_directions (a : Assembly) (i : nat) (m : Mesh.t) (r : vec)
    (ET0 : Torque.t) (ET : vec) (shaft : Component.t) :
  getitem (Gear.ETs (self a)) 0 = Ok ET0 ->
  over_moments vsub (self a) (Torque.torque ET0) = Ok ET ->
  getitem (meshes a) (Z.of_nat i) = Ok m ->
  Mesh.radiality m = [r] ->
  Gear.d (self a) <> 0 ->
  cos (Gear.psi (self a)) <> 0 ->
  onShaft a = Some shaft ->
  exists a' m',
    calculateForces (Some i) a = (a', Ok tt)
    /\ getitem (meshes a') (Z.of_nat i) = Ok m'
    /\ dot (Force.force (Mesh.F_t m')) r = 0
    /\ dot (Force.force (Mesh.F_t m')) ET = 0
    /\ (exists c, Force.force (Mesh.F_r m') = vscale c r)
    /\ (Gear.psi (self a) = 0 -> Force.force (Mesh.F_a m') = zeros).
Proof.
  intros Htorque Hnet Hmesh Hsingle Hd Hcos Hshaft.
  pose proof (single_radiality_run a i m r ET0 ET shaft
                Htorque Hnet Hmesh Hsingle Hd Hcos Hshaft) as Hrun.
  cbn zeta in Hrun. rewrite Hrun. clear Hrun.
  eexists _, _. split; [reflexivity|]. cbn [meshes].
  split; [apply getitem_update_nth; exact Hmesh|].
  cbn [Mesh.set_F Mesh.set_F_a Mesh.set_F_r Mesh.set_F_t Mesh.F_t Mesh.F_r
       Mesh.F_a Force.force].
  split; [unfold dot, vscale, cross; cbn [vx vy vz]; ring|].
  split; [unfold dot, vscale, cross; cbn [vx vy vz]; ring|].
  split.
  - eexists. apply vec_equal; unfold vscale; cbn [vx vy vz];
      rewrite <- Rmult_assoc; reflexivity.
  - intros ->. rewrite np_sign_0. apply vec_equal; cbn; ring.
Qed.

(** X12: on a gear without any torque [calculateForces] raises
    [IndexError] at once, whatever mesh it is given, and changes
    nothing. *)
Theorem X12_calculateForces_needs_a_torque (a : Assembly) (mesh : option nat) :
  Gear.ETs (self a) = [] ->
  calculateForces mesh a = (a, Err IndexError).
Proof.
  intro Hnone. unfold calculateForces. rewrite bind_get, Hnone.
  reflexivity.
Qed.

End ForceDirections.

Lemma X11_force_directions_witness :
  exists a' m',
    calculateForces (H := by_value) (Some 0%nat) driving_pinion = (a', Ok tt)
    /\ getitem (meshes a') 0 = Ok m'
    /\ dot (Force.force (Mesh.F_t m')) (mkvec 0 1 0) = 0
    /\ dot (Force.force (Mesh.F_t m')) (mkvec 0 0 1) = 0
    /\ (exists c, Force.force (Mesh.F_r m') = vscale c (mkvec 0 1 0))
    /\ (Gear.psi (self driving_pinion) = 0 ->
        Force.force (Mesh.F_a m') = zeros).
Proof.
  apply (X11_force_directions (H := by_value) driving_pinion 0
           open_mesh (mkvec 0 1 0) (Torque.mk (mkvec 0 0 1) zeros)
           (mkvec 0 0 1) z_shaft);
    try reflexivity; apply driving_pinion_divisors.
Defined.

Lemma X12_calculateForces_needs_a_torque_witness :
  calculateForces (H := by_value) (Some 0%nat) idle_between
  = (idle_between, Err IndexError).
Proof.
  apply (X12_calculateForces_needs_a_torque (H := by_value)). reflexivity.
Defined.


(** ** Inside the sampled range *)

(** X14: for a query between the first and the last sample, ends
    included, the closure returns the value of the cubic interpolant
    unchanged. *)
Theorem X14_no_extrapolation_inside (x y_vals : list R) (akima : R -> R)
    (x0 xl xq : R) :
  getitem x 0 = Ok x0 ->
  getitem x (-1) = Ok xl ->
  x0 <= xq <= xl ->
  Makima2DInterpolator.extrap x y_vals akima xq = Ok (akima xq).
Proof.
  intros Hx0 Hxl [Hlo Hhi]. unfold Makima2DInterpolator.extrap.
  rewrite Hx0. cbn [rbind].
  replace (float_lt xq x0) with false by (symmetry; now apply float_lt_false).
  cbn [rbind]. rewrite Hxl. cbn [rbind].
  replace (float_lt xl xq) with false by (symmetry; now apply float_lt_false).
  reflexivity.
Qed.

Lemma X14_no_extrapolation_inside_witness :
  Makima2DInterpolator.extrap [0; 1; 2] [1; 3; 4] (fun q => 2 * q) 1.5
  = Ok (2 * 1.5).
Proof.
  apply (X14_no_extrapolation_inside [0; 1; 2] [1; 3; 4] (fun q => 2 * q) 0 2);
    [reflexivity | reflexivity | lra].
Defined.

(** ** Attributes a method leaves alone *)

Lemma keeps_attr_setattr (key k : string) (v w : R) :
  key <> k ->
  preserves (fun g => lookup key (Gear.attrs g) = Some v) (setattr k w).
Proof.
  intros Hk g Hg. cbn. apply String.eqb_neq in Hk. now rewrite Hk.
Qed.

Lemma keeps_missing_setattr (key k : string) (w : R) :
  key <> k ->
  preserves (fun g => lookup key (Gear.attrs g) = None) (setattr k w).
Proof.
  intros Hk g Hg. cbn. apply String.eqb_neq in Hk. now rewrite Hk.
Qed.

Lemma preserves_getattr (P : Gear.t -> Prop) (k : string) :
  preserves P (getattr k).
Proof.
  intros g Hg. unfold getattr. destruct (lookup k (Gear.attrs g)); exact Hg.
Qed.

(** One statement of a method of the gear, for an attribute that no
    later statement assigns. *)
Ltac attr_step :=
  lazymatch goal with
  | |- preserves _ (ret _) => apply preserves_ret
  | |- preserves _ (raise _) => apply preserves_raise
  | |- preserves _ (lift _) => apply preserves_lift
  | |- preserves _ (getattr _) => apply preserves_getattr
  | |- preserves _ (setattr _ _) =>
      first [ apply keeps_attr_setattr; discriminate
            | apply keeps_missing_setattr; discriminate ]
  | |- preserves _ (bind get _) => apply preserves_bind_get; intros ? ?
  | |- preserves _ (bind _ _) => apply preserves_bind; [|intro]
  | |- preserves _ (if ?c then _ else _) => destruct c
  | |- preserves _ _ => progress cbv zeta
  end.

(** ** More on the contact stress *)

Lemma starts_in {S A} (P : S -> Prop) (m : M S A) (s : S) :
  preserves P m -> P s -> P (fst (m s)).
Proof. intros Hm Hs. now apply Hm. Qed.

Lemma material_index_range (name : string) (i : nat) :
  material_index name = Some i ->
  (i = 1 \/ i = 2 \/ i = 3 \/ i = 4 \/ i = 5 \/ i = 6)%nat.
Proof.
  unfold material_index.
  repeat match goal with
         | |- context [String.eqb name ?s] => destruct (String.eqb name s)
         end;
    intro E; try discriminate E; injection E as <-; tauto.
Qed.

Lemma ZE_ref_symmetric (i j : nat) :
  (i = 1 \/ i = 2 \/ i = 3 \/ i = 4 \/ i = 5 \/ i = 6)%nat ->
  (j = 1 \/ j = 2 \/ j = 3 \/ j = 4 \/ j = 5 \/ j = 6)%nat ->
  nth (j - 1) (nth (i - 1) ZE_ref []) 0 = nth (i - 1) (nth (j - 1) ZE_ref []) 0.
Proof.
  intros Hi Hj.
  repeat (destruct Hi as [->|Hi]); try subst i;
    repeat (destruct Hj as [->|Hj]); try subst j; reflexivity.
Qed.

(** The elastic coefficient is there as soon as both materials have been
    recognised, however the call goes on. *)
Lemma Z_E_assigned (g : Gear.t) (mesh : Mesh.t) (Z_R : R)
    (pm gm : Material.t) (i j : nat) :
  Component.material (Gear.comp (Mesh.drivingGear mesh)) = Some pm ->
  material_index (Material.name pm) = Some i ->
  Component.material (Gear.comp (Mesh.drivenGear mesh)) = Some gm ->
  material_index (Material.name gm) = Some j ->
  lookup "Z_E" (Gear.attrs (fst (calculateSigmaMaxPitting mesh Z_R g)))
  = Some (nth (j - 1) (nth (i - 1) ZE_ref []) 0).
Proof.
  intros Hpm Hi Hgm Hj.
  unfold calculateSigmaMaxPitting, material_name, index_or.
  rewrite Hpm, bind_lift_ok, Hi, bind_lift_ok, Hgm, bind_lift_ok, Hj,
    bind_lift_ok.
  unfold bind at 1. cbn [setattr modify].
  apply (starts_in (fun g => lookup "Z_E" (Gear.attrs g) = Some _)).
  - repeat attr_step.
  - reflexivity.
Qed.

(** X17: the elastic coefficient does not depend on which of the two
    gears drives: exchanging the materials of pinion and wheel stores the
    same [Z_E]. *)
Theorem X17_elastic_coefficient_symmetric (g : Gear.t) (mesh : Mesh.t)
    (Z_R : R) :
  listed_material (Mesh.drivingGear mesh) ->
  listed_material (Mesh.drivenGear mesh) ->
  exists Z_E,
    lookup "Z_E" (Gear.attrs (fst (calculateSigmaMaxPitting mesh Z_R g)))
    = Some Z_E
    /\ lookup "Z_E"
         (Gear.attrs (fst (calculateSigmaMaxPitting (swapped mesh) Z_R g)))
       = Some Z_E.
Proof.
  intros (pm & i & Hpm & Hi) (gm & j & Hgm & Hj).
  eexists. split.
  - exact (Z_E_assigned g mesh Z_R pm gm i j Hpm Hi Hgm Hj).
  - rewrite (Z_E_assigned g (swapped mesh) Z_R gm pm j i Hgm Hj Hpm Hi).
    f_equal. apply ZE_ref_symmetric; eapply material_index_range; eassumption.
Qed.

Lemma X17_elastic_coefficient_symmetric_witness :
  exists Z_E,
    lookup "Z_E"
      (Gear.attrs (fst (calculateSigmaMaxPitting (pair "External") 1 pinion)))
    = Some Z_E
    /\ lookup "Z_E"
         (Gear.attrs
            (fst (calculateSigmaMaxPitting (swapped (pair "External")) 1 pinion)))
       = Some Z_E.
Proof.
  apply (X17_elastic_coefficient_symmetric pinion (pair "External") 1);
    apply pair_listed.
Defined.

(** X18: a material that is not on the list stops the call with the
    [ValueError] of the gear it belongs to, the pinion being looked at
    first, and a gear without material stops it with [AttributeError];
    in every case the gear is returned as it was. *)
Theorem X18_unlisted_material_rejected (g : Gear.t) (mesh : Mesh.t) (Z_R : R) :
  (Component.material (Gear.comp (Mesh.drivingGear mesh)) = None ->
   calculateSigmaMaxPitting mesh Z_R g = (g, Err (AttributeError "name")))
  /\ (forall pm,
        Component.material (Gear.comp (Mesh.drivingGear mesh)) = Some pm ->
        material_index (Material.name pm) = None ->
        calculateSigmaMaxPitting mesh Z_R g
        = (g, Err (ValueError "Wrong input for pinion material.")))
  /\ (forall gm,
        listed_material (Mesh.drivingGear mesh) ->
        Component.material (Gear.comp (Mesh.drivenGear mesh)) = Some gm ->
        material_index (Material.name gm) = None ->
        calculateSigmaMaxPitting mesh Z_R g
        = (g, Err (ValueError "Wrong input for gear material."))).
Proof.
  unfold calculateSigmaMaxPitting, material_name, index_or.
  split; [|split].
  - intros ->. reflexivity.
  - intros pm -> Hi. rewrite bind_lift_ok, Hi. reflexivity.
  - intros gm (pm & i & Hpm & Hi) Hgm Hj.
    rewrite Hpm, bind_lift_ok, Hi, bind_lift_ok, Hgm, bind_lift_ok, Hj.
    reflexivity.
Qed.

Lemma X18_unlisted_material_rejected_witness :
  calculateSigmaMaxPitting brass_pair 1 wheel
  = (wheel, Err (ValueError "Wrong input for pinion material.")).
Proof.
  exact (proj1 (proj2 (X18_unlisted_material_rejected wheel brass_pair 1))
           (Material.mk "Brass" 120) eq_refl eq_refl).
Defined.

(** X16: the contact stress needs the factors of the bending pass.  On a
    gear that has no [K_0], a call that gets past the materials, the
    contact geometry and the mesh type raises [AttributeError] on [K_0]:
    [Z_E], [m_N] and [Z_I] have been assigned by then, the stress has
    not. *)
Theorem X16_contact_stress_needs_bending_factors (g : Gear.t) (mesh : Mesh.t)
    (Z_R : R) :
  listed_material (Mesh.drivingGear mesh) ->
  listed_material (Mesh.drivenGear mesh) ->
  contact_length g mesh <> 0 ->
  load_sharing_ratio g mesh <> 0 ->
  (Mesh.type mesh = "External"%string /\ Mesh.m_G mesh + 1 <> 0)
  \/ (Mesh.type mesh = "Internal"%string /\ Mesh.m_G mesh - 1 <> 0) ->
  lookup "K_0" (Gear.attrs g) = None ->
  let (g', r) := calculateSigmaMaxPitting mesh Z_R g in
  r = Err (AttributeError "K_0")
  /\ lookup "sigma_max_pitting" (Gear.attrs g')
     = lookup "sigma_max_pitting" (Gear.attrs g)
  /\ lookup "Z_E" (Gear.attrs g') <> None
  /\ lookup "m_N" (Gear.attrs g') = Some (load_sharing_ratio g mesh)
  /\ lookup "Z_I" (Gear.attrs g') <> None.
Proof.
  intros (pm & i & Hpm & Hi) (gm & j & Hgm & Hj) HZ HmN Htype HK0.
  unfold calculateSigmaMaxPitting, material_name, index_or.
  rewrite Hpm; run; rewrite Hi; run; rewrite Hgm; run; rewrite Hj; run.
  fold (contact_length g mesh). rewrite (pydiv_ok _ _ HZ). run.
  fold (load_sharing_ratio g mesh).
  destruct Htype as [[-> HmG]|[-> HmG]]; run;
    rewrite (pydiv_ok _ _ HmN); run; rewrite (pydiv_ok _ _ HmG); run;
    rewrite HK0; repeat split; discriminate.
Qed.

Lemma X16_contact_stress_needs_bending_factors_witness :
  snd (calculateSigmaMaxPitting (pair "External") 1 pinion)
  = Err (AttributeError "K_0").
Proof.
  pose proof (X16_contact_stress_needs_bending_factors pinion
                (pair "External") 1
                (proj1 pair_listed) (proj2 pair_listed)
                (Rgt_not_eq _ _ (pair_contact_length_positive "External"))
                (Rgt_not_eq _ _ (pair_load_sharing_positive "External")))
    as Hx.
  destruct (calculateSigmaMaxPitting (pair "External") 1 pinion) as [g' r].
  apply Hx.
  - left. split; [reflexivity | cbn [pair Mesh.m_G]; lra].
  - reflexivity.
Defined.

(** ** The wear safety factor *)

Lemma hardness_coefficient_range (ratio : R) :
  0 <= hardness_coefficient ratio <= 0.00698.
Proof.
  unfold hardness_coefficient.
  destruct (float_lt ratio 1.2) eqn:Hlow; [lra|].
  destruct (float_le 1.2 ratio && float_le ratio 1.7) eqn:Hmid; [|lra].
  apply andb_true_iff in Hmid as [Hlo Hhi].
  apply float_le_true in Hlo, Hhi. lra.
Qed.

Lemma hardness_coefficient_soft (ratio : R) :
  ratio < 1.2 -> hardness_coefficient ratio = 0.
Proof.
  intro Hlow. unfold hardness_coefficient.
  replace (float_lt ratio 1.2) with true by (symmetry; now apply float_lt_true).
  reflexivity.
Qed.

(** The hardness factor is there once both hardnesses have been read and
    divided, however the call goes on. *)
Lemma Z_W_assigned (g : Gear.t) (mesh : Mesh.t) (sigma_HP b_ZN e_ZN N p : R)
    (pm gm : Material.t) :
  pypow N e_ZN = Ok p ->
  Component.material (Gear.comp (Mesh.drivingGear mesh)) = Some pm ->
  Component.material (Gear.comp (Mesh.drivenGear mesh)) = Some gm ->
  Material.HB gm <> 0 ->
  lookup "Z_W"
    (Gear.attrs (fst (calculateWearSF sigma_HP b_ZN e_ZN N mesh g)))
  = Some (1 + hardness_coefficient (Material.HB pm / Material.HB gm)
              * (Mesh.m_G mesh - 1)).
Proof.
  intros Hp Hpm Hgm HHB. unfold calculateWearSF, material_HB.
  rewrite Hpm, Hgm. run. rewrite Hp. run. rewrite (pydiv_ok _ _ HHB). run.
  forget_attrs g; reflexivity.
Qed.

(** X19: when the power [N ** e_ZN] has a value and the gear ratio is at
    least one, the hardness-ratio factor stored by [calculateWearSF] is
    never below 1 and never above [1 + 0.00698 (m_G - 1)]; it is exactly
    1 when the pinion is less than 1.2 times as hard as the wheel. *)
Theorem X19_hardness_factor_range (g : Gear.t) (mesh : Mesh.t)
    (sigma_HP b_ZN e_ZN N p : R) (pm gm : Material.t) :
  pypow N e_ZN = Ok p ->
  Component.material (Gear.comp (Mesh.drivingGear mesh)) = Some pm ->
  Component.material (Gear.comp (Mesh.drivenGear mesh)) = Some gm ->
  Material.HB gm <> 0 ->
  1 <= Mesh.m_G mesh ->
  exists Z_W,
    lookup "Z_W"
      (Gear.attrs (fst (calculateWearSF sigma_HP b_ZN e_ZN N mesh g)))
    = Some Z_W
    /\ 1 <= Z_W <= 1 + 0.00698 * (Mesh.m_G mesh - 1)
    /\ (Material.HB pm / Material.HB gm < 1.2 -> Z_W = 1).
Proof.
  intros Hp Hpm Hgm HHB HmG. eexists. split.
  - exact (Z_W_assigned g mesh sigma_HP b_ZN e_ZN N p pm gm Hp Hpm Hgm HHB).
  - pose proof (hardness_coefficient_range (Material.HB pm / Material.HB gm))
      as [Hlo Hhi].
    split; [split; nra|].
    intro Hsoft. rewrite (hardness_coefficient_soft _ Hsoft). lra.
Qed.

Lemma X19_hardness_factor_range_witness :
  exists Z_W,
    lookup "Z_W"
      (Gear.attrs (fst (calculateWearSF 1000 1 0 1 (pair "External") pinion)))
    = Some Z_W
    /\ 1 <= Z_W <= 1 + 0.00698 * (Mesh.m_G (pair "External") - 1)
    /\ (Material.HB steel / Material.HB steel < 1.2 -> Z_W = 1).
Proof.
  apply (X19_hardness_factor_range pinion (pair "External") 1000 1 0 1
           (Rpower 1 0) steel steel); try reflexivity.
  - apply pypow_pos. lra.
  - cbn [steel Material.HB]. lra.
  - cbn [pair Mesh.m_G]. lra.
Defined.

(** X20: the wear safety factor reuses the temperature and reliability
    factors of the bending pass.  On a gear that has its contact stress
    but no [Y_theta], a call whose power [N ** e_ZN] has a value raises
    [AttributeError] on [Y_theta] and stores no [wearSF]. *)
Theorem X20_wear_factor_needs_bending_pass (g : Gear.t) (mesh : Mesh.t)
    (sigma_HP b_ZN e_ZN N p s : R) (pm gm : Material.t) :
  pypow N e_ZN = Ok p ->
  Component.material (Gear.comp (Mesh.drivingGear mesh)) = Some pm ->
  Component.material (Gear.comp (Mesh.drivenGear mesh)) = Some gm ->
  Material.HB gm <> 0 ->
  lookup "sigma_max_pitting" (Gear.attrs g) = Some s ->
  lookup "Y_theta" (Gear.attrs g) = None ->
  let (g', r) := calculateWearSF sigma_HP b_ZN e_ZN N mesh g in
  r = Err (AttributeError "Y_theta")
  /\ lookup "wearSF" (Gear.attrs g') = lookup "wearSF" (Gear.attrs g).
Proof.
  intros Hp Hpm Hgm HHB Hs Htheta. unfold calculateWearSF, material_HB.
  rewrite Hpm, Hgm. run. rewrite Hp. run. rewrite (pydiv_ok _ _ HHB). run.
  rewrite Hs. run. rewrite Htheta. split; reflexivity.
Qed.

Lemma X20_wear_factor_needs_bending_pass_witness :
  snd (calculateWearSF 1000 1 0 1 (pair "External") pitted_pinion)
  = Err (AttributeError "Y_theta").
Proof.
  pose proof (X20_wear_factor_needs_bending_pass pitted_pinion
                (pair "External") 1000 1 0 1 (Rpower 1 0) 500 steel steel
                (pypow_pos 1 0 Rlt_0_1) eq_refl eq_refl) as Hx.
  destruct (calculateWearSF 1000 1 0 1 (pair "External") pitted_pinion)
    as [g' r].
  apply Hx; [cbn [steel Material.HB]; lra | reflexivity | reflexivity].
Defined.

(** ** A temperature factor left behind *)



(** ** The input motor *)

Lemma torque_about_power (power o : R) :
  (o <> 0 -> InputMotor.torque_about power o * o = power)
  /\ (o = 0 -> InputMotor.torque_about power o = 0).
Proof.
  unfold InputMotor.torque_about. split.
  - intro Ho.
    replace (float_eq o 0) with false by (symmetry; now apply float_eq_false).
    field. exact Ho.
  - intros ->. now rewrite float_eq_refl.
Qed.

(** X22: the torque of a motor times its angular speed gives back the
    power on every axis that turns, and is zero, without any division, on
    every axis that does not; the angular speed is [n pi / 30] along the
    axis, and the motor carries no force. *)
Theorem X22_motor_torque_times_speed (name : string) (power n : R)
    (axis loc : vec) :
  let motor := InputMotor.init name power n axis loc in
  let T := Torque.torque (InputMotor.T_tot motor) in
  let w := InputMotor.omega motor in
  w = vscale (n * PI / 30) axis
  /\ (vx w <> 0 -> vx T * vx w = power) /\ (vx w = 0 -> vx T = 0)
  /\ (vy w <> 0 -> vy T * vy w = power) /\ (vy w = 0 -> vy T = 0)
  /\ (vz w <> 0 -> vz T * vz w = power) /\ (vz w = 0 -> vz T = 0)
  /\ Force.force (InputMotor.F_tot motor) = zeros
  /\ Torque.loc (InputMotor.T_tot motor) = loc.
Proof.
  cbn zeta. cbn [InputMotor.init InputMotor.omega InputMotor.T_tot
                 InputMotor.F_tot Torque.torque Torque.loc Force.force].
  split; [reflexivity|].
  repeat split; cbn [vx vy vz]; apply torque_about_power.
Qed.

Lemma X22_motor_torque_times_speed_witness :
  vz (Torque.torque (InputMotor.T_tot
        (InputMotor.init "M" 100 30 (mkvec 0 0 1) zeros)))
  * vz (InputMotor.omega (InputMotor.init "M" 100 30 (mkvec 0 0 1) zeros))
  = 100.
Proof.
  apply (X22_motor_torque_times_speed "M" 100 30 (mkvec 0 0 1) zeros).
  cbn. pose proof PI_RGT_0. lra.
Defined.

(** ** The bending stress: what is checked, and when *)

(** One statement of a method of the gear, also through a choice made on
    a value. *)
Ltac attr_walk :=
  lazymatch goal with
  | |- preserves _ (match ?x with _ => _ end) => destruct x
  | |- _ => attr_step
  end.

Section BendingChecks.
Variable Akima1DInterpolator : list R -> list R -> result (R -> R).

(** X23: an unknown power source, or a known one followed by an unknown
    driven machine, stops [calculateSigmaMaxFatigue] with the
    [ValueError] of that argument before anything has been assigned: the
    gear is returned as it was. *)
Theorem X23_categories_checked_first (g : Gear.t) (mesh : Mesh.t)
    (powerSource drivenMachine teethCond useCond : string)
    (dShaft Ce lShaft : R) (rel_loc : option vec) :
  (power_source_index powerSource = None ->
   calculateSigmaMaxFatigue Akima1DInterpolator mesh powerSource drivenMachine
     dShaft Ce teethCond lShaft useCond rel_loc g
   = (g, Err (ValueError "Wrong input for power source")))
  /\ (power_source_index powerSource <> None ->
      driven_machine_index drivenMachine = None ->
      calculateSigmaMaxFatigue Akima1DInterpolator mesh powerSource
        drivenMachine dShaft Ce teethCond lShaft useCond rel_loc g
      = (g, Err (ValueError "Wrong input for driven machine"))).
Proof.
  unfold calculateSigmaMaxFatigue. cbn zeta. split.
  - intros ->. reflexivity.
  - intros Hi ->. destruct (power_source_index powerSource); [|contradiction].
    reflexivity.
Qed.

Lemma K0_ref_range (i j : nat) :
  (i = 1 \/ i = 2 \/ i = 3)%nat -> (j = 1 \/ j = 2 \/ j = 3)%nat ->
  1 <= nth (j - 1) (nth (i - 1) K0_ref []) 0 <= 2.25.
Proof.
  intros Hi Hj.
  repeat (destruct Hi as [->|Hi]); try subst i;
    repeat (destruct Hj as [->|Hj]); try subst j; cbn; lra.
Qed.

Lemma power_source_range (s : string) (i : nat) :
  power_source_index s = Some i -> (i = 1 \/ i = 2 \/ i = 3)%nat.
Proof.
  unfold power_source_index.
  repeat match goal with
         | |- context [String.eqb s ?c] => destruct (String.eqb s c)
         end;
    intro E; try discriminate E; injection E as <-; tauto.
Qed.

Lemma driven_machine_range (s : string) (j : nat) :
  driven_machine_index s = Some j -> (j = 1 \/ j = 2 \/ j = 3)%nat.
Proof.
  unfold driven_machine_index.
  repeat match goal with
         | |- context [String.eqb s ?c] => destruct (String.eqb s c)
         end;
    intro E; try discriminate E; injection E as <-; tauto.
Qed.

(** X24: once both categories are recognised the overload factor is
    stored, whatever happens later in the call: it is the table entry of
    the two categories, between 1 and 2.25. *)
Theorem X24_overload_factor (g : Gear.t) (mesh : Mesh.t)
    (powerSource drivenMachine teethCond useCond : string)
    (dShaft Ce lShaft : R) (rel_loc : option vec) (i j : nat) :
  power_source_index powerSource = Some i ->
  driven_machine_index drivenMachine = Some j ->
  exists K_0,
    lookup "K_0"
      (Gear.attrs
         (fst (calculateSigmaMaxFatigue Akima1DInterpolator mesh powerSource
                 drivenMachine dShaft Ce teethCond lShaft useCond rel_loc g)))
    = Some K_0
    /\ K_0 = nth (j - 1) (nth (i - 1) K0_ref []) 0
    /\ 1 <= K_0 <= 2.25.
Proof.
  intros Hi Hj. eexists. split; [|split; [reflexivity|]].
  - unfold calculateSigmaMaxFatigue. cbn zeta. rewrite Hi, Hj.
    cbn [category]. rewrite !bind_lift_ok.
    unfold bind at 1. cbn [setattr modify].
    apply (starts_in (fun g => lookup "K_0" (Gear.attrs g) = Some _)).
    + repeat attr_walk.
    + reflexivity.
  - apply K0_ref_range;
      [eapply power_source_range | eapply driven_machine_range]; eassumption.
Qed.
End BendingChecks.

Lemma X23_categories_checked_first_witness :
  calculateSigmaMaxFatigue flat_interpolant (pair "External") "Steam" "Uniform"
    10 1 "crowned teeth" 100 "Open gearing" None pinion
  = (pinion, Err (ValueError "Wrong input for power source")).
Proof.
  apply (X23_categories_checked_first flat_interpolant pinion (pair "External")
           "Steam" "Uniform" "crowned teeth" "Open gearing" 10 1 100 None).
  reflexivity.
Defined.

Lemma X24_overload_factor_witness :
  exists K_0,
    lookup "K_0"
      (Gear.attrs
         (fst (calculateSigmaMaxFatigue flat_interpolant (pair "External")
                 "Medium shock" "Heavy shock" 10 1 "crowned teeth" 100
                 "Open gearing" None pinion)))
    = Some K_0
    /\ K_0 = nth (3 - 1) (nth (3 - 1) K0_ref []) 0
    /\ 1 <= K_0 <= 2.25.
Proof.
  apply (X24_overload_factor flat_interpolant pinion (pair "External")
           "Medium shock" "Heavy shock" "crowned teeth" "Open gearing"
           10 1 100 None 3 3); reflexivity.
Defined.

(** ** Calls that cannot succeed *)

Section NeverReturns.
Context {S : Type} (P : S -> Prop).

Lemma never_raise {A} (e : pyerror) : never_returns P (@raise S A e).
Proof. intros s Hs. split; [exact Hs | now exists e]. Qed.

Lemma never_lift_err {A} (e : pyerror) : never_returns P (@lift S A (Err e)).
Proof. intros s Hs. split; [exact Hs | now exists e]. Qed.

Lemma never_bind_now {A B} (m : M S A) (k : A -> M S B) :
  never_returns P m -> never_returns P (bind m k).
Proof.
  intros Hm s Hs. destruct (Hm s Hs) as [HP [e He]]. unfold bind.
  destruct (m s) as [s' [x|e']]; cbn in *; [discriminate He|].
  split; [exact HP | now exists e'].
Qed.

Lemma never_bind_later {A B} (m : M S A) (k : A -> M S B) :
  preserves P m -> (forall x, never_returns P (k x)) ->
  never_returns P (bind m k).
Proof.
  intros Hm Hk s Hs. specialize (Hm s Hs). unfold bind.
  destruct (m s) as [s' [x|e]]; cbn in *; [now apply Hk|].
  split; [exact Hm | now exists e].
Qed.

Lemma never_bind_get {B} (k : S -> M S B) :
  (forall s0, never_returns P (k s0)) -> never_returns P (bind get k).
Proof. intros Hk s Hs. rewrite bind_get. now apply Hk. Qed.
End NeverReturns.

Lemma never_getattr (key : string) :
  never_returns (fun g => lookup key (Gear.attrs g) = None) (getattr key).
Proof.
  intros g Hg. unfold getattr. rewrite Hg. cbn [fst snd].
  split; [exact Hg | now exists (AttributeError key)].
Qed.

(** Walk down a method to the statement that is bound to raise: a
    statement either raises itself or keeps [P] and hands over. *)
Ltac never_walk :=
  lazymatch goal with
  | |- never_returns _ (raise _) => apply never_raise
  | |- never_returns _ (lift (Err _)) => apply never_lift_err
  | |- never_returns _ (getattr _) => apply never_getattr
  | |- never_returns _ (bind get _) => apply never_bind_get; intro
  | |- never_returns _ (bind _ _) =>
      first [ apply never_bind_now; solve [repeat never_walk]
            | apply never_bind_later; [solve [repeat attr_walk] | intro] ]
  | |- never_returns _ (match ?x with _ => _ end) => destruct x
  | |- never_returns _ _ => progress cbv zeta
  end.

Section BendingConditions.
Variable Akima1DInterpolator : list R -> list R -> result (R -> R).

(** X25: with a teeth condition other than "uncrowned teeth" and
    "crowned teeth", or a use condition that is not one of the four,
    [calculateSigmaMaxFatigue] never returns: it ends in an exception,
    whichever comes first, and neither the load-distribution factor
    [K_H] nor the stress is assigned. *)
Theorem X25_unknown_condition_never_succeeds (g : Gear.t) (mesh : Mesh.t)
    (powerSource drivenMachine teethCond useCond : string)
    (dShaft Ce lShaft : R) (rel_loc : option vec) :
  (teethCond <> "uncrowned teeth"%string /\ teethCond <> "crowned teeth"%string)
  \/ enclosure useCond = None ->
  let (g', r) :=
    calculateSigmaMaxFatigue Akima1DInterpolator mesh powerSource drivenMachine
      dShaft Ce teethCond lShaft useCond rel_loc g in
  (exists e, r = Err e)
  /\ lookup "K_H" (Gear.attrs g') = lookup "K_H" (Gear.attrs g)
  /\ lookup "sigma_max_fatigue" (Gear.attrs g')
     = lookup "sigma_max_fatigue" (Gear.attrs g).
Proof.
  intro Hbad.
  set (P := fun g' : Gear.t =>
              lookup "K_H" (Gear.attrs g') = lookup "K_H" (Gear.attrs g)
              /\ lookup "sigma_max_fatigue" (Gear.attrs g')
                 = lookup "sigma_max_fatigue" (Gear.attrs g)).
  assert (Hset : forall k v, k <> "K_H"%string ->
                   k <> "sigma_max_fatigue"%string ->
                   preserves P (setattr k v)).
  { intros k v H1 H2 s [Hs1 Hs2]. unfold P, setattr, modify.
    cbn [fst Gear.attrs Gear.set_attrs lookup].
    apply not_eq_sym in H1, H2. apply String.eqb_neq in H1, H2.
    rewrite H1, H2. now split. }
  assert (Hnever : never_returns P
            (calculateSigmaMaxFatigue Akima1DInterpolator mesh powerSource
               drivenMachine dShaft Ce teethCond lShaft useCond rel_loc)).
  { unfold calculateSigmaMaxFatigue. cbn zeta.
    destruct Hbad as [[Hu Hc]|Huse].
    - apply String.eqb_neq in Hu, Hc. rewrite Hu, Hc.
      repeat first
        [ apply never_bind_now; apply never_raise
        | apply never_bind_get; intro
        | apply never_bind_later;
          [ repeat first [ apply Hset; discriminate
                         | apply preserves_lift
                         | apply preserves_bind; [|intro]
                         | match goal with
                           | |- preserves _ (match ?x with _ => _ end) =>
                               destruct x
                           end ]
          | intro ] ].
    - rewrite Huse.
      repeat first
        [ apply never_bind_now; apply never_lift_err
        | apply never_bind_get; intro
        | apply never_bind_later;
          [ repeat first [ apply Hset; discriminate
                         | apply preserves_lift
                         | apply preserves_raise
                         | apply preserves_bind; [|intro]
                         | match goal with
                           | |- preserves _ (match ?x with _ => _ end) =>
                               destruct x
                           end ]
          | intro ] ]. }
  destruct (Hnever g (conj eq_refl eq_refl)) as [[HKH Hsig] He].
  destruct (calculateSigmaMaxFatigue Akima1DInterpolator mesh powerSource
              drivenMachine dShaft Ce teethCond lShaft useCond rel_loc g)
    as [g' r].
  cbn [fst snd] in *. auto.
Qed.
End BendingConditions.

Lemma X25_unknown_condition_never_succeeds_witness :
  exists e,
    snd (calculateSigmaMaxFatigue flat_interpolant (pair "External")
           "Uniform" "Uniform" 10 1 "polished teeth" 100 "Open gearing"
           None pinion)
    = Err e.
Proof.
  pose proof (X25_unknown_condition_never_succeeds flat_interpolant pinion
                (pair "External") "Uniform" "Uniform" "polished teeth"
                "Open gearing" 10 1 100 None) as Hx.
  destruct (calculateSigmaMaxFatigue flat_interpolant (pair "External")
              "Uniform" "Uniform" 10 1 "polished teeth" 100 "Open gearing"
              None pinion) as [g' r].
  apply Hx. left. split; discriminate.
Defined.

(** X26: the pitting analysis cannot succeed on a gear that lacks any of
    the factors the bending analysis leaves behind.  If
    [analyseGearToothPitting] returns, the gear already had [K_0], [K_v],
    [K_S], [K_H], [Y_theta] and [Y_Z] when it was called. *)
Theorem X26_pitting_analysis_after_bending (g : Gear.t) (mesh : Mesh.t)
    (Z_R sigma_HP b_ZN e_ZN N : R) :
  snd (analyseGearToothPitting mesh Z_R sigma_HP b_ZN e_ZN N g) = Ok tt ->
  lookup "K_0" (Gear.attrs g) <> None
  /\ lookup "K_v" (Gear.attrs g) <> None
  /\ lookup "K_S" (Gear.attrs g) <> None
  /\ lookup "K_H" (Gear.attrs g) <> None
  /\ lookup "Y_theta" (Gear.attrs g) <> None
  /\ lookup "Y_Z" (Gear.attrs g) <> None.
Proof.
  intro Hret.
  assert (Hneeds : forall key,
            In key ["K_0"; "K_v"; "K_S"; "K_H"; "Y_theta"; "Y_Z"]%string ->
            lookup key (Gear.attrs g) <> None).
  { intros key Hkey Hmissing.
    assert (Hnever : never_returns
                       (fun g => lookup key (Gear.attrs g) = None)
                       (analyseGearToothPitting mesh Z_R sigma_HP b_ZN e_ZN N)).
    { unfold analyseGearToothPitting, calculateSigmaMaxPitting,
        calculateWearSF.
      cbn [In] in Hkey.
      repeat (destruct Hkey as [<-|Hkey]); [..|destruct Hkey];
        repeat never_walk. }
    destruct (Hnever g Hmissing) as [_ [e He]].
    rewrite Hret in He. discriminate He. }
  repeat split; apply Hneeds; cbn; auto 10.
Qed.

(** The pitting analysis from a gear that has the six factors. *)
Lemma pitting_analysis_runs (g : Gear.t) (mesh : Mesh.t)
    (Z_R sigma_HP b_ZN e_ZN N K_0 K_v K_S K_H Y_theta Y_Z p : R)
    (pm gm : Material.t) (i j : nat) (sign : R) :
  pypow N e_ZN = Ok p ->
  Component.material (Gear.comp (Mesh.drivingGear mesh)) = Some pm ->
  material_index (Material.name pm) = Some i ->
  Component.material (Gear.comp (Mesh.drivenGear mesh)) = Some gm ->
  material_index (Material.name gm) = Some j ->
  contact_length g mesh <> 0 ->
  load_sharing_ratio g mesh <> 0 ->
  (Mesh.type mesh = "External"%string /\ sign = 1)
  \/ (Mesh.type mesh = "Internal"%string /\ sign = -1) ->
  Mesh.m_G mesh + sign <> 0 ->
  Material.HB gm <> 0 ->
  lookup "K_0" (Gear.attrs g) = Some K_0 ->
  lookup "K_v" (Gear.attrs g) = Some K_v ->
  lookup "K_S" (Gear.attrs g) = Some K_S ->
  lookup "K_H" (Gear.attrs g) = Some K_H ->
  lookup "Y_theta" (Gear.attrs g) = Some Y_theta ->
  lookup "Y_Z" (Gear.attrs g) = Some Y_Z ->
  let Z_E := nth (j - 1) (nth (i - 1) ZE_ref []) 0 in
  let Z_I := cos (Gear.phi_t g) * sin (Gear.phi_t g) * Mesh.m_G mesh / 2
             / load_sharing_ratio g mesh / (Mesh.m_G mesh + sign) in
  let stress :=
    Z_E * sqrt (vsum (vabs (Force.force (Mesh.F_t mesh)))
                * K_0 * K_v * K_S * K_H * Z_R / Gear.FW g / Gear.d g / Z_I) in
  let Z_W := 1 + hardness_coefficient (Material.HB pm / Material.HB gm)
                 * (Mesh.m_G mesh - 1) in
  let g' := fst (analyseGearToothPitting mesh Z_R sigma_HP b_ZN e_ZN N g) in
  snd (analyseGearToothPitting mesh Z_R sigma_HP b_ZN e_ZN N g) = Ok tt
  /\ lookup "sigma_max_pitting" (Gear.attrs g') = Some stress
  /\ lookup "wearSF" (Gear.attrs g')
     = Some (sigma_HP * (b_ZN * p) * Z_W / stress / Y_theta / Y_Z).
Proof.
  intros Hp Hpm Hi Hgm Hj HZ HmN Htype HmG HHB HK0 HKv HKS HKH Htheta HYZ.
  cbn zeta.
  unfold analyseGearToothPitting, calculateSigmaMaxPitting, calculateWearSF,
    material_name, material_HB, index_or.
  rewrite Hpm; run; rewrite Hi; run; rewrite Hgm; run; rewrite Hj; run.
  fold (contact_length g mesh). rewrite (pydiv_ok _ _ HZ). run.
  fold (load_sharing_ratio g mesh).
  destruct Htype as [[-> ->]|[-> ->]]; run;
    rewrite (pydiv_ok _ _ HmN); run;
    [ rewrite (pydiv_ok _ _ HmG)
    | change (Mesh.m_G mesh - 1) with (Mesh.m_G mesh + - 1);
      rewrite (pydiv_ok _ _ HmG) ];
    run; rewrite HK0; run; rewrite HKv; run; rewrite HKS; run;
    rewrite HKH; run; rewrite Hp; run; rewrite (pydiv_ok _ _ HHB); run;
    rewrite Htheta; run; rewrite HYZ; run;
    repeat split; reflexivity.
Qed.

(** X27: on a gear that has the six factors of the bending analysis, with
    both materials listed, a known mesh type, no zero divisor and a
    positive quantity under the root, the pitting analysis returns; it
    stores the contact stress [Z_E sqrt(|F_t| K_0 K_v K_S K_H Z_R /
    (FW d Z_I))] and the wear safety factor [sigma_HP Z_N Z_W /
    (stress Y_theta Y_Z)], with [Z_N = b_ZN N ^ e_ZN]. *)
Theorem X27_pitting_analysis_result (g : Gear.t) (mesh : Mesh.t)
    (Z_R sigma_HP b_ZN e_ZN N K_0 K_v K_S K_H Y_theta Y_Z : R)
    (pm gm : Material.t) (i j : nat) (sign Z_E Z_I radicand : R) :
  Component.material (Gear.comp (Mesh.drivingGear mesh)) = Some pm ->
  material_index (Material.name pm) = Some i ->
  Component.material (Gear.comp (Mesh.drivenGear mesh)) = Some gm ->
  material_index (Material.name gm) = Some j ->
  contact_length g mesh <> 0 ->
  load_sharing_ratio g mesh <> 0 ->
  (Mesh.type mesh = "External"%string /\ sign = 1)
  \/ (Mesh.type mesh = "Internal"%string /\ sign = -1) ->
  Mesh.m_G mesh + sign <> 0 ->
  Material.HB gm <> 0 ->
  lookup "K_0" (Gear.attrs g) = Some K_0 ->
  lookup "K_v" (Gear.attrs g) = Some K_v ->
  lookup "K_S" (Gear.attrs g) = Some K_S ->
  lookup "K_H" (Gear.attrs g) = Some K_H ->
  lookup "Y_theta" (Gear.attrs g) = Some Y_theta ->
  lookup "Y_Z" (Gear.attrs g) = Some Y_Z ->
  Z_E = nth (j - 1) (nth (i - 1) ZE_ref []) 0 ->
  Z_I = cos (Gear.phi_t g) * sin (Gear.phi_t g) * Mesh.m_G mesh
        / (2 * load_sharing_ratio g mesh * (Mesh.m_G mesh + sign)) ->
  radicand = vsum (vabs (Force.force (Mesh.F_t mesh)))
             * K_0 * K_v * K_S * K_H * Z_R / (Gear.FW g * Gear.d g * Z_I) ->
  0 < radicand -> Z_E <> 0 -> Y_theta <> 0 -> Y_Z <> 0 -> 0 < N ->
  let (g', r) := analyseGearToothPitting mesh Z_R sigma_HP b_ZN e_ZN N g in
  r = Ok tt
  /\ lookup "sigma_max_pitting" (Gear.attrs g') = Some (Z_E * sqrt radicand)
  /\ lookup "wearSF" (Gear.attrs g')
     = Some (sigma_HP * (b_ZN * Rpower N e_ZN)
             * (1 + hardness_coefficient (Material.HB pm / Material.HB gm)
                    * (Mesh.m_G mesh - 1))
             / (Z_E * sqrt radicand * Y_theta * Y_Z)).
Proof.
  intros Hpm Hi Hgm Hj HZ HmN Htype HmG HHB HK0 HKv HKS HKH Htheta HYZ
    -> -> -> _ _ _ _ HN.
  pose proof (pitting_analysis_runs g mesh Z_R sigma_HP b_ZN e_ZN N
                K_0 K_v K_S K_H Y_theta Y_Z (Rpower N e_ZN) pm gm i j sign
                (pypow_pos N e_ZN HN)
                Hpm Hi Hgm Hj HZ HmN Htype HmG HHB HK0 HKv HKS HKH Htheta HYZ)
    as Hrun.
  cbn zeta in Hrun.
  destruct (analyseGearToothPitting mesh Z_R sigma_HP b_ZN e_ZN N g) as [g' r].
  cbn [fst snd] in Hrun. destruct Hrun as (Hr & Hstress & Hwear).
  assert (HZI : cos (Gear.phi_t g) * sin (Gear.phi_t g) * Mesh.m_G mesh / 2
                / load_sharing_ratio g mesh / (Mesh.m_G mesh + sign)
                = cos (Gear.phi_t g) * sin (Gear.phi_t g) * Mesh.m_G mesh
                  / (2 * load_sharing_ratio g mesh * (Mesh.m_G mesh + sign)))
    by (field; auto).
  rewrite HZI in Hstress, Hwear.
  set (Z_I := cos (Gear.phi_t g) * sin (Gear.phi_t g) * Mesh.m_G mesh
              / (2 * load_sharing_ratio g mesh * (Mesh.m_G mesh + sign))) in *.
  assert (Hquot : forall a, a / Gear.FW g / Gear.d g / Z_I
                            = a / (Gear.FW g * Gear.d g * Z_I)).
  { intro a. unfold Rdiv. rewrite !Rinv_mult. ring. }
  rewrite Hquot in Hstress, Hwear.
  split; [exact Hr|]. split; [exact Hstress|].
  rewrite Hwear. f_equal. unfold Rdiv. rewrite !Rinv_mult. ring.
Qed.

(** The loaded pair and the pinion that is ready for the pitting pass. *)
Lemma loaded_pair_contact : 0 < contact_length ready_pinion loaded_pair.
Proof. exact (pair_contact_length_positive "External"). Qed.

Lemma loaded_pair_sharing : 0 < load_sharing_ratio ready_pinion loaded_pair.
Proof. exact (pair_load_sharing_positive "External"). Qed.

Lemma loaded_pair_runs :
  snd (analyseGearToothPitting loaded_pair 1 1 1 1 1 ready_pinion) = Ok tt.
Proof.
  refine (proj1 (pitting_analysis_runs ready_pinion loaded_pair 1 1 1 1 1
                   1 1 1 1 1 1 (Rpower 1 1) steel steel 1 1 1
                   (pypow_pos 1 1 Rlt_0_1)
                   eq_refl eq_refl eq_refl eq_refl _ _ _ _ _
                   eq_refl eq_refl eq_refl eq_refl eq_refl eq_refl)).
  - apply Rgt_not_eq, loaded_pair_contact.
  - apply Rgt_not_eq, loaded_pair_sharing.
  - left. split; reflexivity.
  - change (Mesh.m_G loaded_pair) with 3. lra.
  - change (Material.HB steel) with 200. lra.
Qed.

Lemma X26_pitting_analysis_after_bending_witness :
  lookup "K_0" (Gear.attrs ready_pinion) <> None
  /\ lookup "K_v" (Gear.attrs ready_pinion) <> None
  /\ lookup "K_S" (Gear.attrs ready_pinion) <> None
  /\ lookup "K_H" (Gear.attrs ready_pinion) <> None
  /\ lookup "Y_theta" (Gear.attrs ready_pinion) <> None
  /\ lookup "Y_Z" (Gear.attrs ready_pinion) <> None.
Proof.
  exact (X26_pitting_analysis_after_bending ready_pinion loaded_pair
           1 1 1 1 1 loaded_pair_runs).
Defined.

Lemma loaded_pair_radicand :
  0 < vsum (vabs (Force.force (Mesh.F_t loaded_pair)))
      * 1 * 1 * 1 * 1 * 1
      / (Gear.FW ready_pinion * Gear.d ready_pinion
         * (cos (Gear.phi_t ready_pinion) * sin (Gear.phi_t ready_pinion)
            * Mesh.m_G loaded_pair
            / (2 * load_sharing_ratio ready_pinion loaded_pair
               * (Mesh.m_G loaded_pair + 1)))).
Proof.
  pose proof loaded_pair_sharing as Hm.
  set (m_N := load_sharing_ratio ready_pinion loaded_pair) in *.
  change (Gear.phi_t ready_pinion) with (PI / 6).
  change (Gear.FW ready_pinion) with 10.
  change (Gear.d ready_pinion) with (2 * 20).
  change (Mesh.m_G loaded_pair) with 3.
  change (vsum (vabs (Force.force (Mesh.F_t loaded_pair))))
    with (Rabs 100 + Rabs 0 + Rabs 0).
  rewrite Rabs_R0, Rabs_pos_eq by lra.
  rewrite cos_PI6, sin_PI6.
  assert (H3 : 0 < sqrt 3) by (apply sqrt_lt_R0; lra).
  apply Rdiv_lt_0_compat; [lra|].
  apply Rmult_lt_0_compat; [lra|].
  apply Rdiv_lt_0_compat; [nra|nra].
Qed.

Lemma X27_pitting_analysis_result_witness :
  let (g', r) := analyseGearToothPitting loaded_pair 1 1 1 1 1 ready_pinion in
  let radicand :=
    vsum (vabs (Force.force (Mesh.F_t loaded_pair))) * 1 * 1 * 1 * 1 * 1
    / (Gear.FW ready_pinion * Gear.d ready_pinion
       * (cos (Gear.phi_t ready_pinion) * sin (Gear.phi_t ready_pinion)
          * Mesh.m_G loaded_pair
          / (2 * load_sharing_ratio ready_pinion loaded_pair
             * (Mesh.m_G loaded_pair + 1)))) in
  r = Ok tt
  /\ lookup "sigma_max_pitting" (Gear.attrs g') = Some (191 * sqrt radicand)
  /\ lookup "wearSF" (Gear.attrs g')
     = Some (1 * (1 * Rpower 1 1)
             * (1 + hardness_coefficient (200 / 200) * (3 - 1))
             / (191 * sqrt radicand * 1 * 1)).
Proof.
  refine (X27_pitting_analysis_result ready_pinion loaded_pair 1 1 1 1 1
            1 1 1 1 1 1 steel steel 1 1 1 191 _ _
            eq_refl eq_refl eq_refl eq_refl _ _ _ _ _
            eq_refl eq_refl eq_refl eq_refl eq_refl eq_refl
            eq_refl eq_refl eq_refl _ _ _ _ _).
  - apply Rgt_not_eq, loaded_pair_contact.
  - apply Rgt_not_eq, loaded_pair_sharing.
  - left. split; reflexivity.
  - change (Mesh.m_G loaded_pair) with 3. lra.
  - change (Material.HB steel) with 200. lra.
  - exact loaded_pair_radicand.
  - lra.
  - lra.
  - lra.
  - lra.
Defined.

(** ** The 2-D interpolation: where it can fail *)

Lemma getitem_in_range {A} (l : list A) (i : Z) :
  (- Z.of_nat (List.length l) <= i < Z.of_nat (List.length l))%Z ->
  exists v, getitem l i = Ok v.
Proof.
  intro Hi. unfold getitem. cbv zeta.
  set (n := Z.of_nat (List.length l)) in *.
  set (j := (if (i <? 0)%Z then (i + n)%Z else i)).
  assert (Hj : (0 <= j < n)%Z).
  { unfold j. destruct (Z.ltb_spec i 0); lia. }
  replace ((j <? 0)%Z || (n <=? j)%Z)%bool with false
    by (symmetry; apply orb_false_iff; split;
        [apply Z.ltb_ge | apply Z.leb_gt]; lia).
  destruct (nth_error l (Z.to_nat j)) as [v|] eqn:Hnth; [now exists v|].
  apply nth_error_None in Hnth. unfold n in Hj. lia.
Qed.

Lemma extrap_returns (x y_vals : list R) (akima : R -> R) (xq : R) :
  (2 <= List.length x)%nat -> List.length y_vals = List.length x ->
  exists v, Makima2DInterpolator.extrap x y_vals akima xq = Ok v.
Proof.
  intros Hx Hy. unfold Makima2DInterpolator.extrap. cbv zeta.
  destruct (getitem_in_range x 0) as [x0 ->]; [lia|].
  destruct (getitem_in_range x 1) as [x1 Hx1]; [lia|].
  destruct (getitem_in_range x (-1)) as [xl Hxl]; [lia|].
  destruct (getitem_in_range x (-2)) as [xl' Hxl']; [lia|].
  destruct (getitem_in_range y_vals 0) as [y0 Hy0]; [lia|].
  destruct (getitem_in_range y_vals 1) as [y1 Hy1]; [lia|].
  destruct (getitem_in_range y_vals (-1)) as [yl Hyl]; [lia|].
  destruct (getitem_in_range y_vals (-2)) as [yl' Hyl']; [lia|].
  cbn [rbind].
  destruct (float_lt xq x0); rewrite ?Hy1, ?Hy0, ?Hx1; cbn [rbind];
    rewrite Hxl; cbn [rbind];
    destruct (float_lt xl xq); rewrite ?Hyl, ?Hyl', ?Hxl'; cbn [rbind];
    eauto.
Qed.

Lemma map_result_returns {A B} (f : A -> result B) (l : list A) :
  (forall a, In a l -> exists b, f a = Ok b) ->
  exists bs, map_result f l = Ok bs /\ List.length bs = List.length l.
Proof.
  induction l as [|a l IH]; intro Hf; cbn [map_result].
  - now exists [].
  - destruct (Hf a (or_introl eq_refl)) as [b ->].
    destruct IH as (bs & -> & Hlen); [intros; apply Hf; now right|].
    exists (b :: bs). cbn [rbind List.length]. now rewrite Hlen.
Qed.

Section Interpolation.
Variable Akima1DInterpolator : list R -> list R -> result (R -> R).

Lemma call_returns (x y : list R) (z : list (list R)) (xq yq : R) :
  (2 <= List.length x)%nat -> (2 <= List.length y)%nat ->
  List.length z = List.length y ->
  (forall row, In row z -> List.length row = List.length x) ->
  (forall row, In row z -> exists f, Akima1DInterpolator x row = Ok f) ->
  (forall col, List.length col = List.length y ->
               exists f, Akima1DInterpolator y col = Ok f) ->
  exists v,
    (let? s := Makima2DInterpolator.init x y z in
     Makima2DInterpolator.call Akima1DInterpolator s xq yq)%res = Ok v.
Proof.
  intros Hx Hy Hz Hrows Hakx Haky.
  unfold Makima2DInterpolator.init.
  replace (List.length z =? List.length y)%nat with true
    by (symmetry; now apply Nat.eqb_eq).
  replace (forallb (fun row => (List.length row =? List.length x)%nat) z)
    with true
    by (symmetry; apply forallb_forall; intros row Hrow;
        now apply Nat.eqb_eq, Hrows).
  cbn [andb rbind]. unfold Makima2DInterpolator.call.
  cbn [Makima2DInterpolator.x Makima2DInterpolator.y Makima2DInterpolator.z].
  destruct (map_result_returns
              (fun row =>
                 (let? interp :=
                    Makima2DInterpolator.akima_with_extrapolation
                      Akima1DInterpolator x row in
                  interp xq)%res) z) as (mid & -> & Hmid).
  { intros row Hrow.
    unfold Makima2DInterpolator.akima_with_extrapolation.
    destruct (Hakx row Hrow) as [f ->]. cbn [rbind].
    apply extrap_returns; [exact Hx | now apply Hrows]. }
  cbn [rbind]. unfold Makima2DInterpolator.akima_with_extrapolation.
  destruct (Haky mid) as [f ->]; [congruence|]. cbn [rbind].
  apply extrap_returns; [exact Hy | congruence].
Qed.

(** X15: on a table with one row per [y] sample, one column per [x]
    sample and at least two samples along each axis, the 2-D
    interpolation can fail only where scipy refuses to build a 1-D
    interpolant: if scipy accepts every row over [x] and every column of
    intermediate values over [y], the constructor and the call both
    return, for every query, inside the grid or outside. *)
Theorem X15_interpolation_returns (x y : list R) (z : list (list R))
    (xq yq : R) :
  (2 <= List.length x)%nat -> (2 <= List.length y)%nat ->
  List.length z = List.length y ->
  (forall row, In row z -> List.length row = List.length x) ->
  (forall row, In row z -> exists f, Akima1DInterpolator x row = Ok f) ->
  (forall col, List.length col = List.length y ->
               exists f, Akima1DInterpolator y col = Ok f) ->
  exists s v,
    Makima2DInterpolator.init x y z = Ok s
    /\ Makima2DInterpolator.call Akima1DInterpolator s xq yq = Ok v.
Proof.
  intros Hx Hy Hz Hrows Hakx Haky.
  destruct (call_returns x y z xq yq Hx Hy Hz Hrows Hakx Haky) as [v Hv].
  destruct (Makima2DInterpolator.init x y z) as [s|e]; [|discriminate Hv].
  now exists s, v.
Qed.
End Interpolation.

Lemma X15_interpolation_returns_witness :
  exists s v,
    Makima2DInterpolator.init [0; 1] [0; 1; 2] [[1; 2]; [3; 4]; [5; 6]] = Ok s
    /\ Makima2DInterpolator.call flat_interpolant s 3 (-1) = Ok v.
Proof.
  apply (X15_interpolation_returns flat_interpolant
           [0; 1] [0; 1; 2] [[1; 2]; [3; 4]; [5; 6]] 3 (-1)).
  - cbn. lia.
  - cbn. lia.
  - reflexivity.
  - intros row [<-|[<-|[<-|[]]]]; reflexivity.
  - intros row _. now exists (fun _ => 0).
  - intros col _. now exists (fun _ => 0).
Defined.

(** ** What the two analyses leave on the gear *)

Lemma only_adds_setattr (g : Gear.t) (k : string) (w : R) :
  preserves (fun g' => same_gear_but_attrs g g' /\ keeps_attrs g g')
            (setattr k w).
Proof.
  intros g' [Hsame Hkeeps]. unfold setattr, modify. cbn [fst]. split.
  - unfold same_gear_but_attrs in *. rewrite Hsame at 1. reflexivity.
  - intros key Hkey. cbn [Gear.attrs Gear.set_attrs lookup].
    destruct (String.eqb key k); [discriminate|]. now apply Hkeeps.
Qed.

Lemma keeps_present_setattr (key k : string) (w : R) :
  preserves (fun g => lookup key (Gear.attrs g) <> None) (setattr k w).
Proof.
  intros g Hg. unfold setattr, modify. cbn [fst Gear.attrs Gear.set_attrs lookup].
  destruct (String.eqb key k); [discriminate|exact Hg].
Qed.

(** One statement of a method of the gear, for a property that every
    assignment of an attribute keeps. *)
Ltac adds_walk :=
  lazymatch goal with
  | |- preserves _ (setattr _ _) =>
      first [ apply only_adds_setattr | apply keeps_present_setattr ]
  | |- preserves _ (match ?x with _ => _ end) => destruct x
  | |- _ => attr_step
  end.

Section ReturnsIn.
Context {S : Type} (Q : S -> Prop).

Lemma returns_bind_here {A B} (m : M S A) (k : A -> M S B) :
  returns_in Q m -> (forall x, preserves Q (k x)) ->
  returns_in Q (bind m k).
Proof.
  intros Hm Hk s y. specialize (Hm s). unfold bind.
  destruct (m s) as [s' [x|e]]; cbn [fst snd] in *; [|discriminate].
  intros _. apply Hk. now apply (Hm x).
Qed.

Lemma returns_bind_later {A B} (m : M S A) (k : A -> M S B) :
  (forall x, returns_in Q (k x)) -> returns_in Q (bind m k).
Proof.
  intros Hk s y. unfold bind.
  destruct (m s) as [s' [x|e]]; cbn [fst snd]; [apply Hk|discriminate].
Qed.
End ReturnsIn.

Lemma returns_setattr (key : string) (w : R) :
  returns_in (fun g => lookup key (Gear.attrs g) <> None) (setattr key w).
Proof.
  intros g x _. unfold setattr, modify.
  cbn [fst Gear.attrs Gear.set_attrs lookup]. rewrite String.eqb_refl.
  discriminate.
Qed.

Lemma returns_getattr (key : string) :
  returns_in (fun g => lookup key (Gear.attrs g) <> None) (getattr key).
Proof.
  intros g x. unfold getattr.
  destruct (lookup key (Gear.attrs g)) eqn:Hk; cbn [fst snd];
    [intros _; rewrite Hk|]; discriminate.
Qed.

(** Walk down a method to a statement that assigns or reads the
    attribute; whatever follows keeps it. *)
Ltac returns_walk :=
  lazymatch goal with
  | |- returns_in _ (setattr _ _) => apply returns_setattr
  | |- returns_in _ (getattr _) => apply returns_getattr
  | |- returns_in _ (bind _ _) =>
      first [ apply returns_bind_here;
              [ solve [repeat returns_walk]
              | intro; solve [repeat adds_walk] ]
            | apply returns_bind_later; intro ]
  | |- returns_in _ (match ?x with _ => _ end) => destruct x
  | |- returns_in _ _ => progress cbv zeta
  end.

Section AfterBending.
Variable Akima1DInterpolator : list R -> list R -> result (R -> R).

Lemma bending_only_adds (g : Gear.t) (mesh : Mesh.t)
    (powerSource drivenMachine teethCond useCond : string)
    (dShaft Ce lShaft : R) (rel_loc : option vec)
    (sigma_FP b_YN e_YN N temp rel : R) :
  preserves (fun g' => same_gear_but_attrs g g' /\ keeps_attrs g g')
    (analyseGearToothBending Akima1DInterpolator mesh powerSource
       drivenMachine dShaft Ce teethCond lShaft useCond rel_loc
       sigma_FP b_YN e_YN N temp rel).
Proof.
  unfold analyseGearToothBending, calculateSigmaMaxFatigue,
    calculateBendingSF.
  repeat adds_walk.
Qed.

Lemma bending_leaves (key : string) (mesh : Mesh.t)
    (powerSource drivenMachine teethCond useCond : string)
    (dShaft Ce lShaft : R) (rel_loc : option vec)
    (sigma_FP b_YN e_YN N temp rel : R) :
  In key ["K_0"; "K_v"; "K_S"; "K_H"; "Y_theta"; "Y_Z";
          "sigma_max_fatigue"; "bendingSF"]%string ->
  returns_in (fun g => lookup key (Gear.attrs g) <> None)
    (analyseGearToothBending Akima1DInterpolator mesh powerSource
       drivenMachine dShaft Ce teethCond lShaft useCond rel_loc
       sigma_FP b_YN e_YN N temp rel).
Proof.
  intro Hkey.
  unfold analyseGearToothBending, calculateSigmaMaxFatigue,
    calculateBendingSF.
  cbn [In] in Hkey.
  repeat (destruct Hkey as [<-|Hkey]); [..|destruct Hkey];
    repeat returns_walk.
Qed.
End AfterBending.

Lemma pitting_only_adds (g : Gear.t) (mesh : Mesh.t)
    (Z_R sigma_HP b_ZN e_ZN N : R) :
  preserves (fun g' => same_gear_but_attrs g g' /\ keeps_attrs g g')
    (analyseGearToothPitting mesh Z_R sigma_HP b_ZN e_ZN N).
Proof.
  unfold analyseGearToothPitting, calculateSigmaMaxPitting, calculateWearSF.
  repeat adds_walk.
Qed.

(** ** A bending analysis that returns *)

Section BendingRuns.
Variable Akima1DInterpolator : list R -> list R -> result (R -> R).

Ltac run_gear :=
  repeat (run;
          cbn [Gear.d_f Gear.h Gear.Q_v Gear.comp Gear.z_p Gear.m_t Gear.psi
               Gear.z Gear.d Gear.set_attrs rbind category]).

Lemma bending_analysis_runs (g : Gear.t) (mesh : Mesh.t)
    (powerSource drivenMachine teethCond useCond : string)
    (dShaft Ce lShaft : R) (where_on_shaft : vec)
    (sigma_FP b_YN e_YN N temp rel Y_Z J_p J_pp : R) (i j : nat)
    (abc : R * R * R) (A root : R) :
  power_source_index powerSource = Some i ->
  driven_machine_index drivenMachine = Some j ->
  Gear.h g <> 0 ->
  1.2 <= (Gear.d_f g - dShaft) / 2 / Gear.h g ->
  Gear.Q_v g < 12 ->
  A = 50 + 56 * (1 - 0.25 * Rpower (12 - Gear.Q_v g) (2 / 3)) ->
  root = sqrt (200 * (vsum (vabs (Component.omega (Gear.comp g)))
                      * Gear.d g * 1e-3)) ->
  0 <= vsum (vabs (Component.omega (Gear.comp g))) * Gear.d g ->
  A <> 0 ->
  0 < (A + root) / A ->
  teethCond = "uncrowned teeth"%string \/ teethCond = "crowned teeth"%string ->
  Gear.d g <> 0 ->
  enclosure useCond = Some abc ->
  0 <= np_interp (IZR (Gear.z_p g)) z_ref Y_ref ->
  0 < Rmin (Gear.FW (Mesh.drivingGear mesh)) (Gear.FW (Mesh.drivenGear mesh))
      * Gear.m_t g * sqrt (np_interp (IZR (Gear.z_p g)) z_ref Y_ref) ->
  chart Akima1DInterpolator psi_Jp_ref z_Jp_ref Jp_ref
    (Rabs (Gear.psi g * 180 / PI)) (Gear.z g) = Ok J_p ->
  chart Akima1DInterpolator psi_Jpp_ref z_Jpp_ref Jpp_ref
    (Rabs (Gear.psi g * 180 / PI)) (Gear.z g) = Ok J_pp ->
  0 < N ->
  temp <= 120 ->
  In (rel, Y_Z) (combine rel_ref YZ_ref) ->
  snd (analyseGearToothBending Akima1DInterpolator mesh powerSource
         drivenMachine dShaft Ce teethCond lShaft useCond
         (Some where_on_shaft) sigma_FP b_YN e_YN N temp rel g)
  = Ok tt.
Proof.
  intros Hi Hj Hh HmB HQ -> -> Hv HA Hq Hteeth Hd Habc HY HS HJp HJpp
    HN Htemp Hrel.
  assert (HQ' : 0 < 12 - Gear.Q_v g) by lra.
  unfold analyseGearToothBending, calculateSigmaMaxFatigue,
    calculateBendingSF.
  cbv zeta. rewrite Hi, Hj. run_gear.
  rewrite (pydiv_ok _ _ Hh). run_gear.
  replace (float_lt ((Gear.d_f g - dShaft) / 2 / Gear.h g) 1.2) with false
    by (symmetry; apply float_lt_false; lra).
  run_gear. rewrite (pypow_pos _ _ HQ'). run_gear. unfold pysqrt.
  replace (float_lt
             (200 * (vsum (vabs (Component.omega (Gear.comp g)))
                     * Gear.d g * 1e-3)) 0)
    with false by (symmetry; apply float_lt_false; lra).
  run_gear. rewrite (pydiv_ok _ _ HA). run_gear.
  rewrite (pypow_pos _ _ Hq). run_gear.
  destruct abc as [[cA cB] cC].
  destruct (table_hit rel Y_Z Hrel) as [Hc Hget].
  destruct Hteeth as [-> | ->]; run_gear;
    rewrite (pydiv_ok _ _ Hd); run_gear;
    rewrite Habc; run_gear;
    replace (float_lt (np_interp (IZR (Gear.z_p g)) z_ref Y_ref) 0)
      with false by (symmetry; apply float_lt_false; lra);
    run_gear; rewrite (pypow_pos _ _ HS); run_gear;
    rewrite HJp; run_gear; rewrite HJpp; run_gear;
    rewrite (pypow_pos _ _ HN); run_gear;
    replace (float_le temp 120) with true
      by (symmetry; apply float_le_true; lra);
    run_gear; rewrite Hc, Hget; run_gear; reflexivity.
Qed.
End BendingRuns.

Lemma tooth_form_20 : np_interp (IZR 20) z_ref Y_ref = 0.322.
Proof.
  unfold np_interp, z_ref, Y_ref.
  cbn [List.length nth tl Nat.sub]. float_decide.
  cbn [leading]. float_decide. cbn [Nat.eqb nth]. float_decide. reflexivity.
Qed.

Lemma flat_chart_returns (x y : list R) (z : list (list R)) (xq yq : R) :
  (2 <= List.length x)%nat -> (2 <= List.length y)%nat ->
  List.length z = List.length y ->
  forallb (fun row => (List.length row =? List.length x)%nat) z = true ->
  exists v, chart flat_interpolant x y z xq yq = Ok v.
Proof.
  intros Hx Hy Hz Hrows. unfold chart.
  apply call_returns; auto.
  - intros row Hrow. apply Nat.eqb_eq.
    revert row Hrow. now apply forallb_forall.
  - intros row _. now exists (fun _ => 0).
  - intros col _. now exists (fun _ => 0).
Qed.

Lemma pinion_bending_runs :
  snd (analyseGearToothBending flat_interpolant loaded_pair
         "Uniform" "Uniform" 20 1 "uncrowned teeth" 100 "Open gearing"
         (Some zeros) 1 1 1 1 20 0.99 pinion)
  = Ok tt.
Proof.
  destruct (flat_chart_returns psi_Jp_ref z_Jp_ref Jp_ref
              (Rabs (Gear.psi pinion * 180 / PI)) (Gear.z pinion))
    as [J_p HJp]; [cbn; lia | cbn; lia | reflexivity | reflexivity |].
  destruct (flat_chart_returns psi_Jpp_ref z_Jpp_ref Jpp_ref
              (Rabs (Gear.psi pinion * 180 / PI)) (Gear.z pinion))
    as [J_pp HJpp]; [cbn; lia | cbn; lia | reflexivity | reflexivity |].
  assert (Hstill : vsum (vabs (Component.omega (Gear.comp pinion))) = 0).
  { change (vsum (vabs (Component.omega (Gear.comp pinion))))
      with (Rabs 0 + Rabs 0 + Rabs 0).
    rewrite Rabs_R0. lra. }
  assert (HA : 0 < 50 + 56 * (1 - 0.25 * Rpower (12 - 6) (2 / 3))).
  { assert (Hlt : Rpower (12 - 6) (2 / 3) < Rpower (12 - 6) 1)
      by (apply Rpower_lt; lra).
    rewrite Rpower_1 in Hlt by lra. lra. }
  apply (bending_analysis_runs flat_interpolant pinion loaded_pair
           "Uniform" "Uniform" "uncrowned teeth" "Open gearing"
           20 1 100 zeros 1 1 1 1 20 0.99 1 J_p J_pp 1 1
           (0.247, 0.0167, -0.765 * 1e-4)
           (50 + 56 * (1 - 0.25 * Rpower (12 - 6) (2 / 3))) 0).
  - reflexivity.
  - reflexivity.
  - change (Gear.h pinion) with 4.5. lra.
  - change (Gear.h pinion) with 4.5.
    change (Gear.d_f pinion) with (2 * 20 - 5). lra.
  - change (Gear.Q_v pinion) with 6. lra.
  - reflexivity.
  - rewrite Hstill. rewrite !Rmult_0_l, Rmult_0_r. now rewrite sqrt_0.
  - rewrite Hstill. lra.
  - lra.
  - rewrite Rplus_0_r. unfold Rdiv. rewrite Rinv_r by lra. lra.
  - now left.
  - change (Gear.d pinion) with (2 * 20). lra.
  - reflexivity.
  - change (Gear.z_p pinion) with 20%Z. rewrite tooth_form_20. lra.
  - change (Gear.z_p pinion) with 20%Z. rewrite tooth_form_20.
    change (Gear.FW (Mesh.drivingGear loaded_pair)) with 10.
    change (Gear.FW (Mesh.drivenGear loaded_pair)) with 10.
    change (Gear.m_t pinion) with 2.
    rewrite Rmin_left by lra.
    assert (0 < sqrt 0.322) by (apply sqrt_lt_R0; lra). lra.
  - exact HJp.
  - exact HJpp.
  - lra.
  - lra.
  - unfold rel_ref, YZ_ref. cbn [combine In]. auto.
Qed.

Section Pipeline.
Variable Akima1DInterpolator : list R -> list R -> result (R -> R).

(** X28: a bending analysis that returns has left on the gear the
    overload, dynamic, size and load-distribution factors, the
    temperature and reliability factors, the bending stress and the
    bending safety factor. *)
Theorem X28_bending_analysis_leaves_factors (g : Gear.t) (mesh : Mesh.t)
    (powerSource drivenMachine teethCond useCond : string)
    (dShaft Ce lShaft : R) (rel_loc : option vec)
    (sigma_FP b_YN e_YN N temp rel : R) :
  snd (analyseGearToothBending Akima1DInterpolator mesh powerSource
         drivenMachine dShaft Ce teethCond lShaft useCond rel_loc
         sigma_FP b_YN e_YN N temp rel g) = Ok tt ->
  let g' := fst (analyseGearToothBending Akima1DInterpolator mesh powerSource
                   drivenMachine dShaft Ce teethCond lShaft useCond rel_loc
                   sigma_FP b_YN e_YN N temp rel g) in
  lookup "K_0" (Gear.attrs g') <> None
  /\ lookup "K_v" (Gear.attrs g') <> None
  /\ lookup "K_S" (Gear.attrs g') <> None
  /\ lookup "K_H" (Gear.attrs g') <> None
  /\ lookup "Y_theta" (Gear.attrs g') <> None
  /\ lookup "Y_Z" (Gear.attrs g') <> None
  /\ lookup "sigma_max_fatigue" (Gear.attrs g') <> None
  /\ lookup "bendingSF" (Gear.attrs g') <> None.
Proof.
  intros Hret g'.
  assert (Hleaves : forall key,
            In key ["K_0"; "K_v"; "K_S"; "K_H"; "Y_theta"; "Y_Z";
                    "sigma_max_fatigue"; "bendingSF"]%string ->
            lookup key (Gear.attrs g') <> None).
  { intros key Hkey.
    exact (bending_leaves Akima1DInterpolator key mesh powerSource
             drivenMachine teethCond useCond dShaft Ce lShaft rel_loc
             sigma_FP b_YN e_YN N temp rel Hkey g tt Hret). }
  repeat split; apply Hleaves; cbn; auto 10.
Qed.

(** X29: neither analysis, whether it returns or raises, changes
    anything of the gear but the attributes assigned after construction,
    and neither removes an attribute: the geometry, the loads and the
    material are those of the gear it was called on. *)
Theorem X29_analyses_only_add_attributes (g : Gear.t) (mesh : Mesh.t)
    (powerSource drivenMachine teethCond useCond : string)
    (dShaft Ce lShaft : R) (rel_loc : option vec)
    (sigma_FP b_YN e_YN N temp rel Z_R sigma_HP b_ZN e_ZN : R) :
  let bent := fst (analyseGearToothBending Akima1DInterpolator mesh
                     powerSource drivenMachine dShaft Ce teethCond lShaft
                     useCond rel_loc sigma_FP b_YN e_YN N temp rel g) in
  let pitted := fst (analyseGearToothPitting mesh Z_R sigma_HP b_ZN e_ZN N g) in
  (same_gear_but_attrs g bent /\ keeps_attrs g bent)
  /\ (same_gear_but_attrs g pitted /\ keeps_attrs g pitted).
Proof.
  assert (Hstart : same_gear_but_attrs g g /\ keeps_attrs g g).
  { split; [now destruct g | now intros key Hkey]. }
  split.
  - exact (bending_only_adds Akima1DInterpolator g mesh powerSource
             drivenMachine teethCond useCond dShaft Ce lShaft rel_loc
             sigma_FP b_YN e_YN N temp rel g Hstart).
  - exact (pitting_only_adds g mesh Z_R sigma_HP b_ZN e_ZN N g Hstart).
Qed.

(** X30: after a bending analysis that returned, the pitting analysis
    of the same gear finds every factor it reads: with a power
    [N ** e_ZN] that has a value, both materials listed, a known mesh
    type and no zero divisor, it returns too. *)
Theorem X30_pitting_follows_bending (g : Gear.t) (mesh : Mesh.t)
    (powerSource drivenMachine teethCond useCond : string)
    (dShaft Ce lShaft : R) (rel_loc : option vec)
    (sigma_FP b_YN e_YN N temp rel Z_R sigma_HP b_ZN e_ZN p : R)
    (pm gm : Material.t) (i j : nat) (sign : R) :
  snd (analyseGearToothBending Akima1DInterpolator mesh powerSource
         drivenMachine dShaft Ce teethCond lShaft useCond rel_loc
         sigma_FP b_YN e_YN N temp rel g) = Ok tt ->
  pypow N e_ZN = Ok p ->
  Component.material (Gear.comp (Mesh.drivingGear mesh)) = Some pm ->
  material_index (Material.name pm) = Some i ->
  Component.material (Gear.comp (Mesh.drivenGear mesh)) = Some gm ->
  material_index (Material.name gm) = Some j ->
  contact_length g mesh <> 0 ->
  load_sharing_ratio g mesh <> 0 ->
  (Mesh.type mesh = "External"%string /\ sign = 1)
  \/ (Mesh.type mesh = "Internal"%string /\ sign = -1) ->
  Mesh.m_G mesh + sign <> 0 ->
  Material.HB gm <> 0 ->
  snd (analyseGearToothPitting mesh Z_R sigma_HP b_ZN e_ZN N
         (fst (analyseGearToothBending Akima1DInterpolator mesh powerSource
                 drivenMachine dShaft Ce teethCond lShaft useCond rel_loc
                 sigma_FP b_YN e_YN N temp rel g)))
  = Ok tt.
Proof.
  intros Hret Hp Hpm Hi Hgm Hj HZ HmN Htype HmG HHB.
  assert (Hleaves : forall key,
            In key ["K_0"; "K_v"; "K_S"; "K_H"; "Y_theta"; "Y_Z";
                    "sigma_max_fatigue"; "bendingSF"]%string ->
            lookup key
              (Gear.attrs
                 (fst (analyseGearToothBending Akima1DInterpolator mesh
                         powerSource drivenMachine dShaft Ce teethCond lShaft
                         useCond rel_loc sigma_FP b_YN e_YN N temp rel g)))
            <> None).
  { intros key Hkey.
    exact (bending_leaves Akima1DInterpolator key mesh powerSource
             drivenMachine teethCond useCond dShaft Ce lShaft rel_loc
             sigma_FP b_YN e_YN N temp rel Hkey g tt Hret). }
  assert (Hsame : same_gear_but_attrs g
            (fst (analyseGearToothBending Akima1DInterpolator mesh
                    powerSource drivenMachine dShaft Ce teethCond lShaft
                    useCond rel_loc sigma_FP b_YN e_YN N temp rel g))).
  { apply (bending_only_adds Akima1DInterpolator g mesh powerSource
             drivenMachine teethCond useCond dShaft Ce lShaft rel_loc
             sigma_FP b_YN e_YN N temp rel g).
    split; [now destruct g | now intros key Hkey]. }
  set (g' := fst (analyseGearToothBending Akima1DInterpolator mesh
                    powerSource drivenMachine dShaft Ce teethCond lShaft
                    useCond rel_loc sigma_FP b_YN e_YN N temp rel g)) in *.
  assert (HZ' : contact_length g' mesh = contact_length g mesh)
    by (unfold same_gear_but_attrs in Hsame; rewrite Hsame; reflexivity).
  assert (HmN' : load_sharing_ratio g' mesh = load_sharing_ratio g mesh)
    by (unfold same_gear_but_attrs in Hsame; rewrite Hsame; reflexivity).
  destruct (lookup "K_0" (Gear.attrs g')) as [K_0|] eqn:HK0;
    [|exfalso; apply (Hleaves "K_0"%string); cbn; auto 10].
  destruct (lookup "K_v" (Gear.attrs g')) as [K_v|] eqn:HKv;
    [|exfalso; apply (Hleaves "K_v"%string); cbn; auto 10].
  destruct (lookup "K_S" (Gear.attrs g')) as [K_S|] eqn:HKS;
    [|exfalso; apply (Hleaves "K_S"%string); cbn; auto 10].
  destruct (lookup "K_H" (Gear.attrs g')) as [K_H|] eqn:HKH;
    [|exfalso; apply (Hleaves "K_H"%string); cbn; auto 10].
  destruct (lookup "Y_theta" (Gear.attrs g')) as [Y_theta|] eqn:Htheta;
    [|exfalso; apply (Hleaves "Y_theta"%string); cbn; auto 10].
  destruct (lookup "Y_Z" (Gear.attrs g')) as [Y_Z|] eqn:HYZ;
    [|exfalso; apply (Hleaves "Y_Z"%string); cbn; auto 10].
  refine (proj1 (pitting_analysis_runs g' mesh Z_R sigma_HP b_ZN e_ZN N
                   K_0 K_v K_S K_H Y_theta Y_Z p pm gm i j sign Hp
                   Hpm Hi Hgm Hj _ _ Htype HmG HHB
                   HK0 HKv HKS HKH Htheta HYZ)).
  - now rewrite HZ'.
  - now rewrite HmN'.
Qed.
End Pipeline.

Lemma X28_bending_analysis_leaves_factors_witness :
  let g' := fst (analyseGearToothBending flat_interpolant loaded_pair
                   "Uniform" "Uniform" 20 1 "uncrowned teeth" 100
                   "Open gearing" (Some zeros) 1 1 1 1 20 0.99 pinion) in
  lookup "K_0" (Gear.attrs g') <> None
  /\ lookup "K_v" (Gear.attrs g') <> None
  /\ lookup "K_S" (Gear.attrs g') <> None
  /\ lookup "K_H" (Gear.attrs g') <> None
  /\ lookup "Y_theta" (Gear.attrs g') <> None
  /\ lookup "Y_Z" (Gear.attrs g') <> None
  /\ lookup "sigma_max_fatigue" (Gear.attrs g') <> None
  /\ lookup "bendingSF" (Gear.attrs g') <> None.
Proof.
  exact (X28_bending_analysis_leaves_factors flat_interpolant pinion
           loaded_pair "Uniform" "Uniform" "uncrowned teeth" "Open gearing"
           20 1 100 (Some zeros) 1 1 1 1 20 0.99 pinion_bending_runs).
Defined.

Lemma X30_pitting_follows_bending_witness :
  snd (analyseGearToothPitting loaded_pair 1 1 1 1 1
         (fst (analyseGearToothBending flat_interpolant loaded_pair
                 "Uniform" "Uniform" 20 1 "uncrowned teeth" 100
                 "Open gearing" (Some zeros) 1 1 1 1 20 0.99 pinion)))
  = Ok tt.
Proof.
  refine (X30_pitting_follows_bending flat_interpolant pinion loaded_pair
            "Uniform" "Uniform" "uncrowned teeth" "Open gearing"
            20 1 100 (Some zeros) 1 1 1 1 20 0.99 1 1 1 1 (Rpower 1 1)
            steel steel 1 1 1 pinion_bending_runs (pypow_pos 1 1 Rlt_0_1)
            eq_refl eq_refl eq_refl eq_refl _ _ _ _ _).
  - apply Rgt_not_eq. exact (pair_contact_length_positive "External").
  - apply Rgt_not_eq. exact (pair_load_sharing_positive "External").
  - left. split; reflexivity.
  - change (Mesh.m_G loaded_pair) with 3. lra.
  - change (Material.HB steel) with 200. lra.
Defined.
